(** * Workspace trust: a shallow embedding of the workspace trust services

    The development follows the source class by class:
    [WorkspaceTrustState] (the per-workspace memento),
    [WorkspaceTrustTransitionManager] (the ordered participants),
    [WorkspaceTrustManagementService] (policy, trusted folders, storage) and
    [WorkspaceTrustRequestService] (the modal request protocol).

    Asynchronous methods are embedded in a state-and-rejection monad: a
    computation takes the state of the two services and either fulfils with
    a value or rejects with an error, in both cases with the state reached so
    far.  An [await] is sequencing in that monad. *)

From stdpp Require Import base option list strings gmap.
From Stdlib Require Import Ascii ZArith Lia.

Set Implicit Arguments.

(** ** Collaborators that the services consume *)

(** [IExtUri] of [vs/base/common/resources], as reached through
    [uriIdentityService.extUri].  [isEqualOrParent base parentCandidate]
    keeps the argument order of the source. *)
Class IExtUri (URI : Type) := {
  isEqual : URI -> URI -> bool;
  isEqualOrParent : URI -> URI -> bool;
  removeTrailingPathSeparator : URI -> URI
}.

(** The entry type [IWorkspaceTrustUriInfo]; it is both an element of
    [IWorkspaceTrustInfo.uriTrustInfo] and the result of [getUriTrustInfo]. *)
Record IWorkspaceTrustUriInfo (URI : Type) := {
  uri : URI;
  trusted : bool
}.
Arguments Build_IWorkspaceTrustUriInfo {URI} _ _.
Arguments uri {URI} _.
Arguments trusted {URI} _.

(** [IWorkspace]: the folders in order, and the workspace file if any. *)
Record IWorkspace (URI : Type) := {
  folders : list URI;
  configuration : option URI
}.
Arguments Build_IWorkspace {URI} _ _.
Arguments folders {URI} _.
Arguments configuration {URI} _.

(** The result of [toWorkspaceIdentifier]: a single folder identifier, a
    workspace (file) identifier, or [undefined]. *)
Inductive WorkspaceIdentifier (URI : Type) :=
| SingleFolderWorkspaceIdentifier (folderUri : URI)
| MultiRootWorkspaceIdentifier (configPath : URI)
| NoWorkspaceIdentifier.
Arguments SingleFolderWorkspaceIdentifier {URI} _.
Arguments MultiRootWorkspaceIdentifier {URI} _.
Arguments NoWorkspaceIdentifier {URI}.

(** What [JSON.parse] makes of the stored string, as far as [loadTrustInfo]
    looks at it: it throws, or yields a falsy value, or yields an object whose
    [uriTrustInfo] property may be missing. *)
Inductive JsonParseResult (C : Type) :=
| JsonThrows
| JsonFalsy
| JsonObject (uriTrustInfo : option (list (C * bool))).
Arguments JsonThrows {C}.
Arguments JsonFalsy {C}.
Arguments JsonObject {C} _.

(** The remaining imports of the file whose bodies are outside it: [URI],
    [splitName], [toWorkspaceIdentifier], [isUntitledWorkspace], the [JSON]
    object and the remote resolver's [getCanonicalURI]. *)
Class Platform (URI : Type) := {
  UriComponents : Type;
  URI_revive : UriComponents -> URI;
  URI_file : string -> URI;
  fsPath : URI -> string;
  scheme : URI -> string;
  splitName_parentPath : string -> string;
  toWorkspaceIdentifier : IWorkspace URI -> WorkspaceIdentifier URI;
  isUntitledWorkspace : URI -> bool;
  remote_getCanonicalURI : URI -> URI;
  JSON_stringify : list (IWorkspaceTrustUriInfo URI) -> string;
  JSON_parse : string -> JsonParseResult UriComponents
}.

Inductive WorkbenchState := EMPTY | FOLDER | WORKSPACE.

Definition WorkbenchState_eqb (a b : WorkbenchState) : bool :=
  match a, b with
  | EMPTY, EMPTY | FOLDER, FOLDER | WORKSPACE, WORKSPACE => true
  | _, _ => false
  end.

(** [ResolverResult], down to the one option the service reads. *)
Record ResolvedOptions := { isTrusted : option bool }.
Record ResolverResult := { options : option ResolvedOptions }.

(** JavaScript truthiness of a [string | undefined]. *)
Definition truthy_string (s : option string) : bool :=
  match s with
  | Some s => negb (String.eqb s "")
  | None => false
  end.

Definition WORKSPACE_TRUST_STORAGE_KEY : string := "content.trust.model.key".
Definition Schemas_file : string := "file".

(** ** Configuration *)

(** [configurationService.inspect(WORKSPACE_TRUST_ENABLED)], with the
    platform flag [isWeb]. *)
Record TrustConfiguration := {
  isWeb : bool;
  userValue : option bool;
  defaultValue : option bool
}.

Definition isWorkspaceTrustEnabled (c : TrustConfiguration) : bool :=
  if isWeb c then false
  else default false (match userValue c with
                      | Some v => Some v
                      | None => defaultValue c
                      end).

(** ** WorkspaceTrustState *)

Module WorkspaceTrustState.

Definition _acceptsOutOfWorkspaceFilesKey : string := "acceptsOutOfWorkspaceFiles".
Definition _isTrustedKey : string := "isTrusted".

(** Modelled from the spec: [Memento] is imported from outside the file; it
    keeps the memento object in workspace-scoped storage, written by
    [saveMemento].  The memento object is a JavaScript object whose
    properties hold [boolean | undefined]; a key assigned [undefined] stays
    in the map. *)
Record t := {
  _mementoObject : gmap string (option bool);
  (** what [saveMemento] last wrote to the workspace storage *)
  savedMemento : gmap string (option bool)
}.

(** Property read [obj[key]]. *)
Definition prop (o : gmap string (option bool)) (k : string) : option bool :=
  mjoin (o !! k).

Definition saveMemento (st : t) : t :=
  {| _mementoObject := _mementoObject st; savedMemento := _mementoObject st |}.

Definition get_acceptsOutOfWorkspaceFiles (st : t) : bool :=
  default false (prop (_mementoObject st) _acceptsOutOfWorkspaceFilesKey).

Definition set_acceptsOutOfWorkspaceFiles (value : bool) (st : t) : t :=
  saveMemento
    {| _mementoObject := <[_acceptsOutOfWorkspaceFilesKey := Some value]> (_mementoObject st);
       savedMemento := savedMemento st |}.

Definition get_isTrusted (st : t) : option bool :=
  prop (_mementoObject st) _isTrustedKey.

(** [!value] for a [boolean | undefined]. *)
Definition falsy (value : option bool) : bool := negb (default false value).

Definition set_isTrusted (value : option bool) (st : t) : t :=
  let o1 := <[_isTrustedKey := value]> (_mementoObject st) in
  let o2 := if falsy value
            then <[_acceptsOutOfWorkspaceFilesKey := value]> o1
            else o1 in
  saveMemento {| _mementoObject := o2; savedMemento := savedMemento st |}.

End WorkspaceTrustState.

(** ** Pure policy functions of WorkspaceTrustManagementService *)

Section Policy.
Context {URI : Type} `{ExtUri : IExtUri URI} `{Plat : Platform URI}.

Local Abbreviation Entry := (IWorkspaceTrustUriInfo URI).

(** The three locals of the loop in [getUriTrustInfo]. *)
Record MatchAcc := {
  resultState : bool;
  maxLength : Z;
  resultUri : URI
}.

Definition getUriTrustInfo_step (u : URI) (acc : MatchAcc) (trustInfo : Entry) : MatchAcc :=
  if isEqualOrParent u (uri trustInfo) then
    let len := Z.of_nat (String.length (fsPath (uri trustInfo))) in
    if (len >? maxLength acc)%Z then
      {| resultState := trusted trustInfo; maxLength := len; resultUri := uri trustInfo |}
    else acc
  else acc.

Definition getUriTrustInfo_loop (u : URI) (entries : list Entry) (acc : MatchAcc) : MatchAcc :=
  fold_left (getUriTrustInfo_step u) entries acc.

Definition getUriTrustInfo (uriTrustInfo : list Entry) (u : URI) : Entry :=
  let acc := getUriTrustInfo_loop u uriTrustInfo
               {| resultState := false; maxLength := (-1)%Z; resultUri := u |} in
  {| uri := resultUri acc; trusted := resultState acc |}.

(** The loop of [getUrisTrust] returns at the first untrusted URI. *)
Fixpoint getUrisTrust (uriTrustInfo : list Entry) (uris : list URI) : bool :=
  match uris with
  | [] => true
  | u :: rest =>
      if negb (trusted (getUriTrustInfo uriTrustInfo u)) then false
      else getUrisTrust uriTrustInfo rest
  end.

End Policy.

Arguments getUriTrustInfo : simpl never.

(** ** The state of the two services *)

Inductive PromiseState :=
| Pending
| Settled (value : option bool).

(** What an [async] method hands back when it returns either a plain value
    or a promise it holds: the caller's promise is fulfilled at once, or it
    follows the fate of the promise with that index in the promise table. *)
Inductive Awaitable :=
| FulfilledWith (value : bool)
| Follows (promise : nat).

(** [IWorkspaceTrustTransitionParticipant.participate], run to completion:
    the world it leaves behind, and the rejection reason if it rejects. *)
Abbreviation Participant World Error := (bool -> World -> World * option Error)%type.

Section Services.
Context {URI : Type} `{ExtUri : IExtUri URI} `{Plat : Platform URI}.
(** What transition participants act on, the reasons they reject with, and
    the options a trust request carries. *)
Context {World Error WorkspaceTrustRequestOptions : Type}.

Local Abbreviation Entry := (IWorkspaceTrustUriInfo URI).


(** Effects that leave the services, in the order they happen. *)
Inductive Event :=
| DidChangeTrust (trusted : bool)
| DidChangeTrustedFolders
| DidInitiateWorkspaceTrustRequestOnStartup
| DidInitiateWorkspaceTrustRequest (options : option WorkspaceTrustRequestOptions)
| StorageStore (key value : string)
| Participate (node : nat) (trusted : bool).

(** [environmentService] and [workspaceService], which the services only read. *)
Record Host := {
  configurationService : TrustConfiguration;
  extensionTestsLocationURI : option URI;
  remoteAuthority : option string;
  getWorkbenchState : WorkbenchState;
  getWorkspace : IWorkspace URI
}.

(** Modelled from the spec: the [LinkedList] that
    [WorkspaceTrustTransitionManager] keeps is imported from outside the file;
    the spec describes it as an ordered collection that is gone through in
    registration order and whose [push] hands back the removal of the pushed
    node.  Each node is tagged by the order of its registration. *)
Record TransitionManager := {
  participants : list (nat * Participant World Error);
  nextNode : nat
}.

(** The fields of [WorkspaceTrustRequestService], with the promises it made. *)
Record RequestService := {
  _trusted : bool;
  _ctxWorkspaceTrustState : bool;
  _modalTrustRequestPromise : option nat;
  _modalTrustRequestResolver : option nat;
  promises : list PromiseState
}.

(** Both services together.  [_trustStateInfo] is the list as it is once
    [initializeWorkspaceTrust] has run. *)
Record State := {
  host : Host;
  storage : gmap string string;
  world : World;
  _trustStateInfo : list Entry;
  _remoteAuthority : option ResolverResult;
  _trustState : WorkspaceTrustState.t;
  _trustTransitionManager : TransitionManager;
  requestService : RequestService;
  events : list Event
}.

Definition with_storage (f : gmap string string -> gmap string string) (s : State) : State :=
  {| host := host s; storage := f (storage s); world := world s;
     _trustStateInfo := _trustStateInfo s; _remoteAuthority := _remoteAuthority s;
     _trustState := _trustState s; _trustTransitionManager := _trustTransitionManager s;
     requestService := requestService s; events := events s |}.

Definition with_world (w : World) (s : State) : State :=
  {| host := host s; storage := storage s; world := w;
     _trustStateInfo := _trustStateInfo s; _remoteAuthority := _remoteAuthority s;
     _trustState := _trustState s; _trustTransitionManager := _trustTransitionManager s;
     requestService := requestService s; events := events s |}.

Definition with_trustStateInfo (l : list Entry) (s : State) : State :=
  {| host := host s; storage := storage s; world := world s;
     _trustStateInfo := l; _remoteAuthority := _remoteAuthority s;
     _trustState := _trustState s; _trustTransitionManager := _trustTransitionManager s;
     requestService := requestService s; events := events s |}.

Definition with_remoteAuthority (r : option ResolverResult) (s : State) : State :=
  {| host := host s; storage := storage s; world := world s;
     _trustStateInfo := _trustStateInfo s; _remoteAuthority := r;
     _trustState := _trustState s; _trustTransitionManager := _trustTransitionManager s;
     requestService := requestService s; events := events s |}.

Definition with_trustState (f : WorkspaceTrustState.t -> WorkspaceTrustState.t) (s : State) : State :=
  {| host := host s; storage := storage s; world := world s;
     _trustStateInfo := _trustStateInfo s; _remoteAuthority := _remoteAuthority s;
     _trustState := f (_trustState s); _trustTransitionManager := _trustTransitionManager s;
     requestService := requestService s; events := events s |}.

Definition with_trustTransitionManager (m : TransitionManager) (s : State) : State :=
  {| host := host s; storage := storage s; world := world s;
     _trustStateInfo := _trustStateInfo s; _remoteAuthority := _remoteAuthority s;
     _trustState := _trustState s; _trustTransitionManager := m;
     requestService := requestService s; events := events s |}.

Definition with_requestService (r : RequestService) (s : State) : State :=
  {| host := host s; storage := storage s; world := world s;
     _trustStateInfo := _trustStateInfo s; _remoteAuthority := _remoteAuthority s;
     _trustState := _trustState s; _trustTransitionManager := _trustTransitionManager s;
     requestService := r; events := events s |}.

Definition emit (e : Event) (s : State) : State :=
  {| host := host s; storage := storage s; world := world s;
     _trustStateInfo := _trustStateInfo s; _remoteAuthority := _remoteAuthority s;
     _trustState := _trustState s; _trustTransitionManager := _trustTransitionManager s;
     requestService := requestService s; events := events s ++ [e] |}.

(** ** The monad of asynchronous methods *)

Inductive Outcome (A : Type) :=
| Fulfilled (a : A) (s : State)
| Rejected (e : Error) (s : State).
Arguments Fulfilled {A} _ _.
Arguments Rejected {A} _ _.

Definition Async (A : Type) : Type := State -> Outcome A.

Definition resolve {A} (a : A) : Async A := fun s => Fulfilled a s.

Definition reject {A} (e : Error) : Async A := fun s => Rejected e s.

Definition await {A B} (m : Async A) (k : A -> Async B) : Async B :=
  fun s => match m s with
           | Fulfilled a s' => k a s'
           | Rejected e s' => Rejected e s'
           end.

(** A synchronous statement that only changes the state. *)
Definition exec (f : State -> State) : Async unit := fun s => Fulfilled tt (f s).

(** A synchronous expression that only reads the state. *)
Definition read {A} (f : State -> A) : Async A := fun s => Fulfilled (f s) s.

Definition final_state {A} (o : Outcome A) : State :=
  match o with
  | Fulfilled _ s => s
  | Rejected _ s => s
  end.

Definition is_rejected {A} (o : Outcome A) : bool :=
  match o with
  | Fulfilled _ _ => false
  | Rejected _ _ => true
  end.

End Services.

Arguments Fulfilled {URI World Error WorkspaceTrustRequestOptions A} _ _.
Arguments Rejected {URI World Error WorkspaceTrustRequestOptions A} _ _.

Declare Scope async_scope.
Delimit Scope async_scope with async.
Notation "'let*' x ':=' m 'in' k" := (await m (fun x => k))
  (at level 10, x name, m at level 100, k at level 200, only parsing) : async_scope.
Notation "m ';;;' k" := (await m (fun _ => k))
  (at level 100, k at level 200, right associativity, only parsing) : async_scope.

(** ** WorkspaceTrustTransitionManager *)

Section TransitionManagerMethods.
Context {URI : Type} `{ExtUri : IExtUri URI} `{Plat : Platform URI}.
Context {World Error WorkspaceTrustRequestOptions : Type}.

Local Abbreviation State := (@State URI World Error WorkspaceTrustRequestOptions).
Local Abbreviation Async := (@Async URI World Error WorkspaceTrustRequestOptions).
Local Abbreviation Callback := (Participant World Error).
Local Open Scope async_scope.

(** [participants.push(participant)]; the result names the node, which is
    all the returned disposable needs to remove it. *)
Definition addWorkspaceTrustTransitionParticipant (participant : Callback) (s : State)
  : nat * State :=
  let m := _trustTransitionManager s in
  (nextNode m,
   with_trustTransitionManager
     {| participants := participants m ++ [(nextNode m, participant)];
        nextNode := S (nextNode m) |} s).

(** Disposing of what [addWorkspaceTrustTransitionParticipant] returned. *)
Definition removeParticipant (node : nat) (s : State) : State :=
  let m := _trustTransitionManager s in
  with_trustTransitionManager
    {| participants := List.filter (fun p => negb (Nat.eqb (fst p) node)) (participants m);
       nextNode := nextNode m |} s.

(** [await participant.participate(trusted)] for one node of the list. *)
Definition participateOne (trusted : bool) (p : nat * Callback) : Async unit :=
  fun s =>
    let started := emit (Participate (fst p) trusted) s in
    let (w, failure) := snd p trusted (world started) in
    match failure with
    | None => Fulfilled tt (with_world w started)
    | Some e => Rejected e (with_world w started)
    end.

(** The [for ... of] loop of [participate]. *)
Fixpoint participate_loop (ps : list (nat * Callback)) (trusted : bool) : Async unit :=
  match ps with
  | [] => resolve tt
  | p :: rest => participateOne trusted p ;;; participate_loop rest trusted
  end.

Definition participate (trusted : bool) : Async unit :=
  fun s => participate_loop (participants (_trustTransitionManager s)) trusted s.


End TransitionManagerMethods.

(** ** WorkspaceTrustManagementService *)

Section ManagementService.
Context {URI : Type} `{ExtUri : IExtUri URI} `{Plat : Platform URI}.
Context {World Error WorkspaceTrustRequestOptions : Type}.

Local Abbreviation Entry := (IWorkspaceTrustUriInfo URI).
Local Abbreviation State := (@State URI World Error WorkspaceTrustRequestOptions).
Local Abbreviation Async := (@Async URI World Error WorkspaceTrustRequestOptions).
Local Open Scope async_scope.

(** The listener that [WorkspaceTrustRequestService] registers on
    [onDidChangeTrust]: its [trusted] setter. *)
Definition set_trusted (trusted : bool) (s : State) : State :=
  let r := requestService s in
  with_requestService
    {| _trusted := trusted; _ctxWorkspaceTrustState := trusted;
       _modalTrustRequestPromise := _modalTrustRequestPromise r;
       _modalTrustRequestResolver := _modalTrustRequestResolver r;
       promises := promises r |} s.

(** [_onDidChangeTrust.fire(trusted)]: the event leaves, and the request
    service's listener runs. *)
Definition fire_onDidChangeTrust (trusted : bool) (s : State) : State :=
  set_trusted trusted (emit (DidChangeTrust trusted) s).

Definition loadTrustInfo (s : State) : list Entry :=
  let infoAsString := storage s !! WORKSPACE_TRUST_STORAGE_KEY in
  let result :=
    if truthy_string infoAsString then
      match JSON_parse (default EmptyString infoAsString) with
      | JsonThrows => None
      | JsonFalsy => None
      | JsonObject o => Some o
      end
    else None in
  let uriTrustInfo :=
    match result with
    | None => []
    | Some None => []
    | Some (Some l) => l
    end in
  let revived := map (fun info => {| uri := URI_revive (fst info); trusted := snd info |}) uriTrustInfo in
  List.filter (fun info => trusted info) revived.

Definition getCanonicalUri (s : State) (u : URI) : URI :=
  if truthy_string (remoteAuthority (host s)) && bool_decide (is_Some (_remoteAuthority s))
  then remote_getCanonicalURI u
  else u.

Definition getWorkspaceUris (s : State) : list URI :=
  let workspaceFolders := map (getCanonicalUri s) (folders (getWorkspace (host s))) in
  match configuration (getWorkspace (host s)) with
  | Some workspaceConfiguration =>
      if negb (isUntitledWorkspace workspaceConfiguration)
      then workspaceFolders ++ [getCanonicalUri s workspaceConfiguration]
      else workspaceFolders
  | None => workspaceFolders
  end.

(** [this._remoteAuthority?.options?.isTrusted]. *)
Definition remoteAuthority_isTrusted (s : State) : option bool :=
  r ← _remoteAuthority s; o ← options r; isTrusted o.

Definition calculateWorkspaceTrust (s : State) : bool :=
  if negb (isWorkspaceTrustEnabled (configurationService (host s))) then true
  else if bool_decide (is_Some (extensionTestsLocationURI (host s))) then true
  else if truthy_string (remoteAuthority (host s)) then
    default false (remoteAuthority_isTrusted s)
  else if WorkbenchState_eqb (getWorkbenchState (host s)) EMPTY then
    default false (WorkspaceTrustState.get_isTrusted (_trustState s))
  else
    getUrisTrust (_trustStateInfo s) (getWorkspaceUris s).

Definition isWorkpaceTrusted (s : State) : bool :=
  default false (WorkspaceTrustState.get_isTrusted (_trustState s)).

Definition updateWorkspaceTrust (trusted : option bool) : Async unit :=
  let* trusted := read (fun s => match trusted with
                                 | None => calculateWorkspaceTrust s
                                 | Some t => t
                                 end) in
  let* current := read isWorkpaceTrusted in
  if Bool.eqb current trusted then resolve tt
  else
    exec (with_trustState (WorkspaceTrustState.set_isTrusted (Some trusted))) ;;;
    participate trusted ;;;
    exec (fire_onDidChangeTrust trusted).

Definition saveTrustInfo : Async unit :=
  exec (fun s =>
          let value := JSON_stringify (_trustStateInfo s) in
          emit (StorageStore WORKSPACE_TRUST_STORAGE_KEY value)
            (with_storage (insert WORKSPACE_TRUST_STORAGE_KEY value) s)) ;;;
  exec (emit DidChangeTrustedFolders) ;;;
  updateWorkspaceTrust None.

Definition get_acceptsOutOfWorkspaceFiles (s : State) : bool :=
  WorkspaceTrustState.get_acceptsOutOfWorkspaceFiles (_trustState s).

Definition set_acceptsOutOfWorkspaceFiles (value : bool) (s : State) : State :=
  with_trustState (WorkspaceTrustState.set_acceptsOutOfWorkspaceFiles value) s.

(** One iteration of the loop of [setUrisTrust], on the list and the
    [changed] flag. *)
Definition setUrisTrust_step (trusted : bool) (acc : list Entry * bool) (u : URI)
  : list Entry * bool :=
  let (uriTrustInfo, changed) := acc in
  if trusted then
    let foundItem := List.find (fun trustInfo => isEqual (uri trustInfo) u) uriTrustInfo in
    if bool_decide (is_Some foundItem) then (uriTrustInfo, changed)
    else (uriTrustInfo ++ [{| uri := u; trusted := true |}], true)
  else
    let previousLength := length uriTrustInfo in
    let filtered := List.filter (fun trustInfo => negb (isEqual (uri trustInfo) u)) uriTrustInfo in
    if negb (Nat.eqb previousLength (length filtered)) then (filtered, true)
    else (filtered, changed).

Definition setUrisTrust_loop (uris : list URI) (trusted : bool) (uriTrustInfo : list Entry)
  : list Entry * bool :=
  fold_left (setUrisTrust_step trusted) uris (uriTrustInfo, false).

Definition setUrisTrust (uris : list URI) (trusted : bool) : Async unit :=
  let* changed := (fun s =>
                     let (l, changed) := setUrisTrust_loop uris trusted (_trustStateInfo s) in
                     Fulfilled changed (with_trustStateInfo l s)) in
  if (changed : bool) then saveTrustInfo else resolve tt.

Definition canSetParentFolderTrust (s : State) : bool :=
  match toWorkspaceIdentifier (getWorkspace (host s)) with
  | SingleFolderWorkspaceIdentifier folderUri => String.eqb (scheme folderUri) Schemas_file
  | _ => false
  end.

Definition canSetWorkspaceTrust (s : State) : bool :=
  if truthy_string (remoteAuthority (host s))
     && (negb (bool_decide (is_Some (_remoteAuthority s)))
         || bool_decide (is_Some (remoteAuthority_isTrusted s)))
  then false
  else if WorkbenchState_eqb (getWorkbenchState (host s)) EMPTY then true
  else if negb (isWorkpaceTrusted s) then true
  else
    match toWorkspaceIdentifier (getWorkspace (host s)) with
    | SingleFolderWorkspaceIdentifier folderUri =>
        if negb (String.eqb (scheme folderUri) Schemas_file) then false
        else
          let trustInfo := getUriTrustInfo (_trustStateInfo s) folderUri in
          if negb (trusted trustInfo) || negb (isEqual folderUri (uri trustInfo)) then false
          else if canSetParentFolderTrust s
                  && trusted (getUriTrustInfo (_trustStateInfo s)
                                (URI_file (splitName_parentPath (fsPath folderUri))))
          then false
          else true
    | _ => false
    end.

Definition initializeWorkspaceTrust (s : State) : State :=
  let s1 := with_trustStateInfo (loadTrustInfo s) s in
  with_trustState (WorkspaceTrustState.set_isTrusted (Some (calculateWorkspaceTrust s1))) s1.

Definition setParentFolderTrust (trusted : bool) : Async unit :=
  let* workspaceIdentifier := read (fun s => toWorkspaceIdentifier (getWorkspace (host s))) in
  match workspaceIdentifier with
  | SingleFolderWorkspaceIdentifier folderUri =>
      if String.eqb (scheme folderUri) Schemas_file
      then setUrisTrust [URI_file (splitName_parentPath (fsPath folderUri))] trusted
      else resolve tt
  | _ => resolve tt
  end.

Definition setWorkspaceTrust (trusted : bool) : Async unit :=
  let* state := read (fun s => getWorkbenchState (host s)) in
  if WorkbenchState_eqb state EMPTY then updateWorkspaceTrust (Some trusted)
  else
    let* workspaceFolders := read getWorkspaceUris in
    setUrisTrust workspaceFolders trusted.

Definition getTrustedFolders (s : State) : list URI :=
  map uri (_trustStateInfo s).

(** One iteration of the outer loop of [setTrustedFolders]. *)
Definition setTrustedFolders_step (uriTrustInfo : list Entry) (u : URI) : list Entry :=
  let cleanUri := removeTrailingPathSeparator u in
  let added := existsb (fun addedUri => isEqual (uri addedUri) cleanUri) uriTrustInfo in
  if added then uriTrustInfo
  else uriTrustInfo ++ [{| uri := cleanUri; trusted := true |}].

Definition setTrustedFolders (uris : list URI) : Async unit :=
  exec (with_trustStateInfo (fold_left setTrustedFolders_step uris [])) ;;;
  saveTrustInfo.

(** The listener on [storageService.onDidChangeValue]. *)
Definition onDidChangeValue (key : string) : Async unit :=
  let* differs := read (fun s =>
                          String.eqb key WORKSPACE_TRUST_STORAGE_KEY
                          && negb (String.eqb (JSON_stringify (_trustStateInfo s))
                                              (JSON_stringify (loadTrustInfo s)))) in
  if (differs : bool) then
    exec (fun s => with_trustStateInfo (loadTrustInfo s) s) ;;;
    exec (emit DidChangeTrustedFolders) ;;;
    updateWorkspaceTrust None
  else resolve tt.

(** The continuation of [resolveAuthority] in the constructor. *)
Definition onRemoteAuthorityResolved (result : ResolverResult) : Async unit :=
  exec (with_remoteAuthority (Some result)) ;;;
  updateWorkspaceTrust None ;;;
  exec (emit DidInitiateWorkspaceTrustRequestOnStartup).

End ManagementService.

(** ** WorkspaceTrustRequestService *)

Section RequestServiceMethods.
Context {URI : Type} `{ExtUri : IExtUri URI} `{Plat : Platform URI}.
Context {World Error WorkspaceTrustRequestOptions : Type}.

Local Abbreviation State := (@State URI World Error WorkspaceTrustRequestOptions).
Local Abbreviation Async := (@Async URI World Error WorkspaceTrustRequestOptions).
Local Open Scope async_scope.

(** The constructor's [this.trusted = ...isWorkpaceTrusted()]. *)
Definition WorkspaceTrustRequestService_constructor (s : State) : State :=
  set_trusted (isWorkpaceTrusted s) s.

(** Calling the [resolve] function of promise [p]: a promise settles once. *)
Definition settle (p : nat) (value : option bool) (ps : list PromiseState) : list PromiseState :=
  match ps !! p with
  | Some Pending => <[p := Settled value]> ps
  | _ => ps
  end.

(** The common tail of [resolveRequest] and [cancelRequest]: call the
    resolver, then forget resolver and promise. *)
Definition resolveWith (p : nat) (value : option bool) (s : State) : State :=
  let r := requestService s in
  with_requestService
    {| _trusted := _trusted r; _ctxWorkspaceTrustState := _ctxWorkspaceTrustState r;
       _modalTrustRequestPromise := None;
       _modalTrustRequestResolver := None;
       promises := settle p value (promises r) |} s.

Definition resolveRequest (trusted : option bool) (s : State) : State :=
  match _modalTrustRequestResolver (requestService s) with
  | Some p => resolveWith p (Some (default (_trusted (requestService s)) trusted)) s
  | None => s
  end.

Definition cancelRequest (s : State) : State :=
  match _modalTrustRequestResolver (requestService s) with
  | Some p => resolveWith p None s
  | None => s
  end.

Definition completeRequest (trusted : option bool) : Async unit :=
  let* current := read (fun s => _trusted (requestService s)) in
  match trusted with
  | None => exec (resolveRequest None)
  | Some t =>
      if Bool.eqb t current then exec (resolveRequest (Some t))
      else setWorkspaceTrust t ;;; exec (resolveRequest (Some t))
  end.

Definition requestWorkspaceTrust (options : option WorkspaceTrustRequestOptions)
  : Async Awaitable :=
  fun s =>
    let r := requestService s in
    if _trusted r then Fulfilled (FulfilledWith (_trusted r)) s
    else
      match _modalTrustRequestPromise r with
      | None =>
          let p := length (promises r) in
          let created :=
            with_requestService
              {| _trusted := _trusted r; _ctxWorkspaceTrustState := _ctxWorkspaceTrustState r;
                 _modalTrustRequestPromise := Some p;
                 _modalTrustRequestResolver := Some p;
                 promises := promises r ++ [Pending] |} s in
          Fulfilled (Follows p) (emit (DidInitiateWorkspaceTrustRequest options) created)
      | Some p => Fulfilled (Follows p) s
      end.

(** What a caller that awaits the result of [requestWorkspaceTrust] has
    received in state [s]: nothing yet, or the value of the settled promise. *)
Definition received (a : Awaitable) (s : State) : option (option bool) :=
  match a with
  | FulfilledWith v => Some (Some v)
  | Follows p =>
      match promises (requestService s) !! p with
      | Some (Settled v) => Some v
      | _ => None
      end
  end.

End RequestServiceMethods.

(** ** The operations that reach the services from outside *)

Section Operations.
Context {URI : Type} `{ExtUri : IExtUri URI} `{Plat : Platform URI}.
Context {World Error WorkspaceTrustRequestOptions : Type}.

Local Abbreviation State := (@State URI World Error WorkspaceTrustRequestOptions).

(** The public methods of both services, and the listeners through which
    the host reaches [updateWorkspaceTrust] and [loadTrustInfo]. *)
Inductive Operation :=
| InitializeWorkspaceTrust
| DidChangeWorkspace (kind : WorkbenchState) (workspace : IWorkspace URI)
| DidChangeStorageValue (key : string) (external : option string)
| RemoteAuthorityResolved (result : ResolverResult)
| SetUrisTrust (uris : list URI) (trusted : bool)
| SetParentFolderTrust (trusted : bool)
| SetWorkspaceTrust (trusted : bool)
| SetTrustedFolders (uris : list URI)
| SetAcceptsOutOfWorkspaceFiles (value : bool)
| AddWorkspaceTrustTransitionParticipant (participant : Participant World Error)
| DisposeParticipant (node : nat)
| RequestWorkspaceTrust (options : option WorkspaceTrustRequestOptions)
| CompleteRequest (trusted : option bool)
| CancelRequest.

(** The workspace service changed folders or workbench state, before its
    listeners run. *)
Definition with_workspace (kind : WorkbenchState) (workspace : IWorkspace URI) (s : State) : State :=
  {| host := {| configurationService := configurationService (host s);
                extensionTestsLocationURI := extensionTestsLocationURI (host s);
                remoteAuthority := remoteAuthority (host s);
                getWorkbenchState := kind;
                getWorkspace := workspace |};
     storage := storage s; world := world s;
     _trustStateInfo := _trustStateInfo s; _remoteAuthority := _remoteAuthority s;
     _trustState := _trustState s; _trustTransitionManager := _trustTransitionManager s;
     requestService := requestService s; events := events s |}.

(** Another window wrote (or removed) the value under [key]. *)
Definition externalWrite (key : string) (value : option string) (s : State) : State :=
  with_storage (fun m => match value with
                         | Some v => <[key := v]> m
                         | None => delete key m
                         end) s.

(** The state an operation leaves, whether its promise fulfils or rejects. *)
Definition run (op : Operation) (s : State) : State :=
  match op with
  | InitializeWorkspaceTrust => initializeWorkspaceTrust s
  | DidChangeWorkspace kind workspace =>
      final_state (updateWorkspaceTrust None (with_workspace kind workspace s))
  | DidChangeStorageValue key value =>
      final_state (onDidChangeValue key (externalWrite key value s))
  | RemoteAuthorityResolved result => final_state (onRemoteAuthorityResolved result s)
  | SetUrisTrust uris trusted => final_state (setUrisTrust uris trusted s)
  | SetParentFolderTrust trusted => final_state (setParentFolderTrust trusted s)
  | SetWorkspaceTrust trusted => final_state (setWorkspaceTrust trusted s)
  | SetTrustedFolders uris => final_state (setTrustedFolders uris s)
  | SetAcceptsOutOfWorkspaceFiles value => set_acceptsOutOfWorkspaceFiles value s
  | AddWorkspaceTrustTransitionParticipant participant =>
      snd (addWorkspaceTrustTransitionParticipant participant s)
  | DisposeParticipant node => removeParticipant node s
  | RequestWorkspaceTrust options => final_state (requestWorkspaceTrust options s)
  | CompleteRequest trusted => final_state (completeRequest trusted s)
  | CancelRequest => cancelRequest s
  end.

End Operations.

(** ** Vocabulary of the properties *)

Section Vocabulary.
Context {URI : Type} `{ExtUri : IExtUri URI} `{Plat : Platform URI}.
Context {World Error WorkspaceTrustRequestOptions : Type}.

(** The length that [getUriTrustInfo] compares: [trustInfo.uri.fsPath.length]. *)
Definition pathLength (e : IWorkspaceTrustUriInfo URI) : Z :=
  Z.of_nat (String.length (fsPath (uri e))).

(** The elementary state changes of a trust transition: an event leaves,
    a participant acts on the world, the memento takes a new [isTrusted],
    the request service mirrors it. *)
Inductive trust_step : relation (@State URI World Error WorkspaceTrustRequestOptions) :=
| step_participate node trusted s : trust_step s (emit (Participate node trusted) s)
| step_fire trusted s : trust_step s (emit (DidChangeTrust trusted) s)
| step_world w s : trust_step s (with_world w s)
| step_isTrusted trusted s :
    trust_step s (with_trustState (WorkspaceTrustState.set_isTrusted (Some trusted)) s)
| step_mirror trusted s : trust_step s (set_trusted trusted s).

(** Participants that fulfil one after the other: each is called on the
    world its predecessor left. *)
Inductive fulfil_in_turn (trusted : bool)
  : list (nat * Participant World Error) -> World -> World -> Prop :=
| fulfil_nil w : fulfil_in_turn trusted [] w w
| fulfil_cons p rest w w1 w2 :
    snd p trusted w = (w1, None) ->
    fulfil_in_turn trusted rest w1 w2 ->
    fulfil_in_turn trusted (p :: rest) w w2.

(** The calls a list of participants leaves in the event log. *)
Definition participations (trusted : bool) (ps : list (nat * Participant World Error))
  : list (@Event WorkspaceTrustRequestOptions) :=
  map (fun p => Participate (fst p) trusted) ps.

(** The state after the participants [ps] were called in turn and left the
    world [w]: nothing else moved. *)
Definition participated (trusted : bool) (ps : list (nat * Participant World Error))
    (w : World) (s : @State URI World Error WorkspaceTrustRequestOptions)
  : @State URI World Error WorkspaceTrustRequestOptions :=
  {| host := host s; storage := storage s; world := w;
     _trustStateInfo := _trustStateInfo s; _remoteAuthority := _remoteAuthority s;
     _trustState := _trustState s; _trustTransitionManager := _trustTransitionManager s;
     requestService := requestService s;
     events := events s ++ participations trusted ps |}.

(** The state right after [saveTrustInfo] wrote the trusted folders and
    announced them, before it recomputes the workspace trust. *)
Definition stored (s : @State URI World Error WorkspaceTrustRequestOptions)
  : @State URI World Error WorkspaceTrustRequestOptions :=
  emit DidChangeTrustedFolders
    (emit (StorageStore WORKSPACE_TRUST_STORAGE_KEY (JSON_stringify (_trustStateInfo s)))
       (with_storage (insert WORKSPACE_TRUST_STORAGE_KEY (JSON_stringify (_trustStateInfo s))) s)).

(** The value [updateWorkspaceTrust] moves to: the explicit argument, or
    what [calculateWorkspaceTrust] says. *)
Definition targetTrust (arg : option bool) (s : @State URI World Error WorkspaceTrustRequestOptions)
  : bool :=
  match arg with
  | Some t => t
  | None => calculateWorkspaceTrust s
  end.

(** Every elementary state change the two services make: those of a trust
    transition, changes outside the trust data, and the three ways the list
    of trusted folders is replaced. *)
Inductive service_step : relation (@State URI World Error WorkspaceTrustRequestOptions) :=
| step_trust s s' : trust_step s s' -> service_step s s'
| step_emit e s : service_step s (emit e s)
| step_storage f s : service_step s (with_storage f s)
| step_workspace kind workspace s : service_step s (with_workspace kind workspace s)
| step_remote r s : service_step s (with_remoteAuthority r s)
| step_manager m s : service_step s (with_trustTransitionManager m s)
| step_ask s :
    _modalTrustRequestPromise (requestService s) = None ->
    service_step s
      (with_requestService
         {| _trusted := _trusted (requestService s);
            _ctxWorkspaceTrustState := _ctxWorkspaceTrustState (requestService s);
            _modalTrustRequestPromise := Some (length (promises (requestService s)));
            _modalTrustRequestResolver := Some (length (promises (requestService s)));
            promises := promises (requestService s) ++ [Pending] |} s)
| step_settle p value s : service_step s (resolveWith p value s)
| step_load (s0 : @State URI World Error WorkspaceTrustRequestOptions) s :
    service_step s (with_trustStateInfo (loadTrustInfo s0) s)
| step_setUris uris trusted s :
    service_step s
      (with_trustStateInfo (fst (setUrisTrust_loop uris trusted (_trustStateInfo s))) s)
| step_setFolders uris s :
    service_step s (with_trustStateInfo (fold_left setTrustedFolders_step uris []) s).

(** Between two states the memento was not touched, or the later state
    accepts no out-of-workspace files if it is untrusted. *)
Definition kept_or_reset (s s' : @State URI World Error WorkspaceTrustRequestOptions) : Prop :=
  _trustState s' = _trustState s
  \/ (isWorkpaceTrusted s' = false -> get_acceptsOutOfWorkspaceFiles s' = false).

Definition all_trusted (l : list (IWorkspaceTrustUriInfo URI)) : Prop :=
  Forall (fun e => trusted e = true) l.

(** The URIs the trust of a folder or multi-root workspace depends on: each
    canonical root, and the canonical workspace file unless it is untitled. *)
Definition is_workspace_uri (s : @State URI World Error WorkspaceTrustRequestOptions) (u : URI)
  : Prop :=
  (exists folder, In folder (folders (getWorkspace (host s))) /\ u = getCanonicalUri s folder)
  \/ (exists workspaceFile,
         configuration (getWorkspace (host s)) = Some workspaceFile
         /\ isUntitledWorkspace workspaceFile = false
         /\ u = getCanonicalUri s workspaceFile).

(** The first test of [canSetWorkspaceTrust]: a remote authority is
    configured, and it is not resolved yet or says itself whether it is
    trusted. *)
Definition remote_decides (s : @State URI World Error WorkspaceTrustRequestOptions) : Prop :=
  truthy_string (remoteAuthority (host s)) = true
  /\ (_remoteAuthority s = None \/ is_Some (remoteAuthority_isTrusted s)).

Definition is_DidChangeTrust (e : @Event WorkspaceTrustRequestOptions) : bool :=
  match e with
  | DidChangeTrust _ => true
  | _ => false
  end.

(** The request service holds resolver and promise together, and the
    promise it holds is still pending. *)
Definition request_pending (s : @State URI World Error WorkspaceTrustRequestOptions) (p : nat) : Prop :=
  _modalTrustRequestPromise (requestService s) = Some p
  /\ _modalTrustRequestResolver (requestService s) = Some p
  /\ promises (requestService s) !! p = Some Pending.

Definition request_idle (s : @State URI World Error WorkspaceTrustRequestOptions) : Prop :=
  _modalTrustRequestPromise (requestService s) = None
  /\ _modalTrustRequestResolver (requestService s) = None.

(** The two shapes the request service is ever in. *)
Definition request_wf (s : @State URI World Error WorkspaceTrustRequestOptions) : Prop :=
  request_idle s \/ exists p, request_pending s p.

End Vocabulary.

(** ** A concrete platform to run the services on

    The URI primitives, the workspace accessor and the storage encoding are
    collaborators whose code is outside the service; this instance gives
    them a POSIX reading with case-sensitive paths, which is what the
    examples evaluate on. *)

Module Posix.

Record Uri := {
  uri_scheme : string;
  uri_path : string
}.

Definition file (path : string) : Uri := {| uri_scheme := "file"; uri_path := path |}.

Definition uri_eqb (a b : Uri) : bool :=
  String.eqb (uri_scheme a) (uri_scheme b) && String.eqb (uri_path a) (uri_path b).

Definition slash : ascii := "/"%char.

Fixpoint ends_with_slash (s : string) : bool :=
  match s with
  | EmptyString => false
  | String c EmptyString => Ascii.eqb c slash
  | String _ rest => ends_with_slash rest
  end.

(** [extpath.isEqualOrParent(base, parentCandidate)], case-sensitive. *)
Definition path_isEqualOrParent (base parentCandidate : string) : bool :=
  if String.eqb base parentCandidate then true
  else if String.eqb base "" || String.eqb parentCandidate "" then false
  else if Nat.ltb (String.length base) (String.length parentCandidate) then false
  else
    let candidate := if ends_with_slash parentCandidate then parentCandidate
                     else String.append parentCandidate "/" in
    String.prefix candidate base.

Definition uri_isEqualOrParent (base parentCandidate : Uri) : bool :=
  String.eqb (uri_scheme base) (uri_scheme parentCandidate)
  && path_isEqualOrParent (uri_path base) (uri_path parentCandidate).

Fixpoint drop_last (s : string) : string :=
  match s with
  | EmptyString => EmptyString
  | String _ EmptyString => EmptyString
  | String c rest => String c (drop_last rest)
  end.

Definition uri_removeTrailingPathSeparator (u : Uri) : Uri :=
  if ends_with_slash (uri_path u) && Nat.ltb 1 (String.length (uri_path u))
  then {| uri_scheme := uri_scheme u; uri_path := drop_last (uri_path u) |}
  else u.

(** [posix.dirname] on an absolute path without a trailing separator:
    everything before the last separator, and the root for a top folder. *)
Fixpoint dirname_aux (s : string) : option string :=
  match s with
  | EmptyString => None
  | String c rest =>
      match dirname_aux rest with
      | Some d => Some (String c d)
      | None => if Ascii.eqb c slash then Some EmptyString else None
      end
  end.

Definition dirname (path : string) : string :=
  match dirname_aux path with
  | Some EmptyString => "/"
  | Some d => d
  | None => "."
  end.

Definition untitledWorkspacesHome : Uri := file "/home/user/.config/Code/Workspaces".

Definition workspaceIdentifier (w : IWorkspace Uri) : WorkspaceIdentifier Uri :=
  match configuration w with
  | Some c => MultiRootWorkspaceIdentifier c
  | None =>
      match folders w with
      | [folder] => SingleFolderWorkspaceIdentifier folder
      | _ => NoWorkspaceIdentifier
      end
  end.

(** A line-oriented stand-in for the JSON text of the trusted folders:
    one [scheme:path;flag] line per entry. *)
Definition newline : ascii := Ascii.ascii_of_nat 10.

Definition print_entry (e : IWorkspaceTrustUriInfo Uri) : string :=
  String.append (uri_scheme (uri e))
    (String ":"%char
       (String.append (uri_path (uri e))
          (String ";"%char (String (if trusted e then "1" else "0")%char
                              (String newline EmptyString))))).

Definition stringify (l : list (IWorkspaceTrustUriInfo Uri)) : string :=
  String.concat "" (map print_entry l).

Fixpoint split_at (c : ascii) (s : string) : option (string * string) :=
  match s with
  | EmptyString => None
  | String a rest =>
      if Ascii.eqb a c then Some (EmptyString, rest)
      else match split_at c rest with
           | Some (x, y) => Some (String a x, y)
           | None => None
           end
  end.

Definition parse_flag (s : string) : option bool :=
  if String.eqb s "1" then Some true
  else if String.eqb s "0" then Some false
  else None.

Fixpoint parse_entries (fuel : nat) (s : string) : option (list (Uri * bool)) :=
  match fuel with
  | O => if String.eqb s "" then Some [] else None
  | S n =>
      if String.eqb s "" then Some []
      else
        '(line, rest) ← split_at newline s;
        '(sch, body) ← split_at ":"%char line;
        '(path, flag) ← split_at ";"%char body;
        b ← parse_flag flag;
        others ← parse_entries n rest;
        Some (({| uri_scheme := sch; uri_path := path |}, b) :: others)
  end.

Definition parse (s : string) : JsonParseResult Uri :=
  match parse_entries (String.length s) s with
  | Some l => JsonObject (Some l)
  | None => JsonThrows
  end.

(** Modelled from the spec: the URI equality and parent-path utilities,
    "consumed as given primitives (equal, isEqualOrParent)". *)
#[export] Instance extUri : IExtUri Uri := {|
  isEqual := uri_eqb;
  isEqualOrParent := uri_isEqualOrParent;
  removeTrailingPathSeparator := uri_removeTrailingPathSeparator
|}.

(** Modelled from the spec: the workspace accessor, the remote resolver's
    canonical URI and the encoding of the stored blob, all external
    collaborators of the services. *)
#[export] Instance platform : Platform Uri := {|
  UriComponents := Uri;
  URI_revive := fun c => c;
  URI_file := file;
  fsPath := uri_path;
  scheme := uri_scheme;
  splitName_parentPath := dirname;
  toWorkspaceIdentifier := workspaceIdentifier;
  isUntitledWorkspace := fun c => uri_isEqualOrParent c untitledWorkspacesHome;
  remote_getCanonicalURI := fun u => u;
  JSON_stringify := stringify;
  JSON_parse := parse
|}.

(** Participants of the examples act on a log of what they did and reject
    with a message. *)
Definition World : Type := list string.
Definition Error : Type := string.
Definition Options : Type := string.

Definition State : Type := @State Uri World Error Options.

Definition desktop : TrustConfiguration :=
  {| isWeb := false; userValue := None; defaultValue := Some true |}.

Definition emptyTrustState : WorkspaceTrustState.t :=
  {| WorkspaceTrustState._mementoObject := ∅; WorkspaceTrustState.savedMemento := ∅ |}.

Definition idleRequestService : RequestService :=
  {| _trusted := false; _ctxWorkspaceTrustState := false;
     _modalTrustRequestPromise := None; _modalTrustRequestResolver := None;
     promises := [] |}.

(** A local window on [workspace], before anything happened. *)
Definition start (kind : WorkbenchState) (workspace : IWorkspace Uri)
    (trustedFolders : list (IWorkspaceTrustUriInfo Uri)) : State :=
  {| host := {| configurationService := desktop;
                extensionTestsLocationURI := None;
                remoteAuthority := None;
                getWorkbenchState := kind;
                getWorkspace := workspace |};
     storage := ∅;
     world := [];
     _trustStateInfo := trustedFolders;
     _remoteAuthority := None;
     _trustState := emptyTrustState;
     _trustTransitionManager := {| participants := []; nextNode := 0 |};
     requestService := idleRequestService;
     events := [] |}.

Definition a : Uri := file "/a".
Definition ab : Uri := file "/a/b".
Definition abc : Uri := file "/a/b/c".
Definition proj : Uri := file "/proj".

Definition trustedEntry (u : Uri) : IWorkspaceTrustUriInfo Uri :=
  {| uri := u; trusted := true |}.

(** An empty window. *)
Definition emptyWindow : State :=
  start EMPTY {| folders := []; configuration := None |} [].

(** The folder [/proj], with [/proj] among the trusted folders. *)
Definition projFolder : State :=
  start FOLDER {| folders := [proj]; configuration := None |} [trustedEntry proj].

(** The same window once its trust was computed. *)
Definition trustedProjFolder : State := initializeWorkspaceTrust
  (with_storage (insert WORKSPACE_TRUST_STORAGE_KEY (stringify [trustedEntry proj])) projFolder).

(** The folder [/a/b/c], with only [/a] trusted. *)
Definition onlyA : State :=
  start FOLDER {| folders := [abc]; configuration := None |} [trustedEntry a].

(** A trusted empty window whose user accepted out-of-workspace files. *)
Definition acceptingWindow : State :=
  set_acceptsOutOfWorkspaceFiles true
    (with_trustState (WorkspaceTrustState.set_isTrusted (Some true)) emptyWindow).

(** Two participants: the first rejects, the second would fulfil. *)
Definition thrower : Participant World Error :=
  fun _ w => (w ++ ["first"], Some "boom").
Definition logger : Participant World Error :=
  fun _ w => (w ++ ["second"], None).

Definition twoParticipants : State :=
  snd (addWorkspaceTrustTransitionParticipant logger
         (snd (addWorkspaceTrustTransitionParticipant thrower emptyWindow))).

(** An empty window in which the trust dialog is open. *)
Definition asking : State :=
  final_state (requestWorkspaceTrust None emptyWindow).

End Posix.

(** ** WorkspaceTrustRequestService.requestOpenUris *)

Inductive WorkspaceTrustUriResponse := Open | OpenInNewWindow | Cancel.

(** The values of the setting [security.workspace.trust.untrustedFiles]. *)
Inductive UntrustedFilesSetting := prompt | open | newWindow.

Definition UntrustedFilesSetting_eqb (a b : UntrustedFilesSetting) : bool :=
  match a, b with
  | prompt, prompt | open, open | newWindow, newWindow => true
  | _, _ => false
  end.

(** Modelled from the spec: the dialog is an external collaborator,
    consumed as an oracle; this is what [dialogService.show] resolves to, the
    index of the chosen button and the state of the checkbox. *)
Record IShowResult := {
  choice : nat;
  checkboxChecked : option bool
}.

Section OpenUris.
Context {URI : Type} `{ExtUri : IExtUri URI} `{Plat : Platform URI}.
Context {World Error WorkspaceTrustRequestOptions : Type}.

(** Modelled from the spec: the configuration service is outside the file;
    a remembered decision is read back by later calls, so [getValue] returns
    what [updateValue] wrote last.  The record holds the two services and the
    one setting that [requestOpenUris] reads and writes through it. *)
Record Workbench := {
  services : @State URI World Error WorkspaceTrustRequestOptions;
  untrustedFilesSetting : UntrustedFilesSetting
}.

Definition with_services (s : @State URI World Error WorkspaceTrustRequestOptions)
    (w : Workbench) : Workbench :=
  {| services := s; untrustedFilesSetting := untrustedFilesSetting w |}.

Definition set_untrustedFilesSetting (value : UntrustedFilesSetting) (w : Workbench) : Workbench :=
  {| services := services w; untrustedFilesSetting := value |}.

(** How a call of [requestOpenUris] ends: it returned without asking, or it
    showed the dialog (whose first detail line speaks of a workspace or of a
    window) and returned after the answer. *)
Inductive OpenUrisResult :=
| Returned (response : WorkspaceTrustUriResponse) (w : Workbench)
| Prompted (inWorkspace : bool) (response : WorkspaceTrustUriResponse) (w : Workbench).

Definition saveResponseIfChecked (response : WorkspaceTrustUriResponse) (checked : bool)
    (w : Workbench) : Workbench :=
  if checked then
    let w1 := match response with
              | Open => set_untrustedFilesSetting open w
              | _ => w
              end in
    match response with
    | OpenInNewWindow => set_untrustedFilesSetting newWindow w1
    | _ => w1
    end
  else w.

(** The part of [requestOpenUris] from the dialog on; [result] is what the
    dialog resolved to. *)
Definition requestOpenUris_dialog (result : IShowResult) (w : Workbench) : OpenUrisResult :=
  let inWorkspace := negb (WorkbenchState_eqb (getWorkbenchState (host (services w))) EMPTY) in
  let checked := default false (checkboxChecked result) in
  match choice result with
  | 0 =>
      Prompted inWorkspace Open
        (saveResponseIfChecked Open checked
           (with_services (set_acceptsOutOfWorkspaceFiles true (services w)) w))
  | 1 => Prompted inWorkspace OpenInNewWindow (saveResponseIfChecked OpenInNewWindow checked w)
  | _ => Prompted inWorkspace Cancel w
  end.

(** [requestOpenUris]; [result] is the answer the user gives if asked. *)
Definition requestOpenUris (uris : list URI) (result : IShowResult) (w : Workbench)
  : OpenUrisResult :=
  let s := services w in
  if negb (_trusted (requestService s)) then Returned Open w
  else
    let allTrusted :=
      forallb (fun trusted => trusted)
        (map (fun u => trusted (getUriTrustInfo (_trustStateInfo s) u)) uris) in
    if allTrusted then Returned Open w
    else
      let afterSetting :=
        if get_acceptsOutOfWorkspaceFiles s then Returned Open w
        else requestOpenUris_dialog result w in
      if negb (UntrustedFilesSetting_eqb (untrustedFilesSetting w) prompt) then
        if UntrustedFilesSetting_eqb (untrustedFilesSetting w) newWindow
        then Returned OpenInNewWindow w
        else if UntrustedFilesSetting_eqb (untrustedFilesSetting w) open
             then Returned Open w
             else afterSetting
      else afterSetting.

Definition response_of (r : OpenUrisResult) : WorkspaceTrustUriResponse :=
  match r with
  | Returned response _ => response
  | Prompted _ response _ => response
  end.

Definition workbench_of (r : OpenUrisResult) : Workbench :=
  match r with
  | Returned _ w => w
  | Prompted _ _ w => w
  end.

Definition was_prompted (r : OpenUrisResult) : bool :=
  match r with
  | Returned _ _ => false
  | Prompted _ _ _ => true
  end.

End OpenUris.

(** ** Further vocabulary *)

Section MoreVocabulary.
Context {URI : Type} `{ExtUri : IExtUri URI} `{Plat : Platform URI}.
Context {World Error WorkspaceTrustRequestOptions : Type}.

(** Some entry of the list is an ancestor of [u] or equal to it. *)
Definition covered (l : list (IWorkspaceTrustUriInfo URI)) (u : URI) : Prop :=
  exists e, In e l /\ isEqualOrParent u (uri e) = true.

(** Some entry of the list is equal to [u], as [setUrisTrust] tests it. *)
Definition has_entry (l : list (IWorkspaceTrustUriInfo URI)) (u : URI) : bool :=
  existsb (fun e => isEqual (uri e) u) l.


(** Every node of the participant list was tagged before [nextNode]. *)
Definition nodes_fresh (s : @State URI World Error WorkspaceTrustRequestOptions) : Prop :=
  Forall (fun p => fst p < nextNode (_trustTransitionManager s))
    (participants (_trustTransitionManager s)).



(** The memento object has no change that [saveMemento] has not written. *)
Definition memento_saved (s : @State URI World Error WorkspaceTrustRequestOptions) : Prop :=
  WorkspaceTrustState.savedMemento (_trustState s)
  = WorkspaceTrustState._mementoObject (_trustState s).

(** Some registered participant rejects with [e] on some call. *)
Definition participant_rejects_with (s : @State URI World Error WorkspaceTrustRequestOptions)
    (e : Error) : Prop :=
  exists p trusted w,
    In p (participants (_trustTransitionManager s))
    /\ snd (snd p trusted w) = Some e.

(** The trust feature decides by the workspace: it is enabled, this is no
    extension test host, and there is no remote authority. *)
Definition decided_locally (s : @State URI World Error WorkspaceTrustRequestOptions) : Prop :=
  isWorkspaceTrustEnabled (configurationService (host s)) = true
  /\ extensionTestsLocationURI (host s) = None
  /\ truthy_string (remoteAuthority (host s)) = false.

(** The [DidChangeTrust] events of a log, in order. *)
Definition trust_changes (log : list (@Event WorkspaceTrustRequestOptions))
  : list (@Event WorkspaceTrustRequestOptions) :=
  List.filter is_DidChangeTrust log.

(** From [s] to [s'] the log only grew, [onDidChangeTrust] fired at most
    once, and if it fired the trust has changed, the event carries the new
    trust and the request service has taken it over. *)
Definition fires_at_most_once (s s' : @State URI World Error WorkspaceTrustRequestOptions)
  : Prop :=
  exists tail,
    events s' = events s ++ tail
    /\ (trust_changes tail = []
        \/ (trust_changes tail = [DidChangeTrust (isWorkpaceTrusted s')]
            /\ isWorkpaceTrusted s = negb (isWorkpaceTrusted s')
            /\ _trusted (requestService s') = isWorkpaceTrusted s')).

(** From [s] to [s'] the log only grew, without any [DidChangeTrust], and
    the trust and its cache stayed. *)
Definition quiet (s s' : @State URI World Error WorkspaceTrustRequestOptions) : Prop :=
  (exists tail, events s' = events s ++ tail /\ trust_changes tail = [])
  /\ isWorkpaceTrusted s' = isWorkpaceTrusted s
  /\ _trusted (requestService s') = _trusted (requestService s).

(** The trust the memento holds is the one [calculateWorkspaceTrust]
    computes. *)
Definition trust_in_sync (s : @State URI World Error WorkspaceTrustRequestOptions) : Prop :=
  isWorkpaceTrusted s = calculateWorkspaceTrust s.

(** The memento did not move, or it is saved. *)
Definition memento_kept_or_saved (s s' : @State URI World Error WorkspaceTrustRequestOptions)
  : Prop :=
  _trustState s' = _trustState s \/ memento_saved s'.

Definition rejection_of {A} (o : @Outcome URI World Error WorkspaceTrustRequestOptions A)
  : option Error :=
  match o with
  | Fulfilled _ _ => None
  | Rejected e _ => Some e
  end.

(** The reason an operation's promise rejects with, if it rejects; the
    synchronous operations have none. *)
Definition rejection (op : @Operation URI World Error WorkspaceTrustRequestOptions)
    (s : @State URI World Error WorkspaceTrustRequestOptions) : option Error :=
  match op with
  | InitializeWorkspaceTrust => None
  | DidChangeWorkspace kind workspace =>
      rejection_of (updateWorkspaceTrust None (with_workspace kind workspace s))
  | DidChangeStorageValue key value =>
      rejection_of (onDidChangeValue key (externalWrite key value s))
  | RemoteAuthorityResolved result => rejection_of (onRemoteAuthorityResolved result s)
  | SetUrisTrust uris trusted => rejection_of (setUrisTrust uris trusted s)
  | SetParentFolderTrust trusted => rejection_of (setParentFolderTrust trusted s)
  | SetWorkspaceTrust trusted => rejection_of (setWorkspaceTrust trusted s)
  | SetTrustedFolders uris => rejection_of (setTrustedFolders uris s)
  | SetAcceptsOutOfWorkspaceFiles _ => None
  | AddWorkspaceTrustTransitionParticipant _ => None
  | DisposeParticipant _ => None
  | RequestWorkspaceTrust options => rejection_of (requestWorkspaceTrust options s)
  | CompleteRequest trusted => rejection_of (completeRequest trusted s)
  | CancelRequest => None
  end.

End MoreVocabulary.

(** ** Further scenes on the concrete platform *)

Module PosixScenes.
Import Posix.

(** A trusted empty window whose request service has read the trust. *)
Definition trustedWindow : State :=
  WorkspaceTrustRequestService_constructor
    (with_trustState (WorkspaceTrustState.set_isTrusted (Some true)) emptyWindow).


(** The user picks the first button and ticks the checkbox. *)
Definition openAndRemember : IShowResult :=
  {| choice := 0; checkboxChecked := Some true |}.


End PosixScenes.

(** * Properties *)

(** ** getUriTrustInfo: the longest matching entry wins *)

Section PolicyFacts.
Context {URI : Type} `{ExtUri : IExtUri URI} `{Plat : Platform URI}.

Local Abbreviation Entry := (IWorkspaceTrustUriInfo URI).

Lemma entry_eta (e : Entry) : {| uri := uri e; trusted := trusted e |} = e.
Proof. destruct e; reflexivity. Qed.

Lemma getUriTrustInfo_loop_snoc (u : URI) (l : list Entry) (x : Entry) (acc : MatchAcc) :
  getUriTrustInfo_loop u (l ++ [x]) acc
  = getUriTrustInfo_step u (getUriTrustInfo_loop u l acc) x.
Proof. unfold getUriTrustInfo_loop. rewrite fold_left_app. reflexivity. Qed.

(** The loop either leaves the accumulator alone, because no matching entry
    is longer than what it holds, or ends on a matching entry that is strictly
    longer than the initial bound and at least as long as every other match. *)
Lemma getUriTrustInfo_loop_spec (u : URI) (l : list Entry) (acc : MatchAcc) :
  (getUriTrustInfo_loop u l acc = acc
   /\ forall e, In e l -> isEqualOrParent u (uri e) = true ->
                (pathLength e <= maxLength acc)%Z)
  \/ (exists e, In e l /\ isEqualOrParent u (uri e) = true
                /\ (maxLength acc < pathLength e)%Z
                /\ getUriTrustInfo_loop u l acc
                   = {| resultState := trusted e; maxLength := pathLength e;
                        resultUri := uri e |}
                /\ forall e', In e' l -> isEqualOrParent u (uri e') = true ->
                              (pathLength e' <= pathLength e)%Z).
Proof.
  induction l as [|x l IH] using rev_ind.
  - left. split; [reflexivity|]. intros e [].
  - rewrite getUriTrustInfo_loop_snoc. unfold getUriTrustInfo_step.
    destruct (isEqualOrParent u (uri x)) eqn:Hm.
    + fold (pathLength x).
      destruct (Z.gtb_spec (pathLength x) (maxLength (getUriTrustInfo_loop u l acc))) as [Hgt|Hle].
      * right. exists x. split; [apply in_or_app; right; left; reflexivity|].
        split; [exact Hm|].
        destruct IH as [[Heq Hall]|(e & Hin & Hme & Hlt & Heq & Hall)].
        -- rewrite Heq in Hgt. split; [lia|]. split; [reflexivity|].
           intros e' Hin' Hm'. apply in_app_or in Hin' as [Hin'|[<-|[]]]; [|lia].
           specialize (Hall e' Hin' Hm'). lia.
        -- rewrite Heq in Hgt. cbn in Hgt. split; [lia|]. split; [reflexivity|].
           intros e' Hin' Hm'. apply in_app_or in Hin' as [Hin'|[<-|[]]]; [|lia].
           specialize (Hall e' Hin' Hm'). lia.
      * destruct IH as [[Heq Hall]|(e & Hin & Hme & Hlt & Heq & Hall)].
        -- left. split; [exact Heq|]. rewrite Heq in Hle.
           intros e' Hin' Hm'. apply in_app_or in Hin' as [Hin'|[<-|[]]]; [|lia].
           apply Hall; assumption.
        -- right. exists e. split; [apply in_or_app; left; exact Hin|].
           split; [exact Hme|]. split; [exact Hlt|]. split; [exact Heq|].
           rewrite Heq in Hle. cbn in Hle.
           intros e' Hin' Hm'. apply in_app_or in Hin' as [Hin'|[<-|[]]]; [|lia].
           apply Hall; assumption.
    + destruct IH as [[Heq Hall]|(e & Hin & Hme & Hlt & Heq & Hall)].
      * left. split; [exact Heq|].
        intros e' Hin' Hm'. apply in_app_or in Hin' as [Hin'|[<-|[]]]; [|congruence].
        apply Hall; assumption.
      * right. exists e. split; [apply in_or_app; left; exact Hin|].
        split; [exact Hme|]. split; [exact Hlt|]. split; [exact Heq|].
        intros e' Hin' Hm'. apply in_app_or in Hin' as [Hin'|[<-|[]]]; [|congruence].
        apply Hall; assumption.
Qed.

Lemma pathLength_nonneg (e : Entry) : (0 <= pathLength e)%Z.
Proof. unfold pathLength. lia. Qed.

Lemma getUriTrustInfo_no_match (entries : list Entry) (u : URI) :
  (forall e, In e entries -> isEqualOrParent u (uri e) = false) ->
  getUriTrustInfo entries u = {| uri := u; trusted := false |}.
Proof.
  intros Hnone. unfold getUriTrustInfo.
  destruct (getUriTrustInfo_loop_spec u entries
              {| resultState := false; maxLength := (-1)%Z; resultUri := u |})
    as [[-> _]|(e & Hin & Hm & _)].
  - reflexivity.
  - rewrite (Hnone e Hin) in Hm. discriminate.
Qed.

Lemma getUriTrustInfo_some_match (entries : list Entry) (u : URI) :
  (exists e, In e entries /\ isEqualOrParent u (uri e) = true) ->
  exists e, In e entries /\ isEqualOrParent u (uri e) = true
            /\ (forall e', In e' entries -> isEqualOrParent u (uri e') = true ->
                           String.length (fsPath (uri e')) <= String.length (fsPath (uri e)))
            /\ getUriTrustInfo entries u = e.
Proof.
  intros (e0 & Hin0 & Hm0). unfold getUriTrustInfo.
  destruct (getUriTrustInfo_loop_spec u entries
              {| resultState := false; maxLength := (-1)%Z; resultUri := u |})
    as [[_ Hall]|(e & Hin & Hm & _ & -> & Hall)].
  - specialize (Hall e0 Hin0 Hm0). pose proof (pathLength_nonneg e0). cbn in Hall. lia.
  - exists e. split; [exact Hin|]. split; [exact Hm|]. split.
    + intros e' Hin' Hm'. specialize (Hall e' Hin' Hm'). unfold pathLength in Hall. lia.
    + cbn. apply entry_eta.
Qed.

End PolicyFacts.

(** ** The monad, and what a trust transition can touch *)

Section TransitionFacts.
Context {URI : Type} `{ExtUri : IExtUri URI} `{Plat : Platform URI}.
Context {World Error WorkspaceTrustRequestOptions : Type}.

Local Abbreviation State := (@State URI World Error WorkspaceTrustRequestOptions).
Local Abbreviation Async := (@Async URI World Error WorkspaceTrustRequestOptions).
Local Abbreviation Callback := (Participant World Error).
Local Open Scope async_scope.

Lemma state_eta (s : State) :
  {| host := host s; storage := storage s; world := world s;
     _trustStateInfo := _trustStateInfo s; _remoteAuthority := _remoteAuthority s;
     _trustState := _trustState s; _trustTransitionManager := _trustTransitionManager s;
     requestService := requestService s; events := events s |} = s.
Proof. destruct s; reflexivity. Qed.

Lemma final_state_await {A B} (m : Async A) (k : A -> Async B) (s : State) :
  final_state (await m k s)
  = match m s with
    | Fulfilled a s' => final_state (k a s')
    | Rejected _ s' => s'
    end.
Proof. unfold await. destruct (m s); reflexivity. Qed.

(** Every state change of a transition is one of the elementary steps. *)
Lemma trust_steps_frame (s s' : State) :
  rtc trust_step s s' ->
  host s' = host s /\ storage s' = storage s /\ _trustStateInfo s' = _trustStateInfo s
  /\ _remoteAuthority s' = _remoteAuthority s
  /\ _trustTransitionManager s' = _trustTransitionManager s
  /\ _modalTrustRequestPromise (requestService s') = _modalTrustRequestPromise (requestService s)
  /\ _modalTrustRequestResolver (requestService s') = _modalTrustRequestResolver (requestService s)
  /\ promises (requestService s') = promises (requestService s).
Proof.
  induction 1 as [s|s s1 s2 Hstep _ IH]; [repeat split|].
  destruct IH as (-> & -> & -> & -> & -> & -> & -> & ->).
  destruct Hstep; repeat split.
Qed.

Lemma trust_steps_events (s s' : State) :
  rtc trust_step s s' ->
  exists tail, events s' = events s ++ tail
               /\ Forall (fun e => match e with
                                   | Participate _ _ | DidChangeTrust _ => True
                                   | _ => False
                                   end) tail.
Proof.
  induction 1 as [s|s s1 s2 Hstep _ (tail & -> & Htail)].
  - exists []. split; [symmetry; apply app_nil_r|constructor].
  - destruct Hstep; cbn.
    + eexists (_ :: tail). rewrite <- app_assoc. split; [reflexivity|]. constructor; [exact I|exact Htail].
    + eexists (_ :: tail). rewrite <- app_assoc. split; [reflexivity|]. constructor; [exact I|exact Htail].
    + exists tail. split; [reflexivity|exact Htail].
    + exists tail. split; [reflexivity|exact Htail].
    + exists tail. split; [reflexivity|exact Htail].
Qed.

Lemma participateOne_final (trusted : bool) (p : nat * Callback) (s : State) :
  final_state (participateOne trusted p s)
  = with_world (fst (snd p trusted (world s))) (emit (Participate (fst p) trusted) s).
Proof.
  unfold participateOne. cbn.
  destruct (snd p trusted (world s)) as [w [e|]]; reflexivity.
Qed.

Lemma participate_loop_steps (ps : list (nat * Callback)) (trusted : bool) (s : State) :
  rtc trust_step s (final_state (participate_loop ps trusted s)).
Proof.
  revert s. induction ps as [|p rest IH]; intros s; cbn.
  - reflexivity.
  - rewrite final_state_await.
    pose proof (participateOne_final trusted p s) as Hone.
    assert (rtc trust_step s (final_state (participateOne trusted p s))) as Hreach.
    { rewrite Hone. eapply rtc_l; [apply step_participate|]. apply rtc_once, step_world. }
    destruct (participateOne trusted p s) as [[] s1|e s1]; cbn in *.
    + etrans; [exact Hreach|apply IH].
    + exact Hreach.
Qed.

(** [updateWorkspaceTrust] with the sequencing unfolded. *)
Lemma updateWorkspaceTrust_eq (arg : option bool) (s : State) :
  updateWorkspaceTrust arg s
  = let t := targetTrust arg s in
    if Bool.eqb (isWorkpaceTrusted s) t then Fulfilled tt s
    else
      match participate_loop (participants (_trustTransitionManager s)) t
              (with_trustState (WorkspaceTrustState.set_isTrusted (Some t)) s) with
      | Fulfilled _ s2 => Fulfilled tt (fire_onDidChangeTrust t s2)
      | Rejected e s2 => Rejected e s2
      end.
Proof.
  unfold updateWorkspaceTrust, await, read, exec, resolve, participate, targetTrust. cbn.
  destruct (Bool.eqb _ _); [reflexivity|]. cbn.
  destruct (participate_loop _ _ _); reflexivity.
Qed.

Lemma updateWorkspaceTrust_steps (arg : option bool) (s : State) :
  rtc trust_step s (final_state (updateWorkspaceTrust arg s)).
Proof.
  rewrite updateWorkspaceTrust_eq. cbn zeta.
  destruct (Bool.eqb _ _); [reflexivity|].
  eapply rtc_l; [apply step_isTrusted|].
  match goal with |- context [participate_loop ?ps ?t ?s1] =>
    pose proof (participate_loop_steps ps t s1) as Hloop;
    destruct (participate_loop ps t s1) as [[] s2|e s2]
  end; cbn in *.
  - etrans; [exact Hloop|].
    eapply rtc_l; [apply step_fire|]. apply rtc_once, step_mirror.
  - exact Hloop.
Qed.

End TransitionFacts.

(** ** WorkspaceTrustState: the memento setters *)

Section MementoFacts.

Import WorkspaceTrustState.

Lemma keys_differ : _isTrustedKey <> _acceptsOutOfWorkspaceFilesKey.
Proof. discriminate. Qed.

Lemma get_isTrusted_set_isTrusted (value : option bool) (st : t) :
  get_isTrusted (set_isTrusted value st) = value.
Proof.
  unfold get_isTrusted, set_isTrusted, prop. cbn.
  destruct (falsy value).
  - rewrite lookup_insert_ne by (intros Heq; symmetry in Heq; exact (keys_differ Heq)).
    rewrite lookup_insert_eq. reflexivity.
  - rewrite lookup_insert_eq. reflexivity.
Qed.

Lemma get_acceptsOutOfWorkspaceFiles_set_isTrusted_falsy (value : option bool) (st : t) :
  falsy value = true ->
  get_acceptsOutOfWorkspaceFiles (set_isTrusted value st) = false.
Proof.
  intros Hfalsy. unfold get_acceptsOutOfWorkspaceFiles, set_isTrusted, prop. cbn.
  rewrite Hfalsy. rewrite lookup_insert_eq. cbn.
  destruct value as [[|]|]; [discriminate|reflexivity|reflexivity].
Qed.

Lemma get_acceptsOutOfWorkspaceFiles_set_isTrusted_true (st : t) :
  get_acceptsOutOfWorkspaceFiles (set_isTrusted (Some true) st)
  = get_acceptsOutOfWorkspaceFiles st.
Proof.
  unfold get_acceptsOutOfWorkspaceFiles, set_isTrusted, prop. cbn.
  rewrite lookup_insert_ne by exact keys_differ. reflexivity.
Qed.

Lemma savedMemento_set_isTrusted (value : option bool) (st : t) :
  savedMemento (set_isTrusted value st) = _mementoObject (set_isTrusted value st).
Proof. reflexivity. Qed.

Lemma get_acceptsOutOfWorkspaceFiles_set (value : bool) (st : t) :
  get_acceptsOutOfWorkspaceFiles (set_acceptsOutOfWorkspaceFiles value st) = value.
Proof.
  unfold get_acceptsOutOfWorkspaceFiles, set_acceptsOutOfWorkspaceFiles, prop. cbn.
  rewrite lookup_insert_eq. reflexivity.
Qed.

Lemma get_isTrusted_set_acceptsOutOfWorkspaceFiles (value : bool) (st : t) :
  get_isTrusted (set_acceptsOutOfWorkspaceFiles value st) = get_isTrusted st.
Proof.
  unfold get_isTrusted, set_acceptsOutOfWorkspaceFiles, prop. cbn.
  rewrite lookup_insert_ne by (intros Heq; symmetry in Heq; exact (keys_differ Heq)).
  reflexivity.
Qed.

End MementoFacts.

(** ** WorkspaceTrustTransitionManager: order and fail-fast *)

Section ParticipantFacts.
Context {URI : Type} `{ExtUri : IExtUri URI} `{Plat : Platform URI}.
Context {World Error WorkspaceTrustRequestOptions : Type}.

Local Abbreviation State := (@State URI World Error WorkspaceTrustRequestOptions).
Local Abbreviation Callback := (Participant World Error).

Lemma participated_nil (trusted : bool) (s : State) :
  participated trusted [] (world s) s = s.
Proof.
  unfold participated, participations. cbn. rewrite app_nil_r. apply state_eta.
Qed.

Lemma participated_cons (trusted : bool) (p : nat * Callback)
    (rest : list (nat * Callback)) (w1 w : World) (s : State) :
  participated trusted rest w (with_world w1 (emit (Participate (fst p) trusted) s))
  = participated trusted (p :: rest) w s.
Proof.
  unfold participated, participations. cbn. rewrite <- app_assoc. reflexivity.
Qed.

Lemma participate_loop_fulfils (trusted : bool) (ps : list (nat * Callback)) :
  forall (s : State) (w : World),
    fulfil_in_turn trusted ps (world s) w ->
    participate_loop ps trusted s = Fulfilled tt (participated trusted ps w s).
Proof.
  induction ps as [|p rest IH]; intros s w Hrun;
    inversion Hrun as [|? ? ? w1 ? Hp Hrest]; subst.
  - cbn. rewrite participated_nil. reflexivity.
  - cbn. unfold await, participateOne. cbn. rewrite Hp.
    rewrite (IH _ w) by exact Hrest.
    rewrite participated_cons. reflexivity.
Qed.

Lemma participate_loop_rejects (trusted : bool) (before : list (nat * Callback)) :
  forall (p : nat * Callback) (after : list (nat * Callback))
         (s : State) (w1 w2 : World) (e : Error),
    fulfil_in_turn trusted before (world s) w1 ->
    snd p trusted w1 = (w2, Some e) ->
    participate_loop (before ++ p :: after) trusted s
    = Rejected e (participated trusted (before ++ [p]) w2 s).
Proof.
  induction before as [|q rest IH]; intros p after s w1 w2 e Hrun Hp;
    inversion Hrun as [|? ? ? w0 ? Hq Hrest]; subst.
  - cbn. unfold await, participateOne. cbn. rewrite Hp. reflexivity.
  - cbn. unfold await at 1. unfold participateOne at 1. cbn. rewrite Hq.
    rewrite (IH p after _ w1 w2 e) by assumption.
    rewrite participated_cons. reflexivity.
Qed.

Lemma participations_no_DidChangeTrust (trusted : bool) (ps : list (nat * Callback)) :
  Forall (fun ev : @Event WorkspaceTrustRequestOptions => is_DidChangeTrust ev = false)
    (@participations World Error WorkspaceTrustRequestOptions trusted ps).
Proof.
  unfold participations. induction ps; cbn; constructor; [reflexivity|assumption].
Qed.

Lemma isWorkpaceTrusted_after_assignment (trusted : bool) (ps : list (nat * Callback))
    (w : World) (s : State) :
  isWorkpaceTrusted
    (participated trusted ps w
       (with_trustState (WorkspaceTrustState.set_isTrusted (Some trusted)) s)) = trusted.
Proof.
  unfold isWorkpaceTrusted. cbn. rewrite get_isTrusted_set_isTrusted. reflexivity.
Qed.

(** C3. Participants run one after the other in registration order, each on
    the world its predecessor left; when one of them rejects,
    [updateWorkspaceTrust] rejects with its reason, no later participant is
    called and [onDidChangeTrust] is not fired; when all fulfil, the event is
    fired after the last of them. *)
Theorem participants_run_in_order_fail_fast (arg : option bool) (s : State) :
  let t := targetTrust arg s in
  (forall participant,
      participants (_trustTransitionManager
                      (snd (addWorkspaceTrustTransitionParticipant participant s)))
      = participants (_trustTransitionManager s)
        ++ [(fst (addWorkspaceTrustTransitionParticipant participant s), participant)])
  /\ forall (before : list (nat * Callback)) (w1 : World),
      isWorkpaceTrusted s = negb t ->
      fulfil_in_turn t before (world s) w1 ->
      (participants (_trustTransitionManager s) = before ->
       exists s', updateWorkspaceTrust arg s = Fulfilled tt s'
                  /\ world s' = w1
                  /\ events s' = events s ++ participations t before ++ [DidChangeTrust t])
      /\ (forall p after w2 e,
             participants (_trustTransitionManager s) = before ++ p :: after ->
             snd p t w1 = (w2, Some e) ->
             exists s', updateWorkspaceTrust arg s = Rejected e s'
                        /\ world s' = w2
                        /\ events s'
                           = events s ++ participations t before ++ [Participate (fst p) t]
                        /\ Forall (fun ev : @Event WorkspaceTrustRequestOptions =>
                                     is_DidChangeTrust ev = false)
                             (participations t before ++ [Participate (fst p) t])).
Proof.
  intros t. split; [intros participant; reflexivity|].
  intros before w1 Hdiff Hrun. split.
  - intros Hps. rewrite updateWorkspaceTrust_eq. cbn zeta. fold t. rewrite Hdiff.
    replace (Bool.eqb (negb t) t) with false by (destruct t; reflexivity).
    rewrite Hps.
    rewrite (@participate_loop_fulfils t before _ w1) by exact Hrun.
    eexists. split; [reflexivity|]. split; [reflexivity|].
    cbn. rewrite <- app_assoc. reflexivity.
  - intros p after w2 e Hps Hp. rewrite updateWorkspaceTrust_eq. cbn zeta. fold t.
    rewrite Hdiff.
    replace (Bool.eqb (negb t) t) with false by (destruct t; reflexivity).
    rewrite Hps.
    rewrite (@participate_loop_rejects t before p after _ w1 w2 e) by assumption.
    eexists. split; [reflexivity|]. split; [reflexivity|]. split.
    + cbn. unfold participations. rewrite map_app. reflexivity.
    + pose proof (participations_no_DidChangeTrust t (before ++ [p])) as Hno.
      unfold participations in *. rewrite map_app in Hno. exact Hno.
Qed.

(** C10. The new trust value is in the memento, and saved, before the first
    participant is called: the transition continues from the state that
    already holds it, and when a participant rejects, [isWorkpaceTrusted]
    answers the new value although [onDidChangeTrust] was not fired. *)
Theorem trust_assigned_before_participants_not_rolled_back
    (arg : option bool) (s : State) (t : bool)
    (before : list (nat * Callback)) (p : nat * Callback)
    (after : list (nat * Callback)) (w1 w2 : World) (e : Error) :
  t = targetTrust arg s ->
  isWorkpaceTrusted s = negb t ->
  participants (_trustTransitionManager s) = before ++ p :: after ->
  fulfil_in_turn t before (world s) w1 ->
  snd p t w1 = (w2, Some e) ->
  let assigned := with_trustState (WorkspaceTrustState.set_isTrusted (Some t)) s in
  let o := updateWorkspaceTrust arg s in
  isWorkpaceTrusted assigned = t
  /\ o = participate_loop (before ++ p :: after) t assigned
  /\ is_rejected o = true
  /\ isWorkpaceTrusted (final_state o) = t
  /\ WorkspaceTrustState.prop
       (WorkspaceTrustState.savedMemento (_trustState (final_state o)))
       WorkspaceTrustState._isTrustedKey = Some t
  /\ exists tail, events (final_state o) = events s ++ tail
                  /\ Forall (fun ev : @Event WorkspaceTrustRequestOptions => is_DidChangeTrust ev = false) tail.
Proof.
  intros Ht Hdiff Hps Hrun Hp assigned o.
  assert (o = Rejected e (participated t (before ++ [p]) w2 assigned)) as Ho.
  { subst o. rewrite updateWorkspaceTrust_eq. cbn zeta. rewrite <- Ht, Hdiff.
    replace (Bool.eqb (negb t) t) with false by (destruct t; reflexivity).
    rewrite Hps.
    rewrite (@participate_loop_rejects t before p after _ w1 w2 e) by assumption.
    reflexivity. }
  split; [|split; [|split; [|split; [|split]]]].
  - unfold isWorkpaceTrusted, assigned. cbn.
    rewrite get_isTrusted_set_isTrusted. reflexivity.
  - rewrite Ho. symmetry. apply (@participate_loop_rejects t before p after _ w1 w2 e); assumption.
  - rewrite Ho. reflexivity.
  - rewrite Ho. apply isWorkpaceTrusted_after_assignment.
  - rewrite Ho. exact (get_isTrusted_set_isTrusted (Some t) (_trustState s)).
  - rewrite Ho. cbn. eexists. split; [reflexivity|].
    apply participations_no_DidChangeTrust.
Qed.

End ParticipantFacts.

(** ** Trusted folders: setUrisTrust, setTrustedFolders, loadTrustInfo *)

Section TrustedFolderFacts.
Context {URI : Type} `{ExtUri : IExtUri URI} `{Plat : Platform URI}.
Context {World Error WorkspaceTrustRequestOptions : Type}.

Local Abbreviation Entry := (IWorkspaceTrustUriInfo URI).
Local Abbreviation State := (@State URI World Error WorkspaceTrustRequestOptions).


Lemma setUrisTrust_eq (uris : list URI) (trusted : bool) (s : State) :
  setUrisTrust uris trusted s
  = let r := setUrisTrust_loop uris trusted (_trustStateInfo s) in
    if snd r then updateWorkspaceTrust None (stored (with_trustStateInfo (fst r) s))
    else Fulfilled tt (with_trustStateInfo (fst r) s).
Proof.
  unfold setUrisTrust, await. cbn zeta.
  destruct (setUrisTrust_loop uris trusted (_trustStateInfo s)) as [l [|]]; reflexivity.
Qed.

Lemma setTrustedFolders_eq (uris : list URI) (s : State) :
  setTrustedFolders uris s
  = updateWorkspaceTrust None
      (stored (with_trustStateInfo (fold_left setTrustedFolders_step uris []) s)).
Proof. reflexivity. Qed.

Lemma with_trustStateInfo_same (s : State) : with_trustStateInfo (_trustStateInfo s) s = s.
Proof. apply state_eta. Qed.

Lemma filter_length_same {A} (f : A -> bool) (l : list A) :
  length (List.filter f l) = length l -> List.filter f l = l.
Proof.
  induction l as [|x l IH]; cbn; [reflexivity|].
  pose proof (List.filter_length_le f l) as Hle.
  destruct (f x); cbn; intros Hlen.
  - f_equal. apply IH. lia.
  - lia.
Qed.

Lemma find_app_last {A} (f : A -> bool) (l : list A) (x : A) :
  f x = true -> is_Some (List.find f (l ++ [x])).
Proof.
  intros Hx. induction l as [|y l IH]; cbn.
  - rewrite Hx. eexists; reflexivity.
  - destruct (f y); [eexists; reflexivity|exact IH].
Qed.

(** One iteration either leaves list and flag alone, or raises the flag
    and changes the length: up when trusting, down when untrusting. *)
Lemma setUrisTrust_step_spec (trusted : bool) (l : list Entry) (c : bool) (u : URI) :
  (setUrisTrust_step trusted (l, c) u = (l, c))
  \/ (snd (setUrisTrust_step trusted (l, c) u) = true
      /\ if trusted then length l < length (fst (setUrisTrust_step trusted (l, c) u))
         else length (fst (setUrisTrust_step trusted (l, c) u)) < length l).
Proof.
  unfold setUrisTrust_step. destruct trusted.
  - destruct (bool_decide _); [left; reflexivity|].
    right. cbn. rewrite length_app. cbn. split; [reflexivity|lia].
  - pose proof (List.filter_length_le
                  (fun trustInfo : Entry => negb (isEqual (uri trustInfo) u)) l) as Hle.
    destruct (Nat.eqb_spec (length l)
                (length (List.filter (fun trustInfo : Entry => negb (isEqual (uri trustInfo) u)) l)))
      as [Heq|Hne]; cbn.
    + left. rewrite filter_length_same by (symmetry; exact Heq). reflexivity.
    + right. split; [reflexivity|lia].
Qed.

Lemma setUrisTrust_fold_spec (trusted : bool) (uris : list URI) :
  forall (l : list Entry) (c : bool),
    (fold_left (setUrisTrust_step trusted) uris (l, c) = (l, c))
    \/ (snd (fold_left (setUrisTrust_step trusted) uris (l, c)) = true
        /\ if trusted
           then length l < length (fst (fold_left (setUrisTrust_step trusted) uris (l, c)))
           else length (fst (fold_left (setUrisTrust_step trusted) uris (l, c))) < length l).
Proof.
  induction uris as [|u rest IH]; intros l c; cbn [fold_left].
  - left. reflexivity.
  - destruct (setUrisTrust_step_spec trusted l c u) as [->|[Hc Hlen]]; [apply IH|].
    destruct (setUrisTrust_step trusted (l, c) u) as [l1 c1]. cbn in Hc, Hlen. subst c1.
    right. destruct (IH l1 true) as [->|[Hc' Hlen']]; cbn.
    + split; [reflexivity|exact Hlen].
    + split; [exact Hc'|]. destruct trusted; lia.
Qed.

(** The flag [changed] is raised exactly when the list is not what it was. *)
Lemma setUrisTrust_loop_changed (uris : list URI) (trusted : bool) (l : list Entry) :
  snd (setUrisTrust_loop uris trusted l) = true
  <-> fst (setUrisTrust_loop uris trusted l) <> l.
Proof.
  unfold setUrisTrust_loop.
  destruct (setUrisTrust_fold_spec trusted uris l false) as [->|[Hc Hlen]]; cbn.
  - split; [discriminate|]. intros Hne. exfalso. apply Hne. reflexivity.
  - split; [|intros _; exact Hc]. intros _ Heq. rewrite Heq in Hlen.
    destruct trusted; lia.
Qed.

Lemma setUrisTrust_final_trustStateInfo (uris : list URI) (trusted : bool) (s : State) :
  _trustStateInfo (final_state (setUrisTrust uris trusted s))
  = fst (setUrisTrust_loop uris trusted (_trustStateInfo s)).
Proof.
  rewrite setUrisTrust_eq. cbn zeta.
  destruct (snd (setUrisTrust_loop uris trusted (_trustStateInfo s))); [|reflexivity].
  match goal with |- context [updateWorkspaceTrust None ?s0] =>
    destruct (trust_steps_frame (updateWorkspaceTrust_steps None s0)) as (_ & _ & -> & _)
  end.
  reflexivity.
Qed.

Lemma setUrisTrust_loop_trust_one (u : URI) (l : list Entry) :
  fst (setUrisTrust_loop [u] true l)
  = if existsb (fun e => isEqual (uri e) u) l then l
    else l ++ [{| uri := u; trusted := true |}].
Proof.
  unfold setUrisTrust_loop, setUrisTrust_step. cbn.
  destruct (List.find (fun trustInfo : Entry => isEqual (uri trustInfo) u) l) as [e|] eqn:Hfind.
  - apply List.find_some in Hfind as [Hin He].
    replace (existsb (fun e0 : Entry => isEqual (uri e0) u) l) with true; [reflexivity|].
    symmetry. apply existsb_exists. exists e. split; assumption.
  - replace (existsb (fun e0 : Entry => isEqual (uri e0) u) l) with false; [reflexivity|].
    symmetry. apply not_true_is_false. intros Hex.
    apply existsb_exists in Hex as (e & Hin & He).
    pose proof (List.find_none _ _ Hfind e Hin) as Hnone. cbn in Hnone. congruence.
Qed.

Lemma setUrisTrust_loop_trust_twice (u : URI) (l : list Entry) :
  isEqual u u = true ->
  setUrisTrust_loop [u] true (fst (setUrisTrust_loop [u] true l))
  = (fst (setUrisTrust_loop [u] true l), false).
Proof.
  intros Hrefl. unfold setUrisTrust_loop, setUrisTrust_step. cbn.
  destruct (List.find (fun trustInfo : Entry => isEqual (uri trustInfo) u) l) as [e|] eqn:Hfind; cbn.
  - rewrite Hfind. reflexivity.
  - destruct (find_app_last (fun trustInfo : Entry => isEqual (uri trustInfo) u) l
                {| uri := u; trusted := true |} Hrefl) as [e ->].
    reflexivity.
Qed.

Lemma setUrisTrust_loop_untrust_one (u : URI) (l : list Entry) :
  fst (setUrisTrust_loop [u] false l)
  = List.filter (fun trustInfo => negb (isEqual (uri trustInfo) u)) l.
Proof.
  unfold setUrisTrust_loop, setUrisTrust_step. cbn.
  destruct (negb _); reflexivity.
Qed.

End TrustedFolderFacts.

(** ** Every operation is a sequence of elementary steps *)

Section OperationFacts.
Context {URI : Type} `{ExtUri : IExtUri URI} `{Plat : Platform URI}.
Context {World Error WorkspaceTrustRequestOptions : Type}.

Local Abbreviation Entry := (IWorkspaceTrustUriInfo URI).
Local Abbreviation State := (@State URI World Error WorkspaceTrustRequestOptions).
Local Abbreviation Operation := (@Operation URI World Error WorkspaceTrustRequestOptions).

Lemma trust_steps_service (s s' : State) :
  rtc trust_step s s' -> rtc service_step s s'.
Proof. apply rtc_subrel. intros x y Hxy. apply step_trust, Hxy. Qed.

Lemma updateWorkspaceTrust_service_steps (arg : option bool) (s : State) :
  rtc service_step s (final_state (updateWorkspaceTrust arg s)).
Proof. apply trust_steps_service, updateWorkspaceTrust_steps. Qed.

Lemma stored_service_steps (s : State) : rtc service_step s (stored s).
Proof.
  unfold stored.
  eapply rtc_l; [apply step_storage|].
  eapply rtc_l; [apply step_emit|].
  apply rtc_once, step_emit.
Qed.

Lemma setUrisTrust_service_steps (uris : list URI) (trusted : bool) (s : State) :
  rtc service_step s (final_state (setUrisTrust uris trusted s)).
Proof.
  rewrite setUrisTrust_eq. cbn zeta.
  eapply rtc_l; [apply (step_setUris uris trusted)|].
  destruct (snd _); [|reflexivity].
  etrans; [apply stored_service_steps|apply updateWorkspaceTrust_service_steps].
Qed.

Lemma setWorkspaceTrust_service_steps (trusted : bool) (s : State) :
  rtc service_step s (final_state (setWorkspaceTrust trusted s)).
Proof.
  unfold setWorkspaceTrust, await, read. cbn.
  destruct (WorkbenchState_eqb _ _).
  - apply updateWorkspaceTrust_service_steps.
  - apply setUrisTrust_service_steps.
Qed.

Lemma resolveRequest_service_steps (trusted : option bool) (s : State) :
  rtc service_step s (resolveRequest trusted s).
Proof.
  unfold resolveRequest. destruct (_modalTrustRequestResolver _); [|reflexivity].
  apply rtc_once, step_settle.
Qed.

Lemma completeRequest_eq (trusted : option bool) (s : State) :
  completeRequest trusted s
  = match trusted with
    | None => Fulfilled tt (resolveRequest None s)
    | Some t =>
        if Bool.eqb t (_trusted (requestService s))
        then Fulfilled tt (resolveRequest (Some t) s)
        else match setWorkspaceTrust t s with
             | Fulfilled _ s1 => Fulfilled tt (resolveRequest (Some t) s1)
             | Rejected e s1 => Rejected e s1
             end
    end.
Proof.
  unfold completeRequest, await, read, exec.
  destruct trusted as [t|]; [|reflexivity].
  destruct (Bool.eqb _ _); reflexivity.
Qed.

Lemma completeRequest_service_steps (trusted : option bool) (s : State) :
  rtc service_step s (final_state (completeRequest trusted s)).
Proof.
  rewrite completeRequest_eq.
  destruct trusted as [t|]; [|apply resolveRequest_service_steps].
  destruct (Bool.eqb _ _); [apply resolveRequest_service_steps|].
  pose proof (setWorkspaceTrust_service_steps t s) as Hset.
  destruct (setWorkspaceTrust t s) as [[] s1|e s1]; cbn in *; [|exact Hset].
  etrans; [exact Hset|apply resolveRequest_service_steps].
Qed.

Lemma onDidChangeValue_eq (key : string) (s : State) :
  onDidChangeValue key s
  = if String.eqb key WORKSPACE_TRUST_STORAGE_KEY
       && negb (String.eqb (JSON_stringify (_trustStateInfo s))
                           (JSON_stringify (loadTrustInfo s)))
    then updateWorkspaceTrust None
           (emit DidChangeTrustedFolders (with_trustStateInfo (loadTrustInfo s) s))
    else Fulfilled tt s.
Proof.
  unfold onDidChangeValue, await, read.
  destruct (_ && _); reflexivity.
Qed.

Lemma onRemoteAuthorityResolved_eq (result : ResolverResult) (s : State) :
  onRemoteAuthorityResolved result s
  = match updateWorkspaceTrust None (with_remoteAuthority (Some result) s) with
    | Fulfilled _ s1 => Fulfilled tt (emit DidInitiateWorkspaceTrustRequestOnStartup s1)
    | Rejected e s1 => Rejected e s1
    end.
Proof.
  unfold onRemoteAuthorityResolved, await, exec.
  destruct (updateWorkspaceTrust None _); reflexivity.
Qed.

(** Only the setter of [acceptsOutOfWorkspaceFiles] is not made of these
    steps; it is treated on its own where it matters. *)
Lemma run_service_steps (op : Operation) (s : State) :
  (forall value, op <> SetAcceptsOutOfWorkspaceFiles value) ->
  rtc service_step s (run op s).
Proof.
  intros Hop. destruct op; cbn [run].
  - unfold initializeWorkspaceTrust.
    eapply rtc_l; [apply (step_load s)|].
    apply rtc_once, step_trust, step_isTrusted.
  - eapply rtc_l; [apply step_workspace|]. apply updateWorkspaceTrust_service_steps.
  - apply (rtc_l _ _ (externalWrite key external s)); [apply step_storage|].
    rewrite onDidChangeValue_eq.
    destruct (_ && _); [|reflexivity].
    eapply rtc_l; [apply (step_load (externalWrite key external s))|].
    eapply rtc_l; [apply step_emit|].
    apply updateWorkspaceTrust_service_steps.
  - rewrite onRemoteAuthorityResolved_eq.
    apply (rtc_l _ _ (with_remoteAuthority (Some result) s)); [apply step_remote|].
    match goal with |- context [updateWorkspaceTrust None ?s0] =>
      pose proof (updateWorkspaceTrust_service_steps None s0) as Hup;
      destruct (updateWorkspaceTrust None s0) as [[] s1|e s1]
    end; cbn in *; [|exact Hup].
    eapply rtc_r; [exact Hup|apply step_emit].
  - apply setUrisTrust_service_steps.
  - unfold setParentFolderTrust, await, read. cbn.
    destruct (toWorkspaceIdentifier _); try reflexivity.
    destruct (String.eqb _ _); [|reflexivity].
    apply setUrisTrust_service_steps.
  - apply setWorkspaceTrust_service_steps.
  - rewrite setTrustedFolders_eq.
    eapply rtc_l; [apply (step_setFolders uris)|].
    etrans; [apply stored_service_steps|apply updateWorkspaceTrust_service_steps].
  - exfalso. exact (Hop value eq_refl).
  - apply rtc_once, step_manager.
  - apply rtc_once, step_manager.
  - unfold requestWorkspaceTrust.
    destruct (_trusted (requestService s)) eqn:Htrusted; [reflexivity|].
    destruct (_modalTrustRequestPromise _) eqn:Hpromise; [reflexivity|]. cbn.
    rewrite <- Htrusted.
    eapply rtc_l; [apply step_ask, Hpromise|]. apply rtc_once, step_emit.
  - apply completeRequest_service_steps.
  - unfold cancelRequest. destruct (_modalTrustRequestResolver _); [|reflexivity].
    apply rtc_once, step_settle.
Qed.

End OperationFacts.

(** ** Invariants along the steps *)

Section Invariants.
Context {URI : Type} `{ExtUri : IExtUri URI} `{Plat : Platform URI}.
Context {World Error WorkspaceTrustRequestOptions : Type}.

Local Abbreviation Entry := (IWorkspaceTrustUriInfo URI).
Local Abbreviation State := (@State URI World Error WorkspaceTrustRequestOptions).
Local Abbreviation Operation := (@Operation URI World Error WorkspaceTrustRequestOptions).

Lemma filter_all_trusted {A} (f : A -> bool) (l : list A) :
  Forall (fun x => f x = true) (List.filter f l).
Proof.
  apply List.Forall_forall. intros x Hin. apply List.filter_In in Hin. tauto.
Qed.

Lemma loadTrustInfo_all_trusted (s : State) : all_trusted (loadTrustInfo s).
Proof. unfold loadTrustInfo, all_trusted. apply filter_all_trusted. Qed.

Lemma all_trusted_filter (f : Entry -> bool) (l : list Entry) :
  all_trusted l -> all_trusted (List.filter f l).
Proof.
  unfold all_trusted. rewrite !List.Forall_forall. intros Hall e Hin.
  apply List.filter_In in Hin as [Hin _]. apply Hall, Hin.
Qed.

Lemma all_trusted_snoc (l : list Entry) (u : URI) :
  all_trusted l -> all_trusted (l ++ [{| uri := u; trusted := true |}]).
Proof.
  unfold all_trusted. intros Hall. apply Forall_app. split; [exact Hall|].
  constructor; [reflexivity|constructor].
Qed.

Lemma setUrisTrust_step_all_trusted (trusted : bool) (l : list Entry) (c : bool) (u : URI) :
  all_trusted l -> all_trusted (fst (setUrisTrust_step trusted (l, c) u)).
Proof.
  intros Hall. unfold setUrisTrust_step. destruct trusted.
  - destruct (bool_decide _); cbn; [exact Hall|apply all_trusted_snoc, Hall].
  - destruct (negb _); cbn; apply all_trusted_filter, Hall.
Qed.

Lemma setUrisTrust_loop_all_trusted (uris : list URI) (trusted : bool) (l : list Entry) :
  all_trusted l -> all_trusted (fst (setUrisTrust_loop uris trusted l)).
Proof.
  unfold setUrisTrust_loop. generalize false as c. revert l.
  induction uris as [|u rest IH]; intros l c Hall; cbn [fold_left]; [exact Hall|].
  pose proof (setUrisTrust_step_all_trusted trusted c u Hall) as Hstep.
  destruct (setUrisTrust_step trusted (l, c) u) as [l1 c1]. apply IH, Hstep.
Qed.

Lemma setTrustedFolders_all_trusted (uris : list URI) (l : list Entry) :
  all_trusted l -> all_trusted (fold_left setTrustedFolders_step uris l).
Proof.
  revert l. induction uris as [|u rest IH]; intros l Hall; cbn [fold_left]; [exact Hall|].
  apply IH. unfold setTrustedFolders_step.
  destruct (existsb _ _); [exact Hall|apply all_trusted_snoc, Hall].
Qed.

Lemma service_step_all_trusted (s s' : State) :
  service_step s s' -> all_trusted (_trustStateInfo s) -> all_trusted (_trustStateInfo s').
Proof.
  intros Hstep Hall. destruct Hstep as [s s' Htrust| | | | | | | | | |]; cbn; try exact Hall.
  - destruct Htrust; exact Hall.
  - apply loadTrustInfo_all_trusted.
  - apply setUrisTrust_loop_all_trusted, Hall.
  - apply setTrustedFolders_all_trusted. constructor.
Qed.

Lemma service_steps_all_trusted (s s' : State) :
  rtc service_step s s' -> all_trusted (_trustStateInfo s) -> all_trusted (_trustStateInfo s').
Proof.
  induction 1 as [|s s1 s2 Hstep _ IH]; [tauto|].
  intros Hall. apply IH. exact (service_step_all_trusted Hstep Hall).
Qed.

Lemma kept_or_reset_trans (s1 s2 s3 : State) :
  kept_or_reset s1 s2 -> kept_or_reset s2 s3 -> kept_or_reset s1 s3.
Proof.
  unfold kept_or_reset, isWorkpaceTrusted, get_acceptsOutOfWorkspaceFiles.
  intros [H12|H12] [H23|H23].
  - left. congruence.
  - right. exact H23.
  - right. rewrite H23. exact H12.
  - right. exact H23.
Qed.

Lemma service_step_kept_or_reset (s s' : State) :
  service_step s s' -> kept_or_reset s s'.
Proof.
  intros Hstep. destruct Hstep as [s s' Htrust| | | | | | | | | |];
    try (left; reflexivity).
  destruct Htrust as [| | |t s|]; try (left; reflexivity).
  right. unfold isWorkpaceTrusted, get_acceptsOutOfWorkspaceFiles. cbn.
  rewrite get_isTrusted_set_isTrusted. cbn. intros ->.
  apply get_acceptsOutOfWorkspaceFiles_set_isTrusted_falsy. reflexivity.
Qed.

Lemma service_steps_kept_or_reset (s s' : State) :
  rtc service_step s s' -> kept_or_reset s s'.
Proof.
  induction 1 as [s|s s1 s2 Hstep _ IH]; [left; reflexivity|].
  exact (kept_or_reset_trans (service_step_kept_or_reset Hstep) IH).
Qed.

Lemma service_step_request_wf (s s' : State) :
  service_step s s' -> request_wf s -> request_wf s'.
Proof.
  intros Hstep Hwf.
  destruct Hstep as [s s' Htrust| | | | | |s Hnone|p value s| | |]; try exact Hwf.
  - destruct Htrust; exact Hwf.
  - right. exists (length (promises (requestService s))).
    split; [reflexivity|]. split; [reflexivity|]. cbn.
    apply list_lookup_middle. reflexivity.
  - left. split; reflexivity.
Qed.

Lemma service_steps_request_wf (s s' : State) :
  rtc service_step s s' -> request_wf s -> request_wf s'.
Proof.
  induction 1 as [|s s1 s2 Hstep _ IH]; [tauto|].
  intros Hwf. apply IH. exact (service_step_request_wf Hstep Hwf).
Qed.

(** The request service stays in one of its two shapes whatever is called. *)
Lemma run_request_wf (op : Operation) (s : State) :
  request_wf s -> request_wf (run op s).
Proof.
  intros Hwf.
  destruct op; try (apply (service_steps_request_wf (s := s));
                    [apply run_service_steps; discriminate|exact Hwf]).
  exact Hwf.
Qed.

(** C6. The list of trusted folders only holds entries with
    [trusted = true]: whatever is in storage, [loadTrustInfo] returns such a
    list, so initialisation establishes the invariant; every operation
    preserves it; [setTrustedFolders] establishes it; and untrusting a URI
    leaves no entry equal to it. *)
Theorem trusted_folders_hold_only_trusted_entries :
  (forall s : State, all_trusted (loadTrustInfo s))
  /\ (forall s : State, all_trusted (_trustStateInfo (run InitializeWorkspaceTrust s)))
  /\ (forall (op : Operation) (s : State),
         all_trusted (_trustStateInfo s) -> all_trusted (_trustStateInfo (run op s)))
  /\ (forall (uris : list URI) (s : State),
         all_trusted (_trustStateInfo (run (SetTrustedFolders uris) s)))
  /\ (forall (u : URI) (s : State),
         Forall (fun e => isEqual (uri e) u = false)
           (_trustStateInfo (run (SetUrisTrust [u] false) s))).
Proof.
  split; [|split; [|split; [|split]]].
  - apply loadTrustInfo_all_trusted.
  - intros s. apply loadTrustInfo_all_trusted.
  - intros op s Hall.
    destruct op; try (apply (service_steps_all_trusted (s := s));
                      [apply run_service_steps; discriminate|exact Hall]).
    exact Hall.
  - intros uris s. cbn [run]. rewrite setTrustedFolders_eq.
    match goal with |- context [updateWorkspaceTrust None ?s0] =>
      destruct (trust_steps_frame (updateWorkspaceTrust_steps None s0)) as (_ & _ & -> & _)
    end.
    cbn. apply setTrustedFolders_all_trusted. constructor.
  - intros u s. cbn [run]. rewrite setUrisTrust_final_trustStateInfo.
    rewrite setUrisTrust_loop_untrust_one.
    apply List.Forall_forall. intros e Hin. apply List.filter_In in Hin as [_ Hne].
    apply negb_true_iff in Hne. exact Hne.
Qed.

(** C7. Assigning [false] (or [undefined]) to [isTrusted] makes the getter
    of [acceptsOutOfWorkspaceFiles] answer [false], whatever it answered
    before; so an operation that takes the workspace from trusted to
    untrusted leaves [acceptsOutOfWorkspaceFiles] false. *)
Theorem untrusted_resets_acceptsOutOfWorkspaceFiles :
  (forall st : WorkspaceTrustState.t,
      WorkspaceTrustState.get_acceptsOutOfWorkspaceFiles
        (WorkspaceTrustState.set_isTrusted (Some false)
           (WorkspaceTrustState.set_acceptsOutOfWorkspaceFiles true st)) = false)
  /\ (forall (value : option bool) (st : WorkspaceTrustState.t),
         default false value = false ->
         WorkspaceTrustState.get_acceptsOutOfWorkspaceFiles
           (WorkspaceTrustState.set_isTrusted value st) = false)
  /\ (forall (op : Operation) (s : State),
         isWorkpaceTrusted s = true ->
         isWorkpaceTrusted (run op s) = false ->
         get_acceptsOutOfWorkspaceFiles (run op s) = false)
  /\ (forall s : State,
         isWorkpaceTrusted (run InitializeWorkspaceTrust s) = false ->
         get_acceptsOutOfWorkspaceFiles (run InitializeWorkspaceTrust s) = false).
Proof.
  split; [|split; [|split]].
  - intros st. apply get_acceptsOutOfWorkspaceFiles_set_isTrusted_falsy. reflexivity.
  - intros value st Hvalue. apply get_acceptsOutOfWorkspaceFiles_set_isTrusted_falsy.
    unfold WorkspaceTrustState.falsy. rewrite Hvalue. reflexivity.
  - intros op s Hbefore Hafter.
    assert (kept_or_reset s (run op s) -> get_acceptsOutOfWorkspaceFiles (run op s) = false)
      as Hcase.
    { intros [Hkept|Hreset]; [|exact (Hreset Hafter)].
      unfold isWorkpaceTrusted in *. rewrite Hkept in Hafter. congruence. }
    destruct op; try (apply Hcase, service_steps_kept_or_reset, run_service_steps; discriminate).
    exfalso. cbn [run] in Hafter.
    unfold isWorkpaceTrusted, set_acceptsOutOfWorkspaceFiles in *. cbn in Hafter.
    rewrite get_isTrusted_set_acceptsOutOfWorkspaceFiles in Hafter. congruence.
  - intros s. cbn [run]. unfold initializeWorkspaceTrust, isWorkpaceTrusted,
      get_acceptsOutOfWorkspaceFiles. cbn.
    rewrite get_isTrusted_set_isTrusted. cbn. intros ->.
    apply get_acceptsOutOfWorkspaceFiles_set_isTrusted_falsy. reflexivity.
Qed.

End Invariants.

(** ** setUrisTrust and getUriTrustInfo together *)

Section TrustedFolderTheorems.
Context {URI : Type} `{ExtUri : IExtUri URI} `{Plat : Platform URI}.
Context {World Error WorkspaceTrustRequestOptions : Type}.

Local Abbreviation Entry := (IWorkspaceTrustUriInfo URI).
Local Abbreviation State := (@State URI World Error WorkspaceTrustRequestOptions).

Lemma filter_none_equal (u : URI) (l : list Entry) :
  existsb (fun e => isEqual (uri e) u) l = false ->
  List.filter (fun trustInfo => negb (isEqual (uri trustInfo) u)) l = l.
Proof.
  induction l as [|e l IH]; cbn; [reflexivity|].
  intros Hex. apply orb_false_iff in Hex as [-> Hrest]. cbn. f_equal. apply IH, Hrest.
Qed.

(** Trusting a URI that has no entry and then untrusting it gives back
    the list as it was. *)
Lemma setUrisTrust_loop_trust_then_untrust (u : URI) (l : list Entry) :
  isEqual u u = true ->
  existsb (fun e => isEqual (uri e) u) l = false ->
  fst (setUrisTrust_loop [u] false (fst (setUrisTrust_loop [u] true l))) = l.
Proof.
  intros Hrefl Hnone.
  rewrite setUrisTrust_loop_untrust_one, setUrisTrust_loop_trust_one, Hnone.
  rewrite List.filter_app. cbn. rewrite Hrefl. cbn.
  rewrite filter_none_equal by exact Hnone. apply app_nil_r.
Qed.

Lemma stored_final_update (s0 : State) :
  storage (final_state (updateWorkspaceTrust None (stored s0))) !! WORKSPACE_TRUST_STORAGE_KEY
  = Some (JSON_stringify (_trustStateInfo s0))
  /\ exists tail,
      events (final_state (updateWorkspaceTrust None (stored s0)))
      = events s0
        ++ StorageStore WORKSPACE_TRUST_STORAGE_KEY (JSON_stringify (_trustStateInfo s0))
           :: DidChangeTrustedFolders :: tail.
Proof.
  destruct (trust_steps_frame (updateWorkspaceTrust_steps None (stored s0)))
    as (_ & Hstorage & _).
  destruct (trust_steps_events (updateWorkspaceTrust_steps None (stored s0)))
    as (tail & Hevents & _).
  split.
  - rewrite Hstorage. cbn. apply lookup_insert_eq.
  - exists tail. rewrite Hevents. cbn. rewrite <- !app_assoc. reflexivity.
Qed.

(** C5. [setUrisTrust] is idempotent: a second [setUrisTrust([u], true)]
    changes nothing at all, the first having added [u] only if no entry was
    equal to it; [setUrisTrust([u], false)] removes every entry equal to
    [u]; and a call saves, announces and recomputes exactly when it changed
    the list, being without any effect otherwise. *)
Theorem setUrisTrust_idempotent_and_saves_only_changes (s : State) (u : URI) :
  let once := final_state (setUrisTrust [u] true s) in
  let twice := final_state (setUrisTrust [u] true once) in
  (isEqual u u = true -> twice = once)
  /\ _trustStateInfo once
     = (if existsb (fun e => isEqual (uri e) u) (_trustStateInfo s)
        then _trustStateInfo s
        else _trustStateInfo s ++ [{| uri := u; trusted := true |}])
  /\ _trustStateInfo (final_state (setUrisTrust [u] false s))
     = List.filter (fun e => negb (isEqual (uri e) u)) (_trustStateInfo s)
  /\ forall (uris : list URI) (trusted : bool),
      let s' := final_state (setUrisTrust uris trusted s) in
      (_trustStateInfo s' = _trustStateInfo s -> setUrisTrust uris trusted s = Fulfilled tt s)
      /\ (_trustStateInfo s' <> _trustStateInfo s ->
          setUrisTrust uris trusted s
          = updateWorkspaceTrust None (stored (with_trustStateInfo (_trustStateInfo s') s))
          /\ storage s' !! WORKSPACE_TRUST_STORAGE_KEY
             = Some (JSON_stringify (_trustStateInfo s'))
          /\ exists tail,
              events s'
              = events s
                ++ StorageStore WORKSPACE_TRUST_STORAGE_KEY (JSON_stringify (_trustStateInfo s'))
                   :: DidChangeTrustedFolders :: tail).
Proof.
  intros once twice. split; [|split; [|split]].
  - intros Hrefl. subst twice. rewrite setUrisTrust_eq. cbn zeta.
    assert (_trustStateInfo once = fst (setUrisTrust_loop [u] true (_trustStateInfo s))) as Honce
        by apply setUrisTrust_final_trustStateInfo.
    rewrite Honce, setUrisTrust_loop_trust_twice by exact Hrefl. cbn [fst snd final_state].
    rewrite <- Honce. apply with_trustStateInfo_same.
  - subst once. rewrite setUrisTrust_final_trustStateInfo. apply setUrisTrust_loop_trust_one.
  - rewrite setUrisTrust_final_trustStateInfo. apply setUrisTrust_loop_untrust_one.
  - intros uris trusted s'.
    assert (_trustStateInfo s' = fst (setUrisTrust_loop uris trusted (_trustStateInfo s))) as Hlist
        by apply setUrisTrust_final_trustStateInfo.
    pose proof (setUrisTrust_loop_changed uris trusted (_trustStateInfo s)) as Hchanged.
    rewrite <- Hlist in Hchanged. split.
    + intros Hsame. rewrite setUrisTrust_eq. cbn zeta.
      destruct (snd (setUrisTrust_loop uris trusted (_trustStateInfo s))).
      * exfalso. apply Hchanged; [reflexivity|exact Hsame].
      * rewrite <- Hlist, Hsame, with_trustStateInfo_same. reflexivity.
    + intros Hdiff. apply Hchanged in Hdiff.
      assert (setUrisTrust uris trusted s
              = updateWorkspaceTrust None (stored (with_trustStateInfo (_trustStateInfo s') s)))
        as Heq.
      { rewrite setUrisTrust_eq. cbn zeta. rewrite Hdiff, <- Hlist. reflexivity. }
      split; [exact Heq|].
      set (L := _trustStateInfo s') in *.
      assert (s' = final_state (updateWorkspaceTrust None (stored (with_trustStateInfo L s))))
        as Hfinal by (unfold s'; rewrite Heq; reflexivity).
      destruct (stored_final_update (with_trustStateInfo L s)) as [Hstorage Hevents].
      rewrite <- Hfinal in Hstorage, Hevents. split; [exact Hstorage|exact Hevents].
Qed.

(** C2. [getUriTrustInfo] answers with an entry that is an
    ancestor-or-equal of the URI and whose path is at least as long as that
    of every other such entry, and with [{trusted: false, uri}] when there
    is none.  With [/a] trusted and the only entry above [/a/b/c], [/a/b/c]
    is matched at [/a]; after [/a/b], which had no entry, is trusted and
    untrusted again, it is matched at [/a] as before. *)
Theorem getUriTrustInfo_longest_match (entries : list Entry) (u : URI) :
  ((forall e, In e entries -> isEqualOrParent u (uri e) = false) ->
   getUriTrustInfo entries u = {| uri := u; trusted := false |})
  /\ ((exists e, In e entries /\ isEqualOrParent u (uri e) = true) ->
      exists e, In e entries /\ isEqualOrParent u (uri e) = true
                /\ (forall e', In e' entries -> isEqualOrParent u (uri e') = true ->
                               String.length (fsPath (uri e'))
                               <= String.length (fsPath (uri e)))
                /\ getUriTrustInfo entries u = e)
  /\ forall (s : State) (a ab abc : URI),
      isEqual ab ab = true ->
      isEqualOrParent abc a = true ->
      In {| uri := a; trusted := true |} (_trustStateInfo s) ->
      (forall e, In e (_trustStateInfo s) -> isEqualOrParent abc (uri e) = true ->
                 e = {| uri := a; trusted := true |}) ->
      existsb (fun e => isEqual (uri e) ab) (_trustStateInfo s) = false ->
      getUriTrustInfo (_trustStateInfo s) abc = {| uri := a; trusted := true |}
      /\ let added := final_state (setUrisTrust [ab] true s) in
         let removed := final_state (setUrisTrust [ab] false added) in
         _trustStateInfo added = _trustStateInfo s ++ [{| uri := ab; trusted := true |}]
         /\ _trustStateInfo removed = _trustStateInfo s
         /\ getUriTrustInfo (_trustStateInfo removed) abc = {| uri := a; trusted := true |}.
Proof.
  split; [apply getUriTrustInfo_no_match|].
  split; [apply getUriTrustInfo_some_match|].
  intros s a ab abc Hrefl Hparent Hin Honly Hex.
  assert (getUriTrustInfo (_trustStateInfo s) abc = {| uri := a; trusted := true |}) as Ha.
  { destruct (getUriTrustInfo_some_match (_trustStateInfo s) abc) as (e & He & Hm & _ & ->).
    - exists {| uri := a; trusted := true |}. split; [exact Hin|exact Hparent].
    - apply Honly; assumption. }
  split; [exact Ha|].
  cbn zeta.
  assert (_trustStateInfo (final_state (setUrisTrust [ab] false
                                          (final_state (setUrisTrust [ab] true s))))
          = _trustStateInfo s) as Hback.
  { rewrite !setUrisTrust_final_trustStateInfo.
    apply setUrisTrust_loop_trust_then_untrust; assumption. }
  split; [|split].
  - rewrite setUrisTrust_final_trustStateInfo, setUrisTrust_loop_trust_one, Hex.
    reflexivity.
  - exact Hback.
  - rewrite Hback. exact Ha.
Qed.

End TrustedFolderTheorems.

(** ** The decision tables *)

Section DecisionTables.
Context {URI : Type} `{ExtUri : IExtUri URI} `{Plat : Platform URI}.
Context {World Error WorkspaceTrustRequestOptions : Type}.

Local Abbreviation Entry := (IWorkspaceTrustUriInfo URI).
Local Abbreviation State := (@State URI World Error WorkspaceTrustRequestOptions).

Lemma getUrisTrust_true_iff (l : list Entry) (uris : list URI) :
  getUrisTrust l uris = true
  <-> forall u, In u uris -> trusted (getUriTrustInfo l u) = true.
Proof.
  induction uris as [|u rest IH]; cbn [getUrisTrust In].
  - split; [intros _ u []|reflexivity].
  - destruct (trusted (getUriTrustInfo l u)) eqn:Hu; cbn [negb].
    + rewrite IH. split.
      * intros Hrest v [<-|Hin]; [exact Hu|apply Hrest, Hin].
      * intros Hall v Hin. apply Hall. right. exact Hin.
    + split; [discriminate|]. intros Hall.
      rewrite <- Hu. apply Hall. left. reflexivity.
Qed.

Lemma In_getWorkspaceUris (s : State) (u : URI) :
  In u (getWorkspaceUris s) <-> is_workspace_uri s u.
Proof.
  unfold getWorkspaceUris, is_workspace_uri.
  destruct (configuration (getWorkspace (host s))) as [c|].
  - destruct (isUntitledWorkspace c) eqn:Hc; cbn.
    + rewrite List.in_map_iff. split.
      * intros (f & <- & Hin). left. exists f. split; [exact Hin|reflexivity].
      * intros [(f & Hin & ->)|(c' & Hc' & Hun & _)].
        -- exists f. split; [reflexivity|exact Hin].
        -- congruence.
    + rewrite List.in_app_iff, List.in_map_iff. cbn. split.
      * intros [(f & <- & Hin)|[<-|[]]].
        -- left. exists f. split; [exact Hin|reflexivity].
        -- right. exists c. repeat split. exact Hc.
      * intros [(f & Hin & ->)|(c' & Hc' & Hun & ->)].
        -- left. exists f. split; [reflexivity|exact Hin].
        -- right. left. congruence.
  - rewrite List.in_map_iff. split.
    + intros (f & <- & Hin). left. exists f. split; [exact Hin|reflexivity].
    + intros [(f & Hin & ->)|(c' & Hc' & _)]; [|discriminate].
      exists f. split; [reflexivity|exact Hin].
Qed.

Lemma WorkbenchState_eqb_eq (a b : WorkbenchState) :
  WorkbenchState_eqb a b = true <-> a = b.
Proof. destruct a, b; cbn; split; congruence. Qed.

Lemma WorkbenchState_eqb_neq (a b : WorkbenchState) :
  WorkbenchState_eqb a b = false <-> a <> b.
Proof. destruct a, b; cbn; split; congruence. Qed.

(** C1. [calculateWorkspaceTrust] is a decision table read in order:
    trust disabled, extension test host, remote workspace, empty workspace,
    and otherwise all workspace URIs trusted. *)
Theorem calculateWorkspaceTrust_decision_table (s : State) :
  let enabled := isWorkspaceTrustEnabled (configurationService (host s)) in
  let testHost := extensionTestsLocationURI (host s) in
  let remote := truthy_string (remoteAuthority (host s)) in
  (enabled = false -> calculateWorkspaceTrust s = true)
  /\ (enabled = true -> is_Some testHost -> calculateWorkspaceTrust s = true)
  /\ (enabled = true -> testHost = None -> remote = true ->
      (forall r o b, _remoteAuthority s = Some r -> options r = Some o ->
                     isTrusted o = Some b -> calculateWorkspaceTrust s = b)
      /\ (_remoteAuthority s = None -> calculateWorkspaceTrust s = false)
      /\ (forall r, _remoteAuthority s = Some r -> options r = None ->
                    calculateWorkspaceTrust s = false)
      /\ (forall r o, _remoteAuthority s = Some r -> options r = Some o ->
                      isTrusted o = None -> calculateWorkspaceTrust s = false))
  /\ (enabled = true -> testHost = None -> remote = false ->
      getWorkbenchState (host s) = EMPTY ->
      (forall b, WorkspaceTrustState.get_isTrusted (_trustState s) = Some b ->
                 calculateWorkspaceTrust s = b)
      /\ (WorkspaceTrustState.get_isTrusted (_trustState s) = None ->
          calculateWorkspaceTrust s = false))
  /\ (enabled = true -> testHost = None -> remote = false ->
      getWorkbenchState (host s) <> EMPTY ->
      (calculateWorkspaceTrust s = true
       <-> forall u, is_workspace_uri s u ->
                     trusted (getUriTrustInfo (_trustStateInfo s) u) = true)).
Proof.
  cbn zeta. unfold calculateWorkspaceTrust.
  split; [|split; [|split; [|split]]].
  - intros ->. reflexivity.
  - intros -> Htest. cbn. rewrite bool_decide_true by exact Htest. reflexivity.
  - intros -> Htest Hremote. cbn. rewrite Htest, Hremote. cbn.
    unfold remoteAuthority_isTrusted.
    split; [|split; [|split]].
    + intros r o b -> Ho Hb. cbn. rewrite Ho. cbn. rewrite Hb. reflexivity.
    + intros ->. reflexivity.
    + intros r -> Ho. cbn. rewrite Ho. reflexivity.
    + intros r o -> Ho Hb. cbn. rewrite Ho. cbn. rewrite Hb. reflexivity.
  - intros -> Htest Hremote Hempty. cbn. rewrite Htest, Hremote, Hempty. cbn.
    split; [intros b ->|intros ->]; reflexivity.
  - intros -> Htest Hremote Hnonempty. cbn. rewrite Htest, Hremote. cbn.
    apply WorkbenchState_eqb_neq in Hnonempty. rewrite Hnonempty.
    rewrite getUrisTrust_true_iff. split.
    + intros Hall u Hu. apply Hall, In_getWorkspaceUris, Hu.
    + intros Hall u Hu. apply Hall, In_getWorkspaceUris, Hu.
Qed.

(** C4. [canSetWorkspaceTrust], read in order: refused when the remote
    authority decides; else allowed in an empty workspace; else allowed while
    the workspace is untrusted; else, for a trusted workspace, allowed exactly
    when it is a single local folder whose own entry is the one that matches
    it and whose parent folder is not trusted. *)
Theorem canSetWorkspaceTrust_decision_table (s : State) :
  (remote_decides s -> canSetWorkspaceTrust s = false)
  /\ (~ remote_decides s -> getWorkbenchState (host s) = EMPTY ->
      canSetWorkspaceTrust s = true)
  /\ (~ remote_decides s -> getWorkbenchState (host s) <> EMPTY ->
      isWorkpaceTrusted s = false -> canSetWorkspaceTrust s = true)
  /\ (~ remote_decides s -> getWorkbenchState (host s) <> EMPTY ->
      isWorkpaceTrusted s = true ->
      (canSetWorkspaceTrust s = true
       <-> exists folderUri,
            toWorkspaceIdentifier (getWorkspace (host s))
            = SingleFolderWorkspaceIdentifier folderUri
            /\ scheme folderUri = Schemas_file
            /\ trusted (getUriTrustInfo (_trustStateInfo s) folderUri) = true
            /\ isEqual folderUri (uri (getUriTrustInfo (_trustStateInfo s) folderUri)) = true
            /\ trusted (getUriTrustInfo (_trustStateInfo s)
                          (URI_file (splitName_parentPath (fsPath folderUri)))) = false)).
Proof.
  assert (forall b : bool,
             (truthy_string (remoteAuthority (host s))
              && (negb (bool_decide (is_Some (_remoteAuthority s)))
                  || bool_decide (is_Some (remoteAuthority_isTrusted s))) = true)
             <-> remote_decides s) as Hguard.
  { intros _. unfold remote_decides.
    rewrite andb_true_iff, orb_true_iff, negb_true_iff, bool_decide_eq_false,
      bool_decide_eq_true.
    rewrite <- eq_None_not_Some. reflexivity. }
  specialize (Hguard true).
  unfold canSetWorkspaceTrust.
  destruct (truthy_string (remoteAuthority (host s))
            && (negb (bool_decide (is_Some (_remoteAuthority s)))
                || bool_decide (is_Some (remoteAuthority_isTrusted s)))) eqn:Hg.
  { assert (remote_decides s) as Hdec by (apply Hguard; reflexivity).
    split; [reflexivity|]. repeat split; intros; contradiction. }
  assert (~ remote_decides s) as Hnot by (rewrite <- Hguard; discriminate).
  split; [intros Hdec; contradiction|].
  split; [intros _ ->; reflexivity|].
  split.
  { intros _ Hne ->. apply WorkbenchState_eqb_neq in Hne. rewrite Hne. reflexivity. }
  intros _ Hne ->. apply WorkbenchState_eqb_neq in Hne. rewrite Hne. cbn [negb].
  unfold canSetParentFolderTrust.
  destruct (toWorkspaceIdentifier (getWorkspace (host s))) as [folderUri|configPath|].
  - destruct (String.eqb_spec (scheme folderUri) Schemas_file) as [Hfile|Hother]; cbn [negb].
    + destruct (trusted (getUriTrustInfo (_trustStateInfo s) folderUri)) eqn:Ht; cbn.
      * destruct (isEqual folderUri (uri (getUriTrustInfo (_trustStateInfo s) folderUri)))
          eqn:He; cbn.
        -- destruct (trusted (getUriTrustInfo (_trustStateInfo s)
                                (URI_file (splitName_parentPath (fsPath folderUri))))) eqn:Hp.
           ++ split; [discriminate|]. intros (f & [= <-] & _ & _ & _ & Hp'). congruence.
           ++ split; [|reflexivity]. intros _. exists folderUri. repeat split; assumption.
        -- split; [discriminate|]. intros (f & [= <-] & _ & _ & He' & _). congruence.
      * split; [discriminate|]. intros (f & [= <-] & _ & Ht' & _). congruence.
    + split; [discriminate|]. intros (f & [= <-] & Hfile & _). contradiction.
  - split; [discriminate|]. intros (f & Hf & _). discriminate.
  - split; [discriminate|]. intros (f & Hf & _). discriminate.
Qed.

End DecisionTables.

(** ** The modal trust request *)

Section RequestFacts.
Context {URI : Type} `{ExtUri : IExtUri URI} `{Plat : Platform URI}.
Context {World Error WorkspaceTrustRequestOptions : Type}.

Local Abbreviation State := (@State URI World Error WorkspaceTrustRequestOptions).

Lemma request_pending_transported (s s' : State) (p : nat) :
  _modalTrustRequestPromise (requestService s') = _modalTrustRequestPromise (requestService s) ->
  _modalTrustRequestResolver (requestService s') = _modalTrustRequestResolver (requestService s) ->
  promises (requestService s') = promises (requestService s) ->
  request_pending s p -> request_pending s' p.
Proof. unfold request_pending. intros -> -> ->. tauto. Qed.

Lemma updateWorkspaceTrust_request_pending (arg : option bool) (s : State) (p : nat) :
  request_pending s p -> request_pending (final_state (updateWorkspaceTrust arg s)) p.
Proof.
  destruct (trust_steps_frame (updateWorkspaceTrust_steps arg s))
    as (_ & _ & _ & _ & _ & Hpromise & Hresolver & Hpromises).
  apply request_pending_transported; assumption.
Qed.

Lemma setUrisTrust_request_pending (uris : list URI) (trusted : bool) (s : State) (p : nat) :
  request_pending s p -> request_pending (final_state (setUrisTrust uris trusted s)) p.
Proof.
  intros Hp. rewrite setUrisTrust_eq. cbn zeta.
  destruct (snd _); [|exact Hp].
  apply updateWorkspaceTrust_request_pending. exact Hp.
Qed.

Lemma setWorkspaceTrust_request_pending (trusted : bool) (s : State) (p : nat) :
  request_pending s p -> request_pending (final_state (setWorkspaceTrust trusted s)) p.
Proof.
  intros Hp. unfold setWorkspaceTrust, await, read.
  destruct (WorkbenchState_eqb _ _).
  - apply updateWorkspaceTrust_request_pending, Hp.
  - apply setUrisTrust_request_pending, Hp.
Qed.

Lemma settle_pending (p : nat) (value : option bool) (ps : list PromiseState) :
  ps !! p = Some Pending -> settle p value ps !! p = Some (Settled value).
Proof.
  intros Hp. unfold settle. rewrite Hp.
  apply list_lookup_insert_eq. eapply lookup_lt_Some, Hp.
Qed.

Lemma resolveRequest_received (trusted : option bool) (s : State) (p : nat) :
  request_pending s p ->
  received (Follows p) (resolveRequest trusted s)
  = Some (Some (default (_trusted (requestService s)) trusted))
  /\ request_idle (resolveRequest trusted s).
Proof.
  intros (_ & Hresolver & Hpending). unfold resolveRequest, received. rewrite Hresolver. cbn.
  rewrite settle_pending by exact Hpending. split; [reflexivity|split; reflexivity].
Qed.

(** A first request on an untrusted workspace, whether or not one was
    already pending. *)
Lemma requestWorkspaceTrust_first
    (options : option WorkspaceTrustRequestOptions) (s : State) :
  _trusted (requestService s) = false ->
  request_idle s \/ (exists p, request_pending s p) ->
  exists p s1,
    requestWorkspaceTrust options s = Fulfilled (Follows p) s1
    /\ request_pending s1 p
    /\ _trusted (requestService s1) = false
    /\ (request_idle s ->
        p = length (promises (requestService s))
        /\ events s1 = events s ++ [DidInitiateWorkspaceTrustRequest options])
    /\ ((exists q, request_pending s q) -> s1 = s).
Proof.
  intros Huntrusted [[Hpromise Hresolver]|(p & Hpromise & Hresolver & Hpending)];
    unfold requestWorkspaceTrust; rewrite Huntrusted, Hpromise.
  - eexists _, _. split; [reflexivity|]. split; [|split; [|split]].
    + split; [reflexivity|]. split; [reflexivity|]. cbn.
      apply list_lookup_middle. reflexivity.
    + reflexivity.
    + intros _. split; reflexivity.
    + intros (q & Hq & _). congruence.
  - exists p, s. split; [reflexivity|]. split; [|split; [|split]].
    + split; [exact Hpromise|]. split; [exact Hresolver|exact Hpending].
    + exact Huntrusted.
    + intros [Hidle _]. congruence.
    + reflexivity.
Qed.

(** C8. When the workspace is trusted the request is answered [true] at
    once; when a request is pending the pending promise is handed out again
    and nothing else happens; so of two requests made in a row the second
    leaves the state as the first left it, at most one initiate-request
    signal is sent, and once the request is completed both callers receive
    the same value. *)
Theorem requestWorkspaceTrust_coalesces
    (s : State) (options1 options2 : option WorkspaceTrustRequestOptions) :
  (_trusted (requestService s) = true ->
   requestWorkspaceTrust options1 s = Fulfilled (FulfilledWith true) s)
  /\ (forall p, _trusted (requestService s) = false ->
                _modalTrustRequestPromise (requestService s) = Some p ->
                requestWorkspaceTrust options1 s = Fulfilled (Follows p) s)
  /\ (_trusted (requestService s) = false ->
      request_wf s ->
      exists first second s1,
        requestWorkspaceTrust options1 s = Fulfilled first s1
        /\ requestWorkspaceTrust options2 s1 = Fulfilled second s1
        /\ first = second
        /\ (events s1 = events s
            \/ events s1 = events s ++ [DidInitiateWorkspaceTrustRequest options1])
        /\ received first s1 = None
        /\ forall (trusted : option bool) (s2 : State),
            completeRequest trusted s1 = Fulfilled tt s2 ->
            received first s2 = Some (Some (default false trusted))
            /\ received second s2 = Some (Some (default false trusted))).
Proof.
  split; [|split].
  - intros Htrusted. unfold requestWorkspaceTrust. rewrite Htrusted. reflexivity.
  - intros p Huntrusted Hpromise. unfold requestWorkspaceTrust.
    rewrite Huntrusted, Hpromise. reflexivity.
  - intros Huntrusted Hwf.
    destruct (requestWorkspaceTrust_first options1 Huntrusted Hwf)
      as (p & s1 & Hfirst & Hpending & Huntrusted1 & Hidle & Hwas).
    exists (Follows p), (Follows p), s1.
    split; [exact Hfirst|]. split; [|split; [reflexivity|split; [|split]]].
    + unfold requestWorkspaceTrust. rewrite Huntrusted1.
      destruct Hpending as (-> & _). reflexivity.
    + destruct Hwf as [Hi|Hp]; [right; apply Hidle, Hi|left; rewrite (Hwas Hp); reflexivity].
    + unfold received. destruct Hpending as (_ & _ & ->). reflexivity.
    + intros trusted s2 Hcomplete.
      assert (received (Follows p) s2 = Some (Some (default false trusted))) as Hvalue.
      { rewrite completeRequest_eq in Hcomplete. rewrite Huntrusted1 in Hcomplete.
        destruct trusted as [[|]|]; cbn [Bool.eqb] in Hcomplete.
        - pose proof (setWorkspaceTrust_request_pending true Hpending) as Hstill.
          destruct (setWorkspaceTrust true s1) as [[] s1'|e s1']; [|discriminate].
          injection Hcomplete as <-. cbn in Hstill.
          apply (resolveRequest_received (Some true) Hstill).
        - injection Hcomplete as <-.
          apply (resolveRequest_received (Some false) Hpending).
        - injection Hcomplete as <-.
          destruct (resolveRequest_received None Hpending) as [-> _].
          rewrite Huntrusted1. reflexivity. }
      split; exact Hvalue.
Qed.

(** C9. [cancelRequest] settles the pending promise with [undefined], a
    value that is neither [true] nor [false], and forgets promise and
    resolver; the next request on an untrusted workspace therefore makes a
    new promise and signals again. *)
Theorem cancelRequest_resolves_undefined_and_clears
    (s : State) (p : nat) (options : option WorkspaceTrustRequestOptions) :
  request_pending s p ->
  received (Follows p) (cancelRequest s) = Some None
  /\ (forall b : bool, received (Follows p) (cancelRequest s) <> Some (Some b))
  /\ request_idle (cancelRequest s)
  /\ (_trusted (requestService s) = false ->
      exists q s',
        requestWorkspaceTrust options (cancelRequest s) = Fulfilled (Follows q) s'
        /\ q <> p
        /\ request_pending s' q
        /\ received (Follows q) s' = None
        /\ received (Follows p) s' = Some None
        /\ events s' = events s ++ [DidInitiateWorkspaceTrustRequest options]).
Proof.
  intros (Hpromise & Hresolver & Hpending).
  assert (received (Follows p) (cancelRequest s) = Some None) as Hcancelled.
  { unfold cancelRequest, received. rewrite Hresolver. cbn.
    rewrite settle_pending by exact Hpending. reflexivity. }
  assert (request_idle (cancelRequest s)) as Hidle.
  { unfold cancelRequest. rewrite Hresolver. split; reflexivity. }
  split; [exact Hcancelled|]. split; [rewrite Hcancelled; discriminate|].
  split; [exact Hidle|].
  intros Huntrusted.
  assert (_trusted (requestService (cancelRequest s)) = false) as Huntrusted'.
  { unfold cancelRequest. rewrite Hresolver. exact Huntrusted. }
  destruct (requestWorkspaceTrust_first options Huntrusted' (or_introl Hidle))
    as (q & s' & Hrequest & Hq & _ & Hnew & _).
  destruct (Hnew Hidle) as [Hfresh Hevents].
  assert (length (promises (requestService (cancelRequest s)))
          = length (promises (requestService s))) as Hlen.
  { unfold cancelRequest. rewrite Hresolver. cbn. unfold settle. rewrite Hpending.
    apply length_insert. }
  assert (p < length (promises (requestService s))) as Hlt
      by (eapply lookup_lt_Some, Hpending).
  exists q, s'. split; [exact Hrequest|]. split; [lia|]. split; [exact Hq|].
  split; [|split].
  - unfold received. destruct Hq as (_ & _ & ->). reflexivity.
  - revert Hrequest. unfold requestWorkspaceTrust. rewrite Huntrusted'.
    destruct Hidle as [-> _]. intros [= _ <-].
    revert Hcancelled. unfold received. cbn.
    rewrite lookup_app_l by lia. tauto.
  - rewrite Hevents. unfold cancelRequest. rewrite Hresolver. reflexivity.
Qed.

End RequestFacts.

(** ** The services at work on the concrete platform *)

Module PosixExamples.
Import Posix.

(** The cases of the [isEqualOrParent] test of the resources suite that
    concern case-sensitive file paths. *)
Example isEqualOrParent_cases :
  isEqualOrParent (file "/foo/bar") (file "/foo/bar") = true
  /\ isEqualOrParent (file "/foo/bar") (file "/foo") = true
  /\ isEqualOrParent (file "/foo/bar") (file "/Foo/") = false
  /\ isEqualOrParent (file "/foo") (file "/foo/bar") = false
  /\ isEqualOrParent (file "/foobar") (file "/foo") = false.
Proof. repeat split; reflexivity. Qed.

(** An empty window without memento is untrusted; [setWorkspaceTrust(true)]
    makes it trusted and fires [onDidChangeTrust] once, with [true]. *)
Example empty_window_becomes_trusted :
  isWorkpaceTrusted emptyWindow = false
  /\ isWorkpaceTrusted (run (SetWorkspaceTrust true) emptyWindow) = true
  /\ events (run (SetWorkspaceTrust true) emptyWindow) = [DidChangeTrust true].
Proof. repeat split; vm_compute; reflexivity. Qed.

(** With [/a] and [/a/b] trusted, [/a/b/c] is matched at [/a/b]. *)
Example longest_of_two :
  getUriTrustInfo [trustedEntry a; trustedEntry ab] abc = trustedEntry ab
  /\ getUriTrustInfo [trustedEntry ab; trustedEntry a] abc = trustedEntry ab.
Proof. split; reflexivity. Qed.

(** What the codec of the platform writes can be read back. *)
Example stored_folders_read_back :
  loadTrustInfo (run (SetUrisTrust [a; ab] true) emptyWindow)
  = [trustedEntry a; trustedEntry ab].
Proof. vm_compute. reflexivity. Qed.

Lemma calculateWorkspaceTrust_decision_table_witness :
  calculateWorkspaceTrust projFolder = true.
Proof.
  apply (proj2 (proj2 (proj2 (proj2 (calculateWorkspaceTrust_decision_table projFolder)))));
    [reflexivity|reflexivity|reflexivity|discriminate|].
  intros u [(folder & [<-|[]] & ->)|(workspaceFile & Hfile & _)];
    [reflexivity|discriminate].
Defined.

Lemma getUriTrustInfo_longest_match_witness :
  getUriTrustInfo (_trustStateInfo onlyA) abc = trustedEntry a
  /\ _trustStateInfo (run (SetUrisTrust [ab] true) onlyA) = [trustedEntry a; trustedEntry ab]
  /\ getUriTrustInfo
       (_trustStateInfo (run (SetUrisTrust [ab] false) (run (SetUrisTrust [ab] true) onlyA)))
       abc = trustedEntry a.
Proof.
  destruct (getUriTrustInfo_longest_match
              (World := World) (Error := Error) (WorkspaceTrustRequestOptions := Options)
              [trustedEntry a] abc)
    as (_ & _ & Hmatch).
  assert (forall e, In e (_trustStateInfo onlyA) -> isEqualOrParent abc (uri e) = true ->
                    e = trustedEntry a) as Honly
      by (intros e [<-|[]] _; reflexivity).
  destruct (Hmatch onlyA a ab abc eq_refl eq_refl (or_introl eq_refl) Honly eq_refl)
    as (Hbefore & Hadded & _ & Hafter).
  split; [exact Hbefore|]. split; [exact Hadded|exact Hafter].
Defined.

Lemma participants_run_in_order_fail_fast_witness :
  exists s', updateWorkspaceTrust (Some true) twoParticipants = Rejected "boom" s'
             /\ world s' = ["first"]
             /\ events s' = [Participate 0 true].
Proof.
  destruct (participants_run_in_order_fail_fast (Some true) twoParticipants)
    as (_ & Horder).
  destruct (Horder [] [] eq_refl (fulfil_nil _ _)) as (_ & Hfail).
  destruct (Hfail (0, thrower) [(1, logger)] ["first"] "boom" eq_refl eq_refl)
    as (s' & Hreject & Hworld & Hevents & _).
  exists s'. split; [exact Hreject|]. split; [exact Hworld|exact Hevents].
Defined.

Lemma canSetWorkspaceTrust_decision_table_witness :
  canSetWorkspaceTrust trustedProjFolder = true.
Proof.
  apply (proj2 (proj2 (proj2 (canSetWorkspaceTrust_decision_table trustedProjFolder)))).
  - intros [Hremote _]. discriminate.
  - discriminate.
  - vm_compute. reflexivity.
  - exists proj. repeat split; vm_compute; reflexivity.
Defined.

Lemma setUrisTrust_idempotent_and_saves_only_changes_witness :
  isEqual ab ab = true
  /\ run (SetUrisTrust [ab] true) (run (SetUrisTrust [ab] true) onlyA)
     = run (SetUrisTrust [ab] true) onlyA.
Proof.
  split; [reflexivity|].
  pose proof (setUrisTrust_idempotent_and_saves_only_changes onlyA ab) as Hidem.
  exact (proj1 Hidem eq_refl).
Defined.

Lemma trusted_folders_hold_only_trusted_entries_witness :
  all_trusted (_trustStateInfo (run (SetUrisTrust [ab] true) onlyA)).
Proof.
  apply (proj1 (proj2 (proj2
           (trusted_folders_hold_only_trusted_entries
              (URI := Uri) (World := World) (Error := Error)
              (WorkspaceTrustRequestOptions := Options))))).
  repeat constructor.
Defined.

Lemma untrusted_resets_acceptsOutOfWorkspaceFiles_witness :
  get_acceptsOutOfWorkspaceFiles acceptingWindow = true
  /\ get_acceptsOutOfWorkspaceFiles (run (SetWorkspaceTrust false) acceptingWindow) = false.
Proof.
  split; [reflexivity|].
  apply (proj1 (proj2 (proj2
           (untrusted_resets_acceptsOutOfWorkspaceFiles
              (URI := Uri) (World := World) (Error := Error)
              (WorkspaceTrustRequestOptions := Options))))).
  - vm_compute. reflexivity.
  - vm_compute. reflexivity.
Defined.

Lemma requestWorkspaceTrust_coalesces_witness :
  exists first second s1,
    requestWorkspaceTrust (Some "install") emptyWindow = Fulfilled first s1
    /\ requestWorkspaceTrust (Some "debug") s1 = Fulfilled second s1
    /\ first = second
    /\ forall s2, completeRequest (Some true) s1 = Fulfilled tt s2 ->
                  received first s2 = Some (Some true)
                  /\ received second s2 = Some (Some true).
Proof.
  destruct (requestWorkspaceTrust_coalesces emptyWindow (Some "install") (Some "debug"))
    as (_ & _ & Htwo).
  destruct (Htwo eq_refl (or_introl (conj eq_refl eq_refl) : request_wf emptyWindow))
    as (first & second & s1 & H1 & H2 & Hsame & _ & _ & Hcomplete).
  exists first, second, s1. split; [exact H1|]. split; [exact H2|]. split; [exact Hsame|].
  intros s2 Hs2. exact (Hcomplete (Some true) s2 Hs2).
Defined.

Lemma cancelRequest_resolves_undefined_and_clears_witness :
  request_pending asking 0
  /\ received (Follows 0) (cancelRequest asking) = Some None
  /\ request_idle (cancelRequest asking).
Proof.
  assert (request_pending asking 0) as Hpending by (repeat split; reflexivity).
  destruct (cancelRequest_resolves_undefined_and_clears (Some "again") Hpending)
    as (Hundefined & _ & Hidle & _).
  split; [exact Hpending|]. split; [exact Hundefined|exact Hidle].
Defined.

Lemma trust_assigned_before_participants_not_rolled_back_witness :
  is_rejected (updateWorkspaceTrust (Some true) twoParticipants) = true
  /\ isWorkpaceTrusted (final_state (updateWorkspaceTrust (Some true) twoParticipants)) = true.
Proof.
  pose proof (trust_assigned_before_participants_not_rolled_back
                (Some true) twoParticipants (t := true) (before := [])
                (0, thrower) [(1, logger)]
                (w1 := []) (w2 := ["first"]) (e := "boom")) as Hkept.
  destruct (Hkept eq_refl eq_refl eq_refl (fulfil_nil _ _) eq_refl)
    as (_ & _ & Hrejected & Htrusted & _).
  split; [exact Hrejected|exact Htrusted].
Defined.

End PosixExamples.

(** * Further properties of the services *)

(** ** Storage: loading, saving and the storage listener *)

Section StorageFacts.
Context {URI : Type} `{ExtUri : IExtUri URI} `{Plat : Platform URI}.
Context {World Error WorkspaceTrustRequestOptions : Type}.

Local Abbreviation Entry := (IWorkspaceTrustUriInfo URI).
Local Abbreviation State := (@State URI World Error WorkspaceTrustRequestOptions).







End StorageFacts.

(** ** Batches of trusted folders *)

Section BatchFacts.
Context {URI : Type} `{ExtUri : IExtUri URI} `{Plat : Platform URI}.
Context {World Error WorkspaceTrustRequestOptions : Type}.

Local Abbreviation Entry := (IWorkspaceTrustUriInfo URI).
Local Abbreviation State := (@State URI World Error WorkspaceTrustRequestOptions).

Lemma ForallOrdPairs_snoc {A} (R : A -> A -> Prop) (l : list A) (x : A) :
  ForallOrdPairs R l -> Forall (fun y => R y x) l -> ForallOrdPairs R (l ++ [x]).
Proof.
  induction 1 as [|y l Hy _ IH]; cbn; intros Hall.
  - constructor; constructor.
  - inversion Hall as [|? ? Hyx Hrest]; subst. constructor.
    + apply Forall_app. split; [exact Hy|]. constructor; [exact Hyx|constructor].
    + apply IH, Hrest.
Qed.

Lemma existsb_false_Forall (u : URI) (l : list Entry) :
  existsb (fun addedUri => isEqual (uri addedUri) u) l = false ->
  Forall (fun y => isEqual (uri y) u = false) l.
Proof.
  induction l as [|e l IH]; cbn; [constructor|].
  intros Hex. apply orb_false_iff in Hex as [He Hrest]. constructor; [exact He|apply IH, Hrest].
Qed.

(** The invariant of the outer loop of [setTrustedFolders]. *)
Lemma setTrustedFolders_fold_spec (uris : list URI) :
  forall acc : list Entry,
    ForallOrdPairs (fun e1 e2 => isEqual (uri e1) (uri e2) = false) acc ->
    let l := fold_left setTrustedFolders_step uris acc in
    ForallOrdPairs (fun e1 e2 => isEqual (uri e1) (uri e2) = false) l
    /\ (forall e, In e l ->
                  In e acc
                  \/ (trusted e = true
                      /\ exists u, In u uris /\ uri e = removeTrailingPathSeparator u))
    /\ (forall e, In e acc -> In e l)
    /\ length l <= length acc + length uris
    /\ forall u, In u uris ->
                 isEqual (removeTrailingPathSeparator u) (removeTrailingPathSeparator u) = true ->
                 has_entry l (removeTrailingPathSeparator u) = true.
Proof.
  induction uris as [|u rest IH]; intros acc Hacc; cbn [fold_left].
  - cbn zeta. split; [exact Hacc|]. split; [tauto|]. split; [tauto|]. split; [lia|].
    intros u [].
  - set (acc1 := setTrustedFolders_step acc u).
    assert (ForallOrdPairs (fun e1 e2 : Entry => isEqual (uri e1) (uri e2) = false) acc1
            /\ (forall e, In e acc1 ->
                          In e acc \/ (trusted e = true
                                       /\ uri e = removeTrailingPathSeparator u))
            /\ (forall e, In e acc -> In e acc1)
            /\ length acc1 <= S (length acc)
            /\ (isEqual (removeTrailingPathSeparator u) (removeTrailingPathSeparator u) = true ->
                has_entry acc1 (removeTrailingPathSeparator u) = true))
      as (Hord & Hfrom & Hkeep & Hlen & Hhas).
    { unfold acc1, setTrustedFolders_step, has_entry.
      destruct (existsb (fun addedUri : Entry =>
                           isEqual (uri addedUri) (removeTrailingPathSeparator u)) acc) eqn:Hex.
      - split; [exact Hacc|]. split; [tauto|]. split; [tauto|]. split; [lia|].
        intros _. exact Hex.
      - split; [apply ForallOrdPairs_snoc; [exact Hacc|apply existsb_false_Forall, Hex]|].
        split.
        { intros e Hin. apply in_app_or in Hin as [Hin|[<-|[]]]; [left; exact Hin|].
          right. split; reflexivity. }
        split; [intros e Hin; apply in_or_app; left; exact Hin|].
        split; [rewrite length_app; cbn; lia|].
        intros Hrefl. rewrite existsb_app. cbn. rewrite Hrefl. apply orb_true_iff.
        right. reflexivity. }
    destruct (IH acc1 Hord) as (Hord' & Hfrom' & Hkeep' & Hlen' & Hhas').
    cbn zeta. split; [exact Hord'|]. split; [|split; [|split]].
    + intros e Hin. destruct (Hfrom' e Hin) as [Hin1|(Ht & v & Hv & Huri)].
      * destruct (Hfrom e Hin1) as [Hin0|[Ht Huri]]; [left; exact Hin0|].
        right. split; [exact Ht|]. exists u. split; [left; reflexivity|exact Huri].
      * right. split; [exact Ht|]. exists v. split; [right; exact Hv|exact Huri].
    + intros e Hin. apply Hkeep', Hkeep, Hin.
    + cbn [length]. lia.
    + intros v [<-|Hv] Hrefl; [|apply Hhas'; assumption].
      specialize (Hhas Hrefl). unfold has_entry in *.
      apply existsb_exists in Hhas as (e & Hin & He).
      apply existsb_exists. exists e. split; [apply Hkeep', Hin|exact He].
Qed.

(** X4. [setTrustedFolders] forgets the previous list and builds a new one
    from the given URIs without their trailing separators: every entry is
    trusted and comes from one of them, no entry equals an earlier one, every
    given URI is represented, and the list is saved and announced even when
    it is the list that was there before. *)
Theorem setTrustedFolders_replaces_and_deduplicates (uris : list URI) (s : State) :
  let s' := final_state (setTrustedFolders uris s) in
  let l := _trustStateInfo s' in
  (forall s0 : State, _trustStateInfo (final_state (setTrustedFolders uris s0)) = l)
  /\ ForallOrdPairs (fun e1 e2 => isEqual (uri e1) (uri e2) = false) l
  /\ (forall e, In e l ->
                trusted e = true
                /\ exists u, In u uris /\ uri e = removeTrailingPathSeparator u)
  /\ length l <= length uris
  /\ (forall u, In u uris ->
                isEqual (removeTrailingPathSeparator u) (removeTrailingPathSeparator u) = true ->
                has_entry l (removeTrailingPathSeparator u) = true)
  /\ storage s' !! WORKSPACE_TRUST_STORAGE_KEY = Some (JSON_stringify l)
  /\ exists tail,
      events s'
      = events s ++ StorageStore WORKSPACE_TRUST_STORAGE_KEY (JSON_stringify l)
                    :: DidChangeTrustedFolders :: tail.
Proof.
  cbn zeta.
  assert (forall s0 : State,
             _trustStateInfo (final_state (setTrustedFolders uris s0))
             = fold_left setTrustedFolders_step uris []) as Hlist.
  { intros s0. rewrite setTrustedFolders_eq.
    match goal with |- context [updateWorkspaceTrust None ?st] =>
      destruct (trust_steps_frame (updateWorkspaceTrust_steps None st)) as (_ & _ & -> & _)
    end. reflexivity. }
  destruct (setTrustedFolders_fold_spec uris (acc := [])) as (Hord & Hfrom & _ & Hlen & Hhas);
    [constructor|].
  rewrite Hlist. split; [intros s0; apply Hlist|]. split; [exact Hord|].
  split; [|split; [|split]].
  - intros e Hin. destruct (Hfrom e Hin) as [[]|Hok]. exact Hok.
  - exact Hlen.
  - exact Hhas.
  - rewrite setTrustedFolders_eq.
    exact (stored_final_update
             (with_trustStateInfo (fold_left setTrustedFolders_step uris []) s)).
Qed.

Lemma filter_filter {A} (f g : A -> bool) (l : list A) :
  List.filter g (List.filter f l) = List.filter (fun x => f x && g x) l.
Proof.
  induction l as [|x l IH]; cbn; [reflexivity|].
  destruct (f x); cbn; [destruct (g x); cbn; rewrite IH; reflexivity|exact IH].
Qed.

Lemma setUrisTrust_loop_untrust (uris : list URI) :
  forall (l : list Entry) (c : bool),
    fst (fold_left (setUrisTrust_step false) uris (l, c))
    = List.filter (fun e => forallb (fun u => negb (isEqual (uri e) u)) uris) l.
Proof.
  induction uris as [|u rest IH]; intros l c; cbn [fold_left forallb].
  - cbn. induction l as [|e l IHl]; cbn; [reflexivity|]. f_equal. exact IHl.
  - unfold setUrisTrust_step at 2.
    destruct (negb _); rewrite IH; apply filter_filter.
Qed.

Lemma setUrisTrust_loop_trust (uris : list URI) :
  forall (l : list Entry) (c : bool),
    exists added,
      fst (fold_left (setUrisTrust_step true) uris (l, c)) = l ++ added
      /\ Forall (fun e => trusted e = true /\ In (uri e) uris) added
      /\ forall u, In u uris -> isEqual u u = true ->
                   has_entry (l ++ added) u = true.
Proof.
  induction uris as [|u rest IH]; intros l c; cbn [fold_left].
  - exists []. split; [symmetry; apply app_nil_r|]. split; [constructor|]. intros u [].
  - unfold setUrisTrust_step at 2.
    destruct (List.find (fun trustInfo : Entry => isEqual (uri trustInfo) u) l) as [e|] eqn:Hfind;
      cbn [bool_decide decide_rel].
    + rewrite bool_decide_true by (eexists; reflexivity).
      destruct (IH l c) as (added & Heq & Hadded & Hhas).
      exists added. split; [exact Heq|]. split.
      * eapply Forall_impl; [exact Hadded|]. cbn. intros x [Hx Hin]. split; [exact Hx|right; exact Hin].
      * intros v [<-|Hv] Hrefl; [|apply Hhas; assumption].
        apply List.find_some in Hfind as [Hin He].
        unfold has_entry. apply existsb_exists. exists e. split; [|exact He].
        apply in_or_app. left. exact Hin.
    + rewrite bool_decide_false by (intros [x Hx]; discriminate).
      destruct (IH (l ++ [{| uri := u; trusted := true |}]) true) as (added & Heq & Hadded & Hhas).
      exists ({| uri := u; trusted := true |} :: added).
      split; [rewrite Heq, <- app_assoc; reflexivity|]. split.
      * constructor; [split; [reflexivity|left; reflexivity]|].
        eapply Forall_impl; [exact Hadded|]. cbn. intros x [Hx Hin]. split; [exact Hx|right; exact Hin].
      * intros v [<-|Hv] Hrefl.
        -- unfold has_entry. rewrite existsb_app. cbn. rewrite Hrefl.
           apply orb_true_iff. right. reflexivity.
        -- specialize (Hhas v Hv Hrefl). rewrite <- app_assoc in Hhas. exact Hhas.
Qed.

(** X5. Batches: untrusting several URIs at once is one filter pass that
    keeps, in order, exactly the entries equal to none of them; trusting
    several URIs keeps the list and appends trusted entries for given URIs
    only, after which every given URI has an entry. *)
Theorem setUrisTrust_batches (uris : list URI) (s : State) :
  _trustStateInfo (final_state (setUrisTrust uris false s))
  = List.filter (fun e => forallb (fun u => negb (isEqual (uri e) u)) uris) (_trustStateInfo s)
  /\ exists added,
      _trustStateInfo (final_state (setUrisTrust uris true s)) = _trustStateInfo s ++ added
      /\ Forall (fun e => trusted e = true /\ In (uri e) uris) added
      /\ forall u, In u uris -> isEqual u u = true ->
                   has_entry (_trustStateInfo (final_state (setUrisTrust uris true s))) u = true.
Proof.
  split.
  - rewrite setUrisTrust_final_trustStateInfo. apply setUrisTrust_loop_untrust.
  - destruct (setUrisTrust_loop_trust uris (_trustStateInfo s) false) as (added & Heq & Hadded & Hhas).
    exists added. rewrite setUrisTrust_final_trustStateInfo. unfold setUrisTrust_loop.
    rewrite Heq. split; [reflexivity|]. split; [exact Hadded|exact Hhas].
Qed.

Lemma setUrisTrust_fold_flag (trusted : bool) (uris : list URI) (l : list Entry) :
  snd (fold_left (setUrisTrust_step trusted) uris (l, true)) = true.
Proof.
  destruct (setUrisTrust_fold_spec trusted uris l true) as [->|[Hc _]]; [reflexivity|exact Hc].
Qed.

Lemma setUrisTrust_loop_unchanged_trust (uris : list URI) (l : list Entry) :
  snd (setUrisTrust_loop uris true l) = false
  <-> forall u, In u uris -> has_entry l u = true.
Proof.
  unfold setUrisTrust_loop. induction uris as [|u rest IH]; cbn [fold_left].
  - split; [intros _ u []|reflexivity].
  - unfold setUrisTrust_step at 2.
    destruct (List.find (fun trustInfo : Entry => isEqual (uri trustInfo) u) l) as [e|] eqn:Hfind.
    + rewrite bool_decide_true by (eexists; reflexivity). rewrite IH. split.
      * intros Hrest v [<-|Hv]; [|apply Hrest, Hv].
        apply List.find_some in Hfind as [Hin He].
        unfold has_entry. apply existsb_exists. exists e. split; assumption.
      * intros Hall v Hv. apply Hall. right. exact Hv.
    + rewrite bool_decide_false by (intros [x Hx]; discriminate).
      rewrite setUrisTrust_fold_flag. split; [discriminate|].
      intros Hall. specialize (Hall u (or_introl eq_refl)).
      unfold has_entry in Hall. apply existsb_exists in Hall as (e & Hin & He).
      pose proof (List.find_none _ _ Hfind e Hin) as Hnone. cbn in Hnone. congruence.
Qed.

Lemma setUrisTrust_loop_unchanged_untrust (uris : list URI) (l : list Entry) :
  snd (setUrisTrust_loop uris false l) = false
  <-> forall u, In u uris -> has_entry l u = false.
Proof.
  unfold setUrisTrust_loop. induction uris as [|u rest IH]; cbn [fold_left].
  - split; [intros _ u []|reflexivity].
  - unfold setUrisTrust_step at 2.
    destruct (Nat.eqb_spec (length l)
                (length (List.filter (fun trustInfo : Entry => negb (isEqual (uri trustInfo) u)) l)))
      as [Hlen|Hlen]; cbn [negb].
    + rewrite filter_length_same by (symmetry; exact Hlen). rewrite IH.
      assert (has_entry l u = false) as Hu.
      { unfold has_entry. apply not_true_is_false. intros Hex.
        apply existsb_exists in Hex as (e & Hin & He).
        assert (In e (List.filter (fun trustInfo : Entry => negb (isEqual (uri trustInfo) u)) l))
          as Hin' by (rewrite filter_length_same by (symmetry; exact Hlen); exact Hin).
        apply List.filter_In in Hin' as [_ Hne]. rewrite He in Hne. discriminate. }
      split.
      * intros Hrest v [<-|Hv]; [exact Hu|apply Hrest, Hv].
      * intros Hall v Hv. apply Hall. right. exact Hv.
    + rewrite setUrisTrust_fold_flag. split; [discriminate|].
      intros Hall. specialize (Hall u (or_introl eq_refl)). exfalso. apply Hlen.
      unfold has_entry in Hall. rewrite filter_none_equal by exact Hall. reflexivity.
Qed.

(** X6. [setUrisTrust] does nothing at all exactly when there is nothing
    to do: trusting, when every given URI already has an entry; untrusting,
    when none has.  In particular it does nothing for an empty batch. *)
Theorem setUrisTrust_does_nothing_iff (uris : list URI) (s : State) :
  (setUrisTrust uris true s = Fulfilled tt s
   <-> forall u, In u uris -> has_entry (_trustStateInfo s) u = true)
  /\ (setUrisTrust uris false s = Fulfilled tt s
      <-> forall u, In u uris -> has_entry (_trustStateInfo s) u = false)
  /\ forall trusted, setUrisTrust [] trusted s = Fulfilled tt s.
Proof.
  assert (forall trusted,
             setUrisTrust uris trusted s = Fulfilled tt s
             <-> snd (setUrisTrust_loop uris trusted (_trustStateInfo s)) = false) as Hflag.
  { intros trusted.
    pose proof (setUrisTrust_loop_changed uris trusted (_trustStateInfo s)) as Hchanged.
    split.
    - intros Hnothing. apply not_true_is_false. intros Hc. apply Hchanged in Hc. apply Hc.
      rewrite <- setUrisTrust_final_trustStateInfo, Hnothing. reflexivity.
    - intros Hc. rewrite setUrisTrust_eq. cbn zeta. rewrite Hc.
      unfold setUrisTrust_loop in *.
      destruct (setUrisTrust_fold_spec trusted uris (_trustStateInfo s) false) as [Heq|[Hs _]];
        [|congruence].
      rewrite Heq. cbn [fst]. rewrite with_trustStateInfo_same. reflexivity. }
  split; [|split].
  - rewrite Hflag. apply setUrisTrust_loop_unchanged_trust.
  - rewrite Hflag. apply setUrisTrust_loop_unchanged_untrust.
  - intros trusted. rewrite setUrisTrust_eq. cbn.
    rewrite with_trustStateInfo_same. reflexivity.
Qed.

End BatchFacts.

(** ** getUriTrustInfo on a list of trusted entries *)

Section CoverFacts.
Context {URI : Type} `{ExtUri : IExtUri URI} `{Plat : Platform URI}.

Local Abbreviation Entry := (IWorkspaceTrustUriInfo URI).

(** Either nothing matches and the answer is the URI itself, untrusted, or
    the answer is a matching entry. *)
Lemma getUriTrustInfo_cases (l : list Entry) (u : URI) :
  (getUriTrustInfo l u = {| uri := u; trusted := false |} /\ ~ covered l u)
  \/ (exists e, In e l /\ isEqualOrParent u (uri e) = true /\ getUriTrustInfo l u = e).
Proof.
  unfold getUriTrustInfo.
  destruct (getUriTrustInfo_loop_spec u l
              {| resultState := false; maxLength := (-1)%Z; resultUri := u |})
    as [[-> Hall]|(e & Hin & Hm & _ & -> & _)].
  - left. split; [reflexivity|]. intros (e & Hin & Hm).
    specialize (Hall e Hin Hm). pose proof (pathLength_nonneg e). cbn in Hall. lia.
  - right. exists e. split; [exact Hin|]. split; [exact Hm|]. cbn. apply entry_eta.
Qed.

Lemma trusted_iff_covered (l : list Entry) (u : URI) :
  all_trusted l -> (trusted (getUriTrustInfo l u) = true <-> covered l u).
Proof.
  intros Hall. destruct (getUriTrustInfo_cases l u) as [[-> Hnot]|(e & Hin & Hm & ->)].
  - cbn. split; [discriminate|]. intros Hcov. contradiction.
  - split.
    + intros _. exists e. split; assumption.
    + intros _. unfold all_trusted in Hall. rewrite List.Forall_forall in Hall.
      apply Hall, Hin.
Qed.

(** X7. As long as the list holds only trusted entries, a URI is trusted
    exactly when some entry is an ancestor of it or equal to it; so more
    entries never make a trusted URI untrusted, and [getUrisTrust] holds
    exactly when every URI is under some entry. *)
Theorem trusted_exactly_when_covered (l : list Entry) (u : URI) :
  all_trusted l ->
  (trusted (getUriTrustInfo l u) = true <-> covered l u)
  /\ (trusted (getUriTrustInfo l u) = false <-> uri (getUriTrustInfo l u) = u /\ ~ covered l u)
  /\ (forall l', all_trusted l' ->
                 trusted (getUriTrustInfo l u) = true ->
                 trusted (getUriTrustInfo (l ++ l') u) = true
                 /\ trusted (getUriTrustInfo (l' ++ l) u) = true)
  /\ (forall uris, getUrisTrust l uris = true <-> forall v, In v uris -> covered l v).
Proof.
  intros Hall. split; [apply trusted_iff_covered, Hall|]. split; [|split].
  - destruct (getUriTrustInfo_cases l u) as [[-> Hnot]|(e & Hin & Hm & ->)]; cbn.
    + tauto.
    + unfold all_trusted in Hall. rewrite List.Forall_forall in Hall.
      rewrite (Hall e Hin). split; [discriminate|].
      intros [_ Hnot]. exfalso. apply Hnot. exists e. split; assumption.
  - intros l' Hall' Ht. apply trusted_iff_covered in Ht as (e & Hin & Hm); [|exact Hall].
    split; (apply trusted_iff_covered;
            [apply Forall_app; split; assumption
            |exists e; split; [apply in_or_app; tauto|exact Hm]]).
  - intros uris. rewrite getUrisTrust_true_iff. split.
    + intros Hu v Hv. apply trusted_iff_covered; [exact Hall|apply Hu, Hv].
    + intros Hu v Hv. apply trusted_iff_covered; [exact Hall|apply Hu, Hv].
Qed.

(** The loop keeps the first of the longest matches: entries before the
    one it ends on are strictly shorter, entries after it are not longer. *)
Lemma getUriTrustInfo_loop_first (u : URI) (l : list Entry) (acc : MatchAcc) :
  (getUriTrustInfo_loop u l acc = acc
   /\ forall e, In e l -> isEqualOrParent u (uri e) = true ->
                (pathLength e <= maxLength acc)%Z)
  \/ (exists l1 e l2,
         l = l1 ++ e :: l2 /\ isEqualOrParent u (uri e) = true
         /\ (maxLength acc < pathLength e)%Z
         /\ getUriTrustInfo_loop u l acc
            = {| resultState := trusted e; maxLength := pathLength e; resultUri := uri e |}
         /\ (forall e', In e' l1 -> isEqualOrParent u (uri e') = true ->
                        (pathLength e' < pathLength e)%Z)
         /\ (forall e', In e' l2 -> isEqualOrParent u (uri e') = true ->
                        (pathLength e' <= pathLength e)%Z)).
Proof.
  induction l as [|x l IH] using rev_ind.
  - left. split; [reflexivity|]. intros e [].
  - rewrite getUriTrustInfo_loop_snoc. unfold getUriTrustInfo_step.
    destruct (isEqualOrParent u (uri x)) eqn:Hm.
    + fold (pathLength x).
      destruct (Z.gtb_spec (pathLength x) (maxLength (getUriTrustInfo_loop u l acc))) as [Hgt|Hle].
      * right. exists l, x, []. split; [reflexivity|]. split; [exact Hm|].
        destruct IH as [[Heq Hall]|(l1 & e & l2 & -> & Hme & Hlt & Heq & Hbefore & Hafter)];
          rewrite Heq in Hgt; cbn in Hgt.
        -- split; [lia|]. split; [reflexivity|]. split; [|intros e' []].
           intros e' Hin' Hm'. specialize (Hall e' Hin' Hm'). lia.
        -- split; [lia|]. split; [reflexivity|]. split; [|intros e' []].
           intros e' Hin' Hm'. apply in_app_or in Hin' as [Hin'|[<-|Hin']].
           ++ specialize (Hbefore e' Hin' Hm'). lia.
           ++ lia.
           ++ specialize (Hafter e' Hin' Hm'). lia.
      * destruct IH as [[Heq Hall]|(l1 & e & l2 & -> & Hme & Hlt & Heq & Hbefore & Hafter)];
          rewrite Heq in Hle; cbn in Hle.
        -- left. split; [exact Heq|].
           intros e' Hin' Hm'. apply in_app_or in Hin' as [Hin'|[<-|[]]]; [|lia].
           apply Hall; assumption.
        -- right. exists l1, e, (l2 ++ [x]). split; [rewrite <- app_assoc; reflexivity|].
           split; [exact Hme|]. split; [exact Hlt|]. split; [exact Heq|].
           split; [exact Hbefore|].
           intros e' Hin' Hm'. apply in_app_or in Hin' as [Hin'|[<-|[]]]; [|lia].
           apply Hafter; assumption.
    + destruct IH as [[Heq Hall]|(l1 & e & l2 & -> & Hme & Hlt & Heq & Hbefore & Hafter)].
      * left. split; [exact Heq|].
        intros e' Hin' Hm'. apply in_app_or in Hin' as [Hin'|[<-|[]]]; [|congruence].
        apply Hall; assumption.
      * right. exists l1, e, (l2 ++ [x]). split; [rewrite <- app_assoc; reflexivity|].
        split; [exact Hme|]. split; [exact Hlt|]. split; [exact Heq|].
        split; [exact Hbefore|].
        intros e' Hin' Hm'. apply in_app_or in Hin' as [Hin'|[<-|[]]]; [|congruence].
        apply Hafter; assumption.
Qed.

(** X8. When several matching entries have the longest path, the one that
    comes first in the list is the answer: every matching entry before the
    answer is strictly shorter, every one after it is not longer. *)
Theorem getUriTrustInfo_first_of_the_longest (l : list Entry) (u : URI) :
  covered l u ->
  exists l1 e l2,
    l = l1 ++ e :: l2
    /\ getUriTrustInfo l u = e
    /\ isEqualOrParent u (uri e) = true
    /\ (forall e', In e' l1 -> isEqualOrParent u (uri e') = true ->
                   String.length (fsPath (uri e')) < String.length (fsPath (uri e)))
    /\ (forall e', In e' l2 -> isEqualOrParent u (uri e') = true ->
                   String.length (fsPath (uri e')) <= String.length (fsPath (uri e))).
Proof.
  intros (e0 & Hin0 & Hm0). unfold getUriTrustInfo.
  destruct (getUriTrustInfo_loop_first u l
              {| resultState := false; maxLength := (-1)%Z; resultUri := u |})
    as [[_ Hall]|(l1 & e & l2 & Hl & Hm & _ & -> & Hbefore & Hafter)].
  - specialize (Hall e0 Hin0 Hm0). pose proof (pathLength_nonneg e0). cbn in Hall. lia.
  - exists l1, e, l2. split; [exact Hl|]. split; [cbn; apply entry_eta|].
    split; [exact Hm|]. split.
    + intros e' Hin' Hm'. specialize (Hbefore e' Hin' Hm'). unfold pathLength in Hbefore. lia.
    + intros e' Hin' Hm'. specialize (Hafter e' Hin' Hm'). unfold pathLength in Hafter. lia.
Qed.

End CoverFacts.

(** ** Trust transitions: what they reach, what they fire, why they reject *)

Section TransitionOutcomes.
Context {URI : Type} `{ExtUri : IExtUri URI} `{Plat : Platform URI}.
Context {World Error WorkspaceTrustRequestOptions : Type}.

Local Abbreviation Entry := (IWorkspaceTrustUriInfo URI).
Local Abbreviation State := (@State URI World Error WorkspaceTrustRequestOptions).
Local Abbreviation Operation := (@Operation URI World Error WorkspaceTrustRequestOptions).
Local Abbreviation Callback := (Participant World Error).

(** However the loop ends, it called a prefix of the participants, and only
    the world and the log moved; it ends early only on a rejection, whose
    reason is the rejecting participant's. *)
Lemma participate_loop_final (ps : list (nat * Callback)) (t : bool) :
  forall s : State,
    exists k w,
      final_state (participate_loop ps t s) = participated t (take k ps) w s
      /\ match participate_loop ps t s with
         | Fulfilled _ _ => k = length ps
         | Rejected e _ => exists p w0, In p ps /\ snd (snd p t w0) = Some e
         end.
Proof.
  induction ps as [|p rest IH]; intros s.
  - exists 0, (world s). cbn. split; [symmetry; apply participated_nil|reflexivity].
  - cbn [participate_loop]. unfold await, participateOne. cbn.
    destruct (snd p t (world s)) as [w1 [e|]] eqn:Hp.
    + exists 1, w1. cbn. split; [reflexivity|].
      exists p, (world s). split; [left; reflexivity|]. rewrite Hp. reflexivity.
    + destruct (IH (with_world w1 (emit (Participate (fst p) t) s))) as (k & w & Hfinal & Hend).
      exists (S k), w. cbn [take]. rewrite Hfinal, participated_cons. split; [reflexivity|].
      destruct (participate_loop rest t _) as [[] s2|e s2].
      * cbn. f_equal. exact Hend.
      * destruct Hend as (q & w0 & Hq & He). exists q, w0. split; [right; exact Hq|exact He].
Qed.

(** The three ways [updateWorkspaceTrust] ends. *)
Lemma updateWorkspaceTrust_outcome (arg : option bool) (s : State) :
  let t := targetTrust arg s in
  (isWorkpaceTrusted s = t /\ updateWorkspaceTrust arg s = Fulfilled tt s)
  \/ (isWorkpaceTrusted s = negb t
      /\ exists k w,
          let s1 := participated t (take k (participants (_trustTransitionManager s))) w
                      (with_trustState (WorkspaceTrustState.set_isTrusted (Some t)) s) in
          updateWorkspaceTrust arg s = Fulfilled tt (fire_onDidChangeTrust t s1)
          \/ exists e, updateWorkspaceTrust arg s = Rejected e s1
                       /\ participant_rejects_with s e).
Proof.
  cbn zeta. rewrite updateWorkspaceTrust_eq. cbn zeta.
  generalize (targetTrust arg s). intros t.
  destruct (Bool.eqb (isWorkpaceTrusted s) t) eqn:Hsame.
  - left. split; [apply Bool.eqb_prop, Hsame|reflexivity].
  - right. split.
    { revert Hsame. destruct (isWorkpaceTrusted s), t; cbn; congruence. }
    destruct (participate_loop_final (participants (_trustTransitionManager s)) t
                (with_trustState (WorkspaceTrustState.set_isTrusted (Some t)) s))
      as (k & w & Hfinal & Hend).
    exists k, w. cbn zeta.
    destruct (participate_loop _ t _) as [[] s2|e s2]; cbn in Hfinal; subst s2.
    + left. reflexivity.
    + right. exists e. split; [reflexivity|].
      destruct Hend as (p & w0 & Hin & He). exists p, t, w0. split; assumption.
Qed.

Lemma isWorkpaceTrusted_final_update (arg : option bool) (s : State) :
  isWorkpaceTrusted (final_state (updateWorkspaceTrust arg s)) = targetTrust arg s.
Proof.
  destruct (updateWorkspaceTrust_outcome arg s) as [[Hsame ->]|[_ (k & w & [->|(e & -> & _)])]].
  - exact Hsame.
  - cbn. unfold isWorkpaceTrusted. cbn. rewrite get_isTrusted_set_isTrusted. reflexivity.
  - apply isWorkpaceTrusted_after_assignment.
Qed.

(** [calculateWorkspaceTrust] reads the memento only in an empty window
    where the trust is decided locally. *)
Lemma calculateWorkspaceTrust_frame (s s' : State) :
  host s' = host s ->
  _remoteAuthority s' = _remoteAuthority s ->
  _trustStateInfo s' = _trustStateInfo s ->
  isWorkpaceTrusted s' = isWorkpaceTrusted s
  \/ ~ (decided_locally s /\ getWorkbenchState (host s) = EMPTY) ->
  calculateWorkspaceTrust s' = calculateWorkspaceTrust s.
Proof.
  intros Hhost Hremote Hlist Hmemento.
  unfold calculateWorkspaceTrust, getWorkspaceUris, getCanonicalUri, remoteAuthority_isTrusted.
  rewrite Hhost, Hremote, Hlist.
  destruct (isWorkspaceTrustEnabled (configurationService (host s))) eqn:Henabled;
    [|reflexivity]. cbn [negb].
  destruct (extensionTestsLocationURI (host s)) as [test|] eqn:Htest.
  { rewrite bool_decide_true by (eexists; reflexivity). reflexivity. }
  rewrite bool_decide_false by (intros [x Hx]; discriminate).
  destruct (truthy_string (remoteAuthority (host s))) eqn:Hauth; [reflexivity|].
  destruct (WorkbenchState_eqb (getWorkbenchState (host s)) EMPTY) eqn:Hempty; [|reflexivity].
  destruct Hmemento as [Hsame|Hnot]; [exact Hsame|].
  exfalso. apply Hnot. split; [repeat split; assumption|].
  apply WorkbenchState_eqb_eq, Hempty.
Qed.

Lemma calculateWorkspaceTrust_empty_window (s : State) :
  decided_locally s -> getWorkbenchState (host s) = EMPTY ->
  calculateWorkspaceTrust s = isWorkpaceTrusted s.
Proof.
  intros (Henabled & Htest & Hauth) Hempty. unfold calculateWorkspaceTrust.
  rewrite Henabled, Htest, Hauth, Hempty. reflexivity.
Qed.

(** X9. [updateWorkspaceTrust] always ends with the trust it aimed at,
    whether its promise fulfils or rejects; called without argument it ends
    with [isWorkpaceTrusted] equal to what [calculateWorkspaceTrust] then
    says, and in an empty window where trust is decided locally it finds
    nothing to do. *)
Theorem updateWorkspaceTrust_reaches_its_target (arg : option bool) (s : State) :
  isWorkpaceTrusted (final_state (updateWorkspaceTrust arg s)) = targetTrust arg s
  /\ (arg = None ->
      isWorkpaceTrusted (final_state (updateWorkspaceTrust arg s))
      = calculateWorkspaceTrust (final_state (updateWorkspaceTrust arg s)))
  /\ (arg = None -> decided_locally s -> getWorkbenchState (host s) = EMPTY ->
      updateWorkspaceTrust arg s = Fulfilled tt s).
Proof.
  split; [apply isWorkpaceTrusted_final_update|]. split.
  - intros ->. rewrite isWorkpaceTrusted_final_update. cbn [targetTrust]. symmetry.
    destruct (trust_steps_frame (updateWorkspaceTrust_steps None s))
      as (Hhost & _ & Hlist & Hremote & _).
    destruct (updateWorkspaceTrust_outcome None s) as [[Hsame Hno]|[Hdiff _]].
    + rewrite Hno. reflexivity.
    + apply calculateWorkspaceTrust_frame; try assumption.
      right. intros [Hlocal Hempty]. cbn [targetTrust] in Hdiff.
      rewrite (calculateWorkspaceTrust_empty_window Hlocal Hempty) in Hdiff.
      destruct (isWorkpaceTrusted s); discriminate.
  - intros -> Hlocal Hempty.
    destruct (updateWorkspaceTrust_outcome None s) as [[_ Hno]|[Hdiff _]]; [exact Hno|].
    cbn [targetTrust] in Hdiff.
    rewrite (calculateWorkspaceTrust_empty_window Hlocal Hempty) in Hdiff.
    destruct (isWorkpaceTrusted s); discriminate.
Qed.

End TransitionOutcomes.

(** ** Every operation is a quiet prelude, at most one transition, a quiet end *)

Section OperationShape.
Context {URI : Type} `{ExtUri : IExtUri URI} `{Plat : Platform URI}.
Context {World Error WorkspaceTrustRequestOptions : Type}.

Local Abbreviation Entry := (IWorkspaceTrustUriInfo URI).
Local Abbreviation State := (@State URI World Error WorkspaceTrustRequestOptions).
Local Abbreviation Operation := (@Operation URI World Error WorkspaceTrustRequestOptions).
Local Abbreviation Event := (@Event WorkspaceTrustRequestOptions).
Local Abbreviation Callback := (Participant World Error).

Lemma trust_changes_app (a b : list Event) :
  trust_changes (a ++ b) = trust_changes a ++ trust_changes b.
Proof. apply List.filter_app. Qed.

Lemma trust_changes_participations (t : bool) (ps : list (nat * Callback)) :
  trust_changes (@participations World Error WorkspaceTrustRequestOptions t ps) = [].
Proof. unfold participations. induction ps; cbn; [reflexivity|assumption]. Qed.

Lemma quiet_frame (s s' : State) :
  events s' = events s ->
  isWorkpaceTrusted s' = isWorkpaceTrusted s ->
  _trusted (requestService s') = _trusted (requestService s) ->
  quiet s s'.
Proof.
  intros Hevents Htrust Hcache. split; [|split; assumption].
  exists []. rewrite app_nil_r. split; [exact Hevents|reflexivity].
Qed.

Lemma quiet_refl (s : State) : quiet s s.
Proof. apply quiet_frame; reflexivity. Qed.

Lemma quiet_emit (e : Event) (s : State) :
  is_DidChangeTrust e = false -> quiet s (emit e s).
Proof.
  intros He. split; [|split; reflexivity].
  exists [e]. split; [reflexivity|]. cbn. rewrite He. reflexivity.
Qed.

Lemma quiet_trans (s1 s2 s3 : State) : quiet s1 s2 -> quiet s2 s3 -> quiet s1 s3.
Proof.
  intros ((t1 & E1 & C1) & T1 & K1) ((t2 & E2 & C2) & T2 & K2).
  split; [|split; congruence].
  exists (t1 ++ t2). rewrite E2, E1, <- app_assoc. split; [reflexivity|].
  rewrite trust_changes_app, C1, C2. reflexivity.
Qed.

Lemma quiet_stored (s : State) : quiet s (stored s).
Proof.
  unfold stored.
  eapply quiet_trans; [|apply quiet_emit; reflexivity].
  eapply quiet_trans; [|apply quiet_emit; reflexivity].
  apply quiet_frame; reflexivity.
Qed.

Lemma quiet_resolveRequest (trusted : option bool) (s : State) :
  quiet s (resolveRequest trusted s).
Proof.
  unfold resolveRequest. destruct (_modalTrustRequestResolver _); [|apply quiet_refl].
  apply quiet_frame; reflexivity.
Qed.

Lemma quiet_fires (s s0 s1 : State) :
  quiet s s0 -> fires_at_most_once s0 s1 -> fires_at_most_once s s1.
Proof.
  intros ((t0 & E0 & C0) & T0 & _) (t1 & E1 & Hfire).
  exists (t0 ++ t1). rewrite E1, E0, <- app_assoc. split; [reflexivity|].
  rewrite trust_changes_app, C0. cbn [app].
  destruct Hfire as [Hnone|(Hone & Hdiff & Hcache)]; [left; exact Hnone|].
  right. split; [exact Hone|]. split; [congruence|exact Hcache].
Qed.

Lemma fires_quiet (s s1 s2 : State) :
  fires_at_most_once s s1 -> quiet s1 s2 -> fires_at_most_once s s2.
Proof.
  intros (t1 & E1 & Hfire) ((t2 & E2 & C2) & T2 & K2).
  exists (t1 ++ t2). rewrite E2, E1, <- app_assoc. split; [reflexivity|].
  rewrite trust_changes_app, C2, app_nil_r.
  destruct Hfire as [Hnone|(Hone & Hdiff & Hcache)]; [left; exact Hnone|].
  right. rewrite T2. split; [exact Hone|]. split; [exact Hdiff|congruence].
Qed.

Lemma updateWorkspaceTrust_fires (arg : option bool) (s : State) :
  fires_at_most_once s (final_state (updateWorkspaceTrust arg s)).
Proof.
  destruct (updateWorkspaceTrust_outcome arg s)
    as [[_ ->]|[Hdiff (k & w & [->|(e & -> & _)])]].
  - exists []. rewrite app_nil_r. split; [reflexivity|left; reflexivity].
  - eexists. cbn. rewrite <- app_assoc. split; [reflexivity|].
    rewrite trust_changes_app, trust_changes_participations. cbn.
    right. unfold isWorkpaceTrusted in *. cbn. rewrite get_isTrusted_set_isTrusted. cbn.
    split; [reflexivity|]. split; [exact Hdiff|reflexivity].
  - eexists. cbn. split; [reflexivity|]. left. apply trust_changes_participations.
Qed.

(** The shape of every operation but the initialisation: it is quiet, or it
    is one [updateWorkspaceTrust] between a quiet prelude, which leaves the
    participants alone, and a quiet end; its promise rejects exactly when
    that transition does. *)
Lemma run_decomposition (op : Operation) (s : State) :
  op = InitializeWorkspaceTrust
  \/ (rejection op s = None /\ quiet s (run op s))
  \/ (exists s0 arg,
         quiet s s0
         /\ _trustTransitionManager s0 = _trustTransitionManager s
         /\ rejection op s = rejection_of (updateWorkspaceTrust arg s0)
         /\ quiet (final_state (updateWorkspaceTrust arg s0)) (run op s)).
Proof.
  assert (forall uris trusted,
             (rejection_of (setUrisTrust uris trusted s) = None
              /\ quiet s (final_state (setUrisTrust uris trusted s)))
             \/ (exists s0 arg,
                    quiet s s0
                    /\ _trustTransitionManager s0 = _trustTransitionManager s
                    /\ setUrisTrust uris trusted s = updateWorkspaceTrust arg s0))
    as HsetUris.
  { intros uris trusted. rewrite setUrisTrust_eq. cbn zeta.
    destruct (snd (setUrisTrust_loop uris trusted (_trustStateInfo s))).
    - right.
      exists (stored (with_trustStateInfo
                        (fst (setUrisTrust_loop uris trusted (_trustStateInfo s))) s)), None.
      split; [|split; reflexivity].
      eapply quiet_trans; [|apply quiet_stored]. apply quiet_frame; reflexivity.
    - left. split; [reflexivity|]. apply quiet_frame; reflexivity. }
  assert (forall trusted,
             (rejection_of (setWorkspaceTrust trusted s) = None
              /\ quiet s (final_state (setWorkspaceTrust trusted s)))
             \/ (exists s0 arg,
                    quiet s s0
                    /\ _trustTransitionManager s0 = _trustTransitionManager s
                    /\ setWorkspaceTrust trusted s = updateWorkspaceTrust arg s0))
    as HsetWorkspace.
  { intros trusted. unfold setWorkspaceTrust, await, read.
    destruct (WorkbenchState_eqb _ _); [|apply HsetUris].
    right. exists s, (Some trusted). split; [apply quiet_refl|]. split; reflexivity. }
  destruct op as [|kind workspace|key external|result|uris flag|flag|flag|uris|value
                 |participant|node|options|answer|]; cbn [run rejection].
  - left. reflexivity.
  - right. right. exists (with_workspace kind workspace s), None.
    split; [apply quiet_frame; reflexivity|]. split; [reflexivity|].
    split; [reflexivity|apply quiet_refl].
  - right. rewrite onDidChangeValue_eq. destruct (_ && _).
    + right.
      exists (emit DidChangeTrustedFolders
                (with_trustStateInfo (loadTrustInfo (externalWrite key external s))
                   (externalWrite key external s))), None.
      split; [|split; [reflexivity|split; [reflexivity|apply quiet_refl]]].
      eapply quiet_trans; [|apply quiet_emit; reflexivity]. apply quiet_frame; reflexivity.
    + left. split; [reflexivity|]. apply quiet_frame; reflexivity.
  - right. right. rewrite onRemoteAuthorityResolved_eq.
    exists (with_remoteAuthority (Some result) s), None.
    split; [apply quiet_frame; reflexivity|]. split; [reflexivity|].
    destruct (updateWorkspaceTrust None _) as [[] s1|e s1]; cbn.
    + split; [reflexivity|apply quiet_emit; reflexivity].
    + split; [reflexivity|apply quiet_refl].
  - right. destruct (HsetUris uris flag) as [Hquiet|(s0 & arg & Hq & Hm & ->)];
      [left; exact Hquiet|].
    right. exists s0, arg. split; [exact Hq|]. split; [exact Hm|]. split; [reflexivity|].
    apply quiet_refl.
  - right. unfold setParentFolderTrust, await, read.
    destruct (toWorkspaceIdentifier _); try (left; split; [reflexivity|apply quiet_refl]).
    destruct (String.eqb _ _); [|left; split; [reflexivity|apply quiet_refl]].
    match goal with |- context [setUrisTrust ?us ?t s] =>
      destruct (HsetUris us t) as [Hquiet|(s0 & arg & Hq & Hm & ->)]
    end; [left; exact Hquiet|].
    right. exists s0, arg. split; [exact Hq|]. split; [exact Hm|]. split; [reflexivity|].
    apply quiet_refl.
  - right. destruct (HsetWorkspace flag) as [Hquiet|(s0 & arg & Hq & Hm & ->)];
      [left; exact Hquiet|].
    right. exists s0, arg. split; [exact Hq|]. split; [exact Hm|]. split; [reflexivity|].
    apply quiet_refl.
  - right. right. rewrite setTrustedFolders_eq.
    exists (stored (with_trustStateInfo (fold_left setTrustedFolders_step uris []) s)), None.
    split; [|split; [reflexivity|split; [reflexivity|apply quiet_refl]]].
    eapply quiet_trans; [|apply quiet_stored]. apply quiet_frame; reflexivity.
  - right. left. split; [reflexivity|]. apply quiet_frame; try reflexivity.
    unfold isWorkpaceTrusted, set_acceptsOutOfWorkspaceFiles. cbn.
    rewrite get_isTrusted_set_acceptsOutOfWorkspaceFiles. reflexivity.
  - right. left. split; [reflexivity|]. apply quiet_frame; reflexivity.
  - right. left. split; [reflexivity|]. apply quiet_frame; reflexivity.
  - right. left. unfold requestWorkspaceTrust.
    destruct (_trusted (requestService s)) eqn:Htrusted;
      [split; [reflexivity|apply quiet_refl]|].
    destruct (_modalTrustRequestPromise _); [split; [reflexivity|apply quiet_refl]|].
    split; [reflexivity|]. cbn.
    eapply quiet_trans; [|apply quiet_emit; reflexivity].
    apply quiet_frame; [reflexivity|reflexivity|]. cbn. symmetry. exact Htrusted.
  - right. rewrite completeRequest_eq.
    destruct answer as [t|]; [|left; split; [reflexivity|apply quiet_resolveRequest]].
    destruct (Bool.eqb _ _); [left; split; [reflexivity|apply quiet_resolveRequest]|].
    destruct (HsetWorkspace t) as [[Hnone Hquiet]|(s0 & arg & Hq & Hm & Heq)].
    + left. destruct (setWorkspaceTrust t s) as [[] s1|e s1]; [|discriminate].
      split; [reflexivity|]. cbn in *.
      eapply quiet_trans; [exact Hquiet|apply quiet_resolveRequest].
    + right. exists s0, arg. split; [exact Hq|]. split; [exact Hm|]. rewrite Heq.
      destruct (updateWorkspaceTrust arg s0) as [[] s1|e s1]; cbn.
      * split; [reflexivity|apply quiet_resolveRequest].
      * split; [reflexivity|apply quiet_refl].
  - right. left. split; [reflexivity|]. unfold cancelRequest.
    destruct (_modalTrustRequestResolver _); [|apply quiet_refl].
    apply quiet_frame; reflexivity.
Qed.

End OperationShape.

(** ** What every operation guarantees *)

Section OperationGuarantees.
Context {URI : Type} `{ExtUri : IExtUri URI} `{Plat : Platform URI}.
Context {World Error WorkspaceTrustRequestOptions : Type}.

Local Abbreviation Entry := (IWorkspaceTrustUriInfo URI).
Local Abbreviation State := (@State URI World Error WorkspaceTrustRequestOptions).
Local Abbreviation Operation := (@Operation URI World Error WorkspaceTrustRequestOptions).
Local Abbreviation Event := (@Event WorkspaceTrustRequestOptions).
Local Abbreviation Callback := (Participant World Error).

(** X10. No operation fires [onDidChangeTrust] more than once, and when it
    fires, the trust has really changed, the event carries the new trust and
    the request service has taken it over; when a transition fulfils and has
    changed the trust, the event is the last thing that happened. *)
Theorem onDidChangeTrust_fires_at_most_once :
  (forall (op : Operation) (s : State), fires_at_most_once s (run op s))
  /\ (forall (arg : option bool) (s s' : State),
         updateWorkspaceTrust arg s = Fulfilled tt s' ->
         isWorkpaceTrusted s' = negb (isWorkpaceTrusted s) ->
         exists before, events s' = before ++ [DidChangeTrust (isWorkpaceTrusted s')]).
Proof.
  split.
  - intros op s.
    destruct (run_decomposition op s) as [->|[[_ Hquiet]|(s0 & arg & Hpre & _ & _ & Hpost)]].
    + exists []. rewrite app_nil_r. split; [reflexivity|left; reflexivity].
    + destruct Hquiet as ((tail & Hevents & Hnone) & _). exists tail. split; [exact Hevents|].
      left. exact Hnone.
    + eapply fires_quiet; [|exact Hpost].
      eapply quiet_fires; [exact Hpre|apply updateWorkspaceTrust_fires].
  - intros arg s s' Hfulfilled Hchanged.
    destruct (updateWorkspaceTrust_outcome arg s)
      as [[_ Hno]|[_ (k & w & [Hfire|(e & Hreject & _)])]].
    + rewrite Hno in Hfulfilled. injection Hfulfilled as <-.
      destruct (isWorkpaceTrusted s); discriminate.
    + rewrite Hfire in Hfulfilled. injection Hfulfilled as <-.
      eexists. cbn. f_equal. f_equal. f_equal.
      unfold isWorkpaceTrusted. cbn. rewrite get_isTrusted_set_isTrusted. reflexivity.
    + rewrite Hreject in Hfulfilled. discriminate.
Qed.




Lemma filter_fresh_nodes (node bound : nat) (ps : list (nat * Callback)) :
  Forall (fun p => fst p < bound) ps -> bound <= node ->
  List.filter (fun p => negb (Nat.eqb (fst p) node)) ps = ps.
Proof.
  induction 1 as [|p ps Hp _ IH]; intros Hle; cbn; [reflexivity|].
  destruct (Nat.eqb_spec (fst p) node) as [Heq|_]; [lia|]. cbn. f_equal. apply IH, Hle.
Qed.

(** X13. The handle that [addWorkspaceTrustTransitionParticipant] returns
    removes exactly the participant it was returned for: disposing of it
    gives back the list of before, disposing of it again changes nothing,
    and a transition after the disposal does not call that participant. *)
Theorem participant_handle_removes_exactly_it
    (participant : Callback) (s : State) :
  nodes_fresh s ->
  let handle := fst (addWorkspaceTrustTransitionParticipant participant s) in
  let added := snd (addWorkspaceTrustTransitionParticipant participant s) in
  let disposed := removeParticipant handle added in
  nodes_fresh added
  /\ nodes_fresh disposed
  /\ participants (_trustTransitionManager disposed)
     = participants (_trustTransitionManager s)
  /\ removeParticipant handle disposed = disposed
  /\ forall (arg : option bool) (trusted : bool) tail,
      events (final_state (updateWorkspaceTrust arg disposed)) = events disposed ++ tail ->
      ~ In (Participate handle trusted) tail.
Proof.
  intros Hfresh. cbn zeta.
  assert (List.filter (fun p : nat * Callback =>
                         negb (Nat.eqb (fst p) (nextNode (_trustTransitionManager s))))
            (participants (_trustTransitionManager s) ++
               [(nextNode (_trustTransitionManager s), participant)])
          = participants (_trustTransitionManager s)) as Hfilter.
  { rewrite List.filter_app. cbn. rewrite Nat.eqb_refl. cbn. rewrite app_nil_r.
    apply (filter_fresh_nodes Hfresh). lia. }
  split; [|split; [|split; [|split]]].
  - unfold nodes_fresh. cbn. apply Forall_app. split.
    + eapply Forall_impl; [exact Hfresh|]. cbn. intros p Hp. lia.
    + constructor; [cbn; lia|constructor].
  - unfold nodes_fresh. cbn. rewrite Hfilter.
    eapply Forall_impl; [exact Hfresh|]. cbn. intros p Hp. lia.
  - cbn. exact Hfilter.
  - unfold removeParticipant. cbn. rewrite Hfilter.
    rewrite (filter_fresh_nodes Hfresh) by lia. reflexivity.
  - intros arg trusted tail Hevents Hin.
    assert (exists t k,
               tail = participations t (take k (participants (_trustTransitionManager s)))
               \/ tail = participations t (take k (participants (_trustTransitionManager s)))
                         ++ [DidChangeTrust t]) as (t & k & Htail).
    { destruct (updateWorkspaceTrust_outcome arg
                  (removeParticipant (fst (addWorkspaceTrustTransitionParticipant participant s))
                     (snd (addWorkspaceTrustTransitionParticipant participant s))))
        as [[_ Hno]|[_ (k & w & [Hfire|(e & Hreject & _)])]].
      - rewrite Hno in Hevents. cbn in Hevents.
        exists true, 0. left. cbn.
        apply (app_inv_head (events s)). rewrite app_nil_r. symmetry. exact Hevents.
      - rewrite Hfire in Hevents. cbn in Hevents. rewrite Hfilter in Hevents.
        eexists _, k. right. apply (app_inv_head (events s)).
        rewrite <- Hevents, <- app_assoc. reflexivity.
      - rewrite Hreject in Hevents. cbn in Hevents. rewrite Hfilter in Hevents.
        eexists _, k. left. apply (app_inv_head (events s)). symmetry. exact Hevents. }
    assert (forall ps : list (nat * Callback),
               Forall (fun p => fst p < nextNode (_trustTransitionManager s)) ps ->
               ~ In (Participate (nextNode (_trustTransitionManager s)) trusted)
                   (@participations World Error WorkspaceTrustRequestOptions t ps)) as Hnot.
    { intros ps Hps Hmem. unfold participations in Hmem.
      apply List.in_map_iff in Hmem as (p & Heq & Hp).
      rewrite List.Forall_forall in Hps. specialize (Hps p Hp).
      injection Heq as Heq _. lia. }
    assert (Forall (fun p : nat * Callback => fst p < nextNode (_trustTransitionManager s))
              (take k (participants (_trustTransitionManager s)))) as Hprefix.
    { apply List.Forall_forall. intros p Hp. unfold nodes_fresh in Hfresh.
      rewrite List.Forall_forall in Hfresh. apply Hfresh.
      apply list_elem_of_In. eapply subseteq_take. apply list_elem_of_In. exact Hp. }
    destruct Htail as [->| ->].
    + exact (Hnot _ Hprefix Hin).
    + apply in_app_or in Hin as [Hin|[Hin|[]]]; [exact (Hnot _ Hprefix Hin)|discriminate].
Qed.




End OperationGuarantees.

(** ** requestOpenUris *)

Section OpenUrisFacts.
Context {URI : Type} `{ExtUri : IExtUri URI} `{Plat : Platform URI}.
Context {World Error WorkspaceTrustRequestOptions : Type}.

Local Abbreviation State := (@State URI World Error WorkspaceTrustRequestOptions).
Local Abbreviation Operation := (@Operation URI World Error WorkspaceTrustRequestOptions).
Local Abbreviation Workbench := (@Workbench URI World Error WorkspaceTrustRequestOptions).

Lemma allTrusted_false_iff (l : list (IWorkspaceTrustUriInfo URI)) (uris : list URI) :
  forallb (fun trusted => trusted) (map (fun u => trusted (getUriTrustInfo l u)) uris) = false
  <-> exists u, In u uris /\ trusted (getUriTrustInfo l u) = false.
Proof.
  induction uris as [|u rest IH]; cbn [map forallb].
  - split; [discriminate|]. intros (u & [] & _).
  - destruct (trusted (getUriTrustInfo l u)) eqn:Hu; cbn [andb].
    + rewrite IH. split.
      * intros (v & Hv & Hf). exists v. split; [right; exact Hv|exact Hf].
      * intros (v & [<-|Hv] & Hf); [congruence|]. exists v. split; assumption.
    + split; [|reflexivity]. intros _. exists u. split; [left; reflexivity|exact Hu].
Qed.

(** The answers [requestOpenUris] gives without the dialog, and the one
    case in which it goes on to the dialog. *)
Lemma requestOpenUris_cases (uris : list URI) (result : IShowResult) (w : Workbench) :
  let conflict :=
    _trusted (requestService (services w))
    && negb (forallb (fun trusted => trusted)
               (map (fun u => trusted (getUriTrustInfo (_trustStateInfo (services w)) u)) uris)) in
  requestOpenUris uris result w
  = if negb conflict then Returned Open w
    else match untrustedFilesSetting w with
         | newWindow => Returned OpenInNewWindow w
         | open => Returned Open w
         | prompt =>
             if get_acceptsOutOfWorkspaceFiles (services w) then Returned Open w
             else requestOpenUris_dialog result w
         end.
Proof.
  cbn zeta. unfold requestOpenUris.
  destruct (_trusted (requestService (services w))); cbn [negb andb]; [|reflexivity].
  destruct (forallb _ _); cbn [negb]; [reflexivity|].
  destruct (untrustedFilesSetting w); reflexivity.
Qed.

Lemma requestOpenUris_dialog_prompted (result : IShowResult) (w : Workbench) :
  was_prompted (requestOpenUris_dialog result w) = true.
Proof.
  unfold requestOpenUris_dialog. destruct (choice result) as [|[|n]]; reflexivity.
Qed.

(** X15. [requestOpenUris] shows the dialog exactly when the window is
    trusted, one of the URIs is not, the setting is [prompt] and the user
    has not accepted such files in this workspace before.  In every other
    case it changes nothing and answers [Open], except that it answers
    [OpenInNewWindow] for a conflict under the setting [newWindow]; an empty
    list of URIs is never a conflict. *)
Theorem requestOpenUris_asks_exactly_when
    (uris : list URI) (result : IShowResult) (w : Workbench) :
  let s := services w in
  let conflict :=
    _trusted (requestService s) = true
    /\ exists u, In u uris /\ trusted (getUriTrustInfo (_trustStateInfo s) u) = false in
  (was_prompted (requestOpenUris uris result w) = true
   <-> conflict /\ untrustedFilesSetting w = prompt
       /\ get_acceptsOutOfWorkspaceFiles s = false)
  /\ (was_prompted (requestOpenUris uris result w) = false ->
      workbench_of (requestOpenUris uris result w) = w
      /\ (response_of (requestOpenUris uris result w) = OpenInNewWindow
          <-> conflict /\ untrustedFilesSetting w = newWindow)
      /\ (response_of (requestOpenUris uris result w) <> OpenInNewWindow ->
          response_of (requestOpenUris uris result w) = Open))
  /\ requestOpenUris [] result w = Returned Open w.
Proof.
  cbn zeta. rewrite requestOpenUris_cases. cbn zeta.
  pose proof (allTrusted_false_iff (_trustStateInfo (services w)) uris) as Hconflict.
  destruct (_trusted (requestService (services w))); cbn [andb negb].
  2:{ split; [|split].
      - split; [discriminate|]. intros [[Hf _] _]. discriminate.
      - intros _. split; [reflexivity|]. split; [|reflexivity].
        split; [discriminate|]. intros [[Hf _] _]. discriminate.
      - rewrite requestOpenUris_cases. cbn. rewrite andb_false_r. reflexivity. }
  destruct (forallb _ _) eqn:Hall; cbn [negb].
  { assert (~ exists u, In u uris
                        /\ trusted (getUriTrustInfo (_trustStateInfo (services w)) u) = false)
      as Hnone by (rewrite <- Hconflict; discriminate).
    split; [|split].
    - split; [discriminate|]. intros [[_ Hex] _]. contradiction.
    - intros _. split; [reflexivity|]. split; [|reflexivity].
      split; [discriminate|]. intros [[_ Hex] _]. contradiction.
    - rewrite requestOpenUris_cases. cbn. rewrite andb_false_r. reflexivity. }
  assert (exists u, In u uris
                    /\ trusted (getUriTrustInfo (_trustStateInfo (services w)) u) = false)
    as Hsome by (apply Hconflict; reflexivity).
  split; [|split].
  - destruct (untrustedFilesSetting w); cbn.
    + destruct (get_acceptsOutOfWorkspaceFiles (services w)); cbn.
      * split; [discriminate|]. intros (_ & _ & Hf). discriminate.
      * rewrite requestOpenUris_dialog_prompted. tauto.
    + split; [discriminate|]. intros (_ & Hf & _). discriminate.
    + split; [discriminate|]. intros (_ & Hf & _). discriminate.
  - destruct (untrustedFilesSetting w); cbn.
    + destruct (get_acceptsOutOfWorkspaceFiles (services w)); cbn.
      * intros _. split; [reflexivity|]. split; [|reflexivity].
        split; [discriminate|]. intros [_ Hf]. discriminate.
      * rewrite requestOpenUris_dialog_prompted. discriminate.
    + intros _. split; [reflexivity|]. split; [|reflexivity].
      split; [discriminate|]. intros [_ Hf]. discriminate.
    + intros _. split; [reflexivity|]. split; [tauto|]. intros Hne. contradiction.
  - rewrite requestOpenUris_cases. cbn. rewrite andb_false_r. reflexivity.
Qed.

(** What the dialog part leaves of the workbench. *)
Lemma requestOpenUris_dialog_effect (result : IShowResult) (w : Workbench) :
  let r := requestOpenUris_dialog result w in
  let checked := default false (checkboxChecked result) in
  (choice result = 0 /\ response_of r = Open
   /\ services (workbench_of r) = set_acceptsOutOfWorkspaceFiles true (services w)
   /\ untrustedFilesSetting (workbench_of r)
      = (if checked then open else untrustedFilesSetting w))
  \/ (choice result = 1 /\ response_of r = OpenInNewWindow
      /\ services (workbench_of r) = services w
      /\ untrustedFilesSetting (workbench_of r)
         = (if checked then newWindow else untrustedFilesSetting w))
  \/ (1 < choice result /\ response_of r = Cancel /\ workbench_of r = w).
Proof.
  cbn zeta. unfold requestOpenUris_dialog, saveResponseIfChecked.
  destruct (choice result) as [|[|n]].
  - left. split; [reflexivity|]. split; [reflexivity|].
    destruct (default false (checkboxChecked result)); split; reflexivity.
  - right. left. split; [reflexivity|]. split; [reflexivity|].
    destruct (default false (checkboxChecked result)); split; reflexivity.
  - right. right. split; [lia|]. split; reflexivity.
Qed.

(** X16. Whatever the user answers, [requestOpenUris] leaves the trust, the
    trusted folders, the storage of the folders, the participants, the
    request service and the log alone.  [Cancel] leaves everything as it
    was, even with the checkbox ticked; the setting changes only after the
    dialog, with the checkbox ticked, to the setting that repeats the answer;
    and the acceptance of out-of-workspace files changes only by the answer
    [Open], which turns it on. *)
Theorem requestOpenUris_changes_only_what_the_user_chose
    (uris : list URI) (result : IShowResult) (w : Workbench) :
  let r := requestOpenUris uris result w in
  let s := services w in
  let s' := services (workbench_of r) in
  (host s' = host s /\ storage s' = storage s /\ world s' = world s
   /\ _trustStateInfo s' = _trustStateInfo s /\ _remoteAuthority s' = _remoteAuthority s
   /\ _trustTransitionManager s' = _trustTransitionManager s
   /\ requestService s' = requestService s /\ events s' = events s
   /\ isWorkpaceTrusted s' = isWorkpaceTrusted s)
  /\ (response_of r = Cancel -> workbench_of r = w /\ was_prompted r = true)
  /\ (untrustedFilesSetting (workbench_of r) <> untrustedFilesSetting w ->
      was_prompted r = true /\ checkboxChecked result = Some true
      /\ ((response_of r = Open /\ untrustedFilesSetting (workbench_of r) = open)
          \/ (response_of r = OpenInNewWindow
              /\ untrustedFilesSetting (workbench_of r) = newWindow)))
  /\ (get_acceptsOutOfWorkspaceFiles s' <> get_acceptsOutOfWorkspaceFiles s ->
      was_prompted r = true /\ choice result = 0 /\ response_of r = Open
      /\ get_acceptsOutOfWorkspaceFiles s' = true).
Proof.
  cbn zeta. rewrite requestOpenUris_cases. cbn zeta.
  assert (forall response : WorkspaceTrustUriResponse,
             response <> Cancel ->
             let r := Returned response w in
             (host (services (workbench_of r)) = host (services w)
              /\ storage (services (workbench_of r)) = storage (services w)
              /\ world (services (workbench_of r)) = world (services w)
              /\ _trustStateInfo (services (workbench_of r)) = _trustStateInfo (services w)
              /\ _remoteAuthority (services (workbench_of r)) = _remoteAuthority (services w)
              /\ _trustTransitionManager (services (workbench_of r))
                 = _trustTransitionManager (services w)
              /\ requestService (services (workbench_of r)) = requestService (services w)
              /\ events (services (workbench_of r)) = events (services w)
              /\ isWorkpaceTrusted (services (workbench_of r)) = isWorkpaceTrusted (services w))
             /\ (response_of r = Cancel -> workbench_of r = w /\ was_prompted r = true)
             /\ (untrustedFilesSetting (workbench_of r) <> untrustedFilesSetting w ->
                 was_prompted r = true /\ checkboxChecked result = Some true
                 /\ ((response_of r = Open /\ untrustedFilesSetting (workbench_of r) = open)
                     \/ (response_of r = OpenInNewWindow
                         /\ untrustedFilesSetting (workbench_of r) = newWindow)))
             /\ (get_acceptsOutOfWorkspaceFiles (services (workbench_of r))
                 <> get_acceptsOutOfWorkspaceFiles (services w) ->
                 was_prompted r = true /\ choice result = 0 /\ response_of r = Open
                 /\ get_acceptsOutOfWorkspaceFiles (services (workbench_of r)) = true))
    as Hreturned.
  { intros response Hresponse. cbn. split; [repeat split|].
    split; [intros Hc; contradiction|]. split; intros Hne; contradiction. }
  destruct (negb _); [apply Hreturned; discriminate|].
  destruct (untrustedFilesSetting w) eqn:Hsetting; try (apply Hreturned; discriminate).
  destruct (get_acceptsOutOfWorkspaceFiles (services w)) eqn:Haccepts;
    [apply Hreturned; discriminate|].
  rewrite requestOpenUris_dialog_prompted.
  destruct (requestOpenUris_dialog_effect result w)
    as [(Hchoice & -> & -> & ->)|[(Hchoice & -> & -> & ->)|(Hchoice & -> & ->)]].
  - split.
    { repeat split. unfold isWorkpaceTrusted, set_acceptsOutOfWorkspaceFiles. cbn.
      rewrite get_isTrusted_set_acceptsOutOfWorkspaceFiles. reflexivity. }
    split; [discriminate|]. split.
    + destruct (checkboxChecked result) as [[|]|]; cbn; try (intros Hne; contradiction).
      intros _. split; [reflexivity|]. split; [reflexivity|]. left. split; reflexivity.
    + intros _. split; [reflexivity|]. split; [exact Hchoice|]. split; [reflexivity|].
      unfold get_acceptsOutOfWorkspaceFiles, set_acceptsOutOfWorkspaceFiles. cbn.
      apply get_acceptsOutOfWorkspaceFiles_set.
  - split; [repeat split|]. split; [discriminate|]. split.
    + destruct (checkboxChecked result) as [[|]|]; cbn; try (intros Hne; contradiction).
      intros _. split; [reflexivity|]. split; [reflexivity|]. right. split; reflexivity.
    + intros Hne. rewrite Haccepts in Hne. contradiction.
  - split; [repeat split|]. split; [intros _; split; reflexivity|].
    split; [intros Hne; contradiction|].
    intros Hne. rewrite Haccepts in Hne. contradiction.
Qed.


Lemma service_step_acceptance (s s' : State) :
  service_step s s' ->
  get_acceptsOutOfWorkspaceFiles s' = true -> get_acceptsOutOfWorkspaceFiles s = true.
Proof.
  intros Hstep.
  destruct Hstep as [s s' Htrust| | | | | | | | | |]; try tauto.
  destruct Htrust as [| | |t s|]; try tauto.
  unfold get_acceptsOutOfWorkspaceFiles. cbn. destruct t.
  - rewrite get_acceptsOutOfWorkspaceFiles_set_isTrusted_true. tauto.
  - rewrite get_acceptsOutOfWorkspaceFiles_set_isTrusted_falsy by reflexivity. discriminate.
Qed.

(** X18. The services never grant the acceptance of out-of-workspace files
    themselves: apart from the setter, no operation turns it on.  So when it
    is off before an operation, a conflict that comes up after the operation
    under the setting [prompt] shows the dialog. *)
Theorem acceptance_is_only_granted_by_the_user (op : Operation) (s : State) :
  (forall value, op <> SetAcceptsOutOfWorkspaceFiles value) ->
  (get_acceptsOutOfWorkspaceFiles (run op s) = true ->
   get_acceptsOutOfWorkspaceFiles s = true)
  /\ (get_acceptsOutOfWorkspaceFiles s = false ->
      forall (uris : list URI) (result : IShowResult) (w : Workbench),
        services w = run op s ->
        untrustedFilesSetting w = prompt ->
        _trusted (requestService (run op s)) = true ->
        (exists u, In u uris
                   /\ trusted (getUriTrustInfo (_trustStateInfo (run op s)) u) = false) ->
        was_prompted (requestOpenUris uris result w) = true).
Proof.
  intros Hop.
  assert (get_acceptsOutOfWorkspaceFiles (run op s) = true ->
          get_acceptsOutOfWorkspaceFiles s = true) as Hgrant.
  { pose proof (run_service_steps s Hop) as Hsteps.
    induction Hsteps as [|? ? ? Hstep _ IH]; [tauto|].
    intros Hlast. exact (service_step_acceptance Hstep (IH Hlast)). }
  split; [exact Hgrant|].
  intros Hoff uris result w Hw Hsetting Htrusted Hsome.
  rewrite requestOpenUris_cases. cbn zeta. rewrite Hw, Htrusted, Hsetting.
  apply allTrusted_false_iff in Hsome. rewrite Hsome. cbn.
  destruct (get_acceptsOutOfWorkspaceFiles (run op s)) eqn:Hafter.
  - rewrite (Hgrant eq_refl) in Hoff. discriminate.
  - apply requestOpenUris_dialog_prompted.
Qed.

End OpenUrisFacts.

(** ** The trust of the workspace as a whole *)

Section WorkspaceFacts.
Context {URI : Type} `{ExtUri : IExtUri URI} `{Plat : Platform URI}.
Context {World Error WorkspaceTrustRequestOptions : Type}.

Local Abbreviation Entry := (IWorkspaceTrustUriInfo URI).
Local Abbreviation State := (@State URI World Error WorkspaceTrustRequestOptions).
Local Abbreviation Operation := (@Operation URI World Error WorkspaceTrustRequestOptions).


Lemma updateWorkspaceTrust_frame (arg : option bool) (s : State) :
  host (final_state (updateWorkspaceTrust arg s)) = host s
  /\ _remoteAuthority (final_state (updateWorkspaceTrust arg s)) = _remoteAuthority s
  /\ _trustStateInfo (final_state (updateWorkspaceTrust arg s)) = _trustStateInfo s.
Proof.
  destruct (trust_steps_frame (updateWorkspaceTrust_steps arg s))
    as (Hhost & _ & Hlist & Hremote & _).
  repeat split; assumption.
Qed.

Lemma updateWorkspaceTrust_in_sync (s : State) :
  trust_in_sync (final_state (updateWorkspaceTrust None s)).
Proof.
  unfold trust_in_sync. rewrite isWorkpaceTrusted_final_update. cbn [targetTrust]. symmetry.
  destruct (updateWorkspaceTrust_frame None s) as (Hhost & Hremote & Hlist).
  destruct (updateWorkspaceTrust_outcome None s) as [[Hsame Hno]|[Hdiff _]].
  - rewrite Hno. reflexivity.
  - apply calculateWorkspaceTrust_frame; try assumption.
    right. intros [Hlocal Hempty]. cbn [targetTrust] in Hdiff.
    rewrite (calculateWorkspaceTrust_empty_window Hlocal Hempty) in Hdiff.
    destruct (isWorkpaceTrusted s); discriminate.
Qed.

Lemma setUrisTrust_frame (uris : list URI) (trusted : bool) (s : State) :
  host (final_state (setUrisTrust uris trusted s)) = host s
  /\ _remoteAuthority (final_state (setUrisTrust uris trusted s)) = _remoteAuthority s.
Proof.
  rewrite setUrisTrust_eq. cbn zeta. destruct (snd _); [|split; reflexivity].
  destruct (updateWorkspaceTrust_frame None
              (stored (with_trustStateInfo
                         (fst (setUrisTrust_loop uris trusted (_trustStateInfo s))) s)))
    as (-> & -> & _).
  split; reflexivity.
Qed.

Lemma setUrisTrust_in_sync (uris : list URI) (trusted : bool) (s : State) :
  trust_in_sync s -> trust_in_sync (final_state (setUrisTrust uris trusted s)).
Proof.
  intros Hsync. rewrite setUrisTrust_eq. cbn zeta.
  destruct (snd _) eqn:Hchanged; [apply updateWorkspaceTrust_in_sync|].
  cbn [final_state]. unfold setUrisTrust_loop in *.
  destruct (setUrisTrust_fold_spec trusted uris (_trustStateInfo s) false) as [Hsame|[Htrue _]].
  - rewrite Hsame. cbn [fst]. rewrite with_trustStateInfo_same. exact Hsync.
  - rewrite Htrue in Hchanged. discriminate.
Qed.

Lemma setWorkspaceTrust_eq (trusted : bool) (s : State) :
  setWorkspaceTrust trusted s
  = if WorkbenchState_eqb (getWorkbenchState (host s)) EMPTY
    then updateWorkspaceTrust (Some trusted) s
    else setUrisTrust (getWorkspaceUris s) trusted s.
Proof.
  unfold setWorkspaceTrust, await, read. cbn.
  destruct (WorkbenchState_eqb _ _); reflexivity.
Qed.





(** X20. In an empty window [setWorkspaceTrust] sets the trust to exactly
    what it is given, fulfilled or rejected, and touches neither the trusted
    folders nor their storage.  Where the trust is decided by the workspace a
    later recalculation finds nothing to do; but with the feature disabled
    [calculateWorkspaceTrust] still says trusted, whatever was set. *)
Theorem setWorkspaceTrust_in_an_empty_window (t : bool) (s : State) :
  getWorkbenchState (host s) = EMPTY ->
  let s' := final_state (setWorkspaceTrust t s) in
  isWorkpaceTrusted s' = t
  /\ _trustStateInfo s' = _trustStateInfo s
  /\ storage s' = storage s
  /\ (decided_locally s -> updateWorkspaceTrust None s' = Fulfilled tt s')
  /\ (isWorkspaceTrustEnabled (configurationService (host s)) = false ->
      calculateWorkspaceTrust s' = true).
Proof.
  intros Hempty. cbn zeta. rewrite setWorkspaceTrust_eq, Hempty. cbn [WorkbenchState_eqb].
  destruct (trust_steps_frame (updateWorkspaceTrust_steps (Some t) s))
    as (Hhost & Hstorage & Hlist & _).
  split; [apply isWorkpaceTrusted_final_update|]. split; [exact Hlist|].
  split; [exact Hstorage|]. split.
  - intros Hlocal.
    destruct (updateWorkspaceTrust_outcome None (final_state (updateWorkspaceTrust (Some t) s)))
      as [[_ Hno]|[Hdiff _]]; [exact Hno|].
    cbn [targetTrust] in Hdiff. rewrite calculateWorkspaceTrust_empty_window in Hdiff.
    + destruct (isWorkpaceTrusted _); discriminate.
    + unfold decided_locally. rewrite Hhost. exact Hlocal.
    + rewrite Hhost. exact Hempty.
  - intros Hdisabled. unfold calculateWorkspaceTrust. rewrite Hhost, Hdisabled. reflexivity.
Qed.

Lemma getWorkspaceUris_frame (s s' : State) :
  host s' = host s -> _remoteAuthority s' = _remoteAuthority s ->
  getWorkspaceUris s' = getWorkspaceUris s.
Proof.
  intros Hhost Hremote. unfold getWorkspaceUris, getCanonicalUri.
  rewrite Hhost, Hremote. reflexivity.
Qed.

Lemma has_entry_covered (l : list Entry) (u : URI) :
  has_entry l u = true ->
  (forall e, In e l -> isEqual (uri e) u = true -> isEqualOrParent u (uri e) = true) ->
  covered l u.
Proof.
  unfold has_entry. intros Hhas Hlink.
  apply existsb_exists in Hhas. destruct Hhas as (e & He & Hequal).
  exists e. split; [exact He|]. apply Hlink; assumption.
Qed.

(** X21. In a folder or multi-root workspace [setWorkspaceTrust(true)]
    keeps every trusted folder and adds trusted entries for workspace URIs
    only; after it every workspace URI is trusted, so where the trust is
    decided by the workspace [calculateWorkspaceTrust] says trusted, and the
    stored trust follows if it was in step before.  It needs [isEqual] to be
    reflexive on the workspace URIs and an equal URI to count as equal or
    parent. *)
Theorem setWorkspaceTrust_true_trusts_every_workspace_uri (s : State) :
  getWorkbenchState (host s) <> EMPTY ->
  all_trusted (_trustStateInfo s) ->
  (forall u, In u (getWorkspaceUris s) -> isEqual u u = true) ->
  (forall v u, In v (map uri (_trustStateInfo s) ++ getWorkspaceUris s) ->
               In u (getWorkspaceUris s) ->
               isEqual v u = true -> isEqualOrParent u v = true) ->
  let s' := final_state (setWorkspaceTrust true s) in
  (exists added,
      _trustStateInfo s' = _trustStateInfo s ++ added
      /\ Forall (fun e => trusted e = true /\ In (uri e) (getWorkspaceUris s)) added)
  /\ (forall u, In u (getWorkspaceUris s') ->
                trusted (getUriTrustInfo (_trustStateInfo s') u) = true)
  /\ (decided_locally s ->
      calculateWorkspaceTrust s' = true
      /\ (trust_in_sync s -> isWorkpaceTrusted s' = true)).
Proof.
  intros Hne Hall Hrefl Hlink. cbn zeta. rewrite setWorkspaceTrust_eq.
  rewrite (proj2 (WorkbenchState_eqb_neq _ _) Hne).
  set (uris := getWorkspaceUris s) in *.
  destruct (setUrisTrust_frame uris true s) as (Hhost & Hremote).
  pose proof (setUrisTrust_final_trustStateInfo uris true s) as Hlist.
  unfold setUrisTrust_loop in Hlist.
  destruct (setUrisTrust_loop_trust uris (_trustStateInfo s) false)
    as (added & Hadded & Hnew & Hhas).
  rewrite Hadded in Hlist.
  assert (forall u, In u (getWorkspaceUris (final_state (setUrisTrust uris true s))) ->
                    trusted (getUriTrustInfo
                               (_trustStateInfo (final_state (setUrisTrust uris true s))) u)
                    = true) as Htrusted.
  { intros u Hu. rewrite (getWorkspaceUris_frame s _ Hhost Hremote) in Hu. fold uris in Hu.
    rewrite Hlist. apply trusted_iff_covered.
    - rewrite <- Hadded. apply (setUrisTrust_loop_all_trusted uris true), Hall.
    - apply has_entry_covered; [apply Hhas; [exact Hu|apply Hrefl, Hu]|].
      intros e He Hequal. apply Hlink; [|exact Hu|exact Hequal].
      apply in_app_iff in He. apply in_app_iff. destruct He as [He|He].
      + left. apply in_map, He.
      + right. pose proof (proj1 (Forall_forall _ _) Hnew) as Heach.
        apply Heach, list_elem_of_In, He. }
  split; [exists added; split; [exact Hlist|exact Hnew]|].
  split; [exact Htrusted|].
  intros (Henabled & Htest & Hauth).
  assert (calculateWorkspaceTrust (final_state (setUrisTrust uris true s)) = true) as Hcalc.
  { unfold calculateWorkspaceTrust. rewrite Hhost, Henabled, Htest, Hauth.
    rewrite (proj2 (WorkbenchState_eqb_neq _ _) Hne). cbn.
    apply getUrisTrust_true_iff, Htrusted. }
  split; [exact Hcalc|].
  intros Hsync. etrans; [exact (setUrisTrust_in_sync uris true Hsync)|exact Hcalc].
Qed.

(** X22. In a folder or multi-root workspace [setWorkspaceTrust(false)]
    removes exactly the trusted folders equal to a workspace URI.  It cannot
    take away what a workspace URI inherits: a URI under a trusted folder
    that is none of the workspace URIs is trusted afterwards as before. *)
Theorem setWorkspaceTrust_false_removes_only_the_workspace_uris (s : State) :
  getWorkbenchState (host s) <> EMPTY ->
  let s' := final_state (setWorkspaceTrust false s) in
  _trustStateInfo s'
  = List.filter (fun e => forallb (fun u => negb (isEqual (uri e) u)) (getWorkspaceUris s))
      (_trustStateInfo s)
  /\ (forall u, In u (getWorkspaceUris s) -> has_entry (_trustStateInfo s') u = false)
  /\ (all_trusted (_trustStateInfo s) ->
      forall u e,
        In e (_trustStateInfo s) ->
        isEqualOrParent u (uri e) = true ->
        (forall v, In v (getWorkspaceUris s) -> isEqual (uri e) v = false) ->
        trusted (getUriTrustInfo (_trustStateInfo s') u) = true).
Proof.
  intros Hne. cbn zeta. rewrite setWorkspaceTrust_eq, (proj2 (WorkbenchState_eqb_neq _ _) Hne).
  set (uris := getWorkspaceUris s).
  pose proof (setUrisTrust_final_trustStateInfo uris false s) as Hlist.
  unfold setUrisTrust_loop in Hlist. rewrite setUrisTrust_loop_untrust in Hlist.
  split; [exact Hlist|]. rewrite Hlist. split.
  - intros u Hu. unfold has_entry.
    destruct (existsb _ _) eqn:Hhas; [|reflexivity].
    apply existsb_exists in Hhas. destruct Hhas as (e & He & Hequal).
    apply filter_In in He. destruct He as [_ Hkept].
    rewrite forallb_forall in Hkept. specialize (Hkept u Hu).
    rewrite Hequal in Hkept. discriminate.
  - intros Hall u e He Hcover Hother.
    apply trusted_iff_covered.
    + apply Forall_forall. intros x Hx. apply list_elem_of_In, filter_In in Hx.
      unfold all_trusted in Hall. rewrite Forall_forall in Hall.
      apply Hall, list_elem_of_In, Hx.
    + exists e. split; [|exact Hcover].
      apply filter_In. split; [exact He|].
      apply forallb_forall. intros v Hv. rewrite (Hother v Hv). reflexivity.
Qed.

(** X23. For a single-folder workspace on the [file] scheme,
    [setParentFolderTrust(true)] leaves the parent folder trusted, and from
    then on [canSetWorkspaceTrust] refuses as long as the workspace is
    trusted: the trust of the workspace can no longer be changed on its
    own. *)
Theorem setParentFolderTrust_blocks_canSetWorkspaceTrust (s : State) (folderUri : URI) :
  toWorkspaceIdentifier (getWorkspace (host s)) = SingleFolderWorkspaceIdentifier folderUri ->
  String.eqb (scheme folderUri) Schemas_file = true ->
  all_trusted (_trustStateInfo s) ->
  let parent := URI_file (splitName_parentPath (fsPath folderUri)) in
  isEqual parent parent = true ->
  (forall v, In v (parent :: map uri (_trustStateInfo s)) ->
             isEqual v parent = true -> isEqualOrParent parent v = true) ->
  let s' := final_state (setParentFolderTrust true s) in
  trusted (getUriTrustInfo (_trustStateInfo s') parent) = true
  /\ (getWorkbenchState (host s) <> EMPTY -> isWorkpaceTrusted s' = true ->
      canSetWorkspaceTrust s' = false).
Proof.
  intros Hid Hfile Hall parent Hrefl Hlink. cbn zeta.
  assert (setParentFolderTrust true s = setUrisTrust [parent] true s) as ->.
  { unfold setParentFolderTrust, await, read. cbn. rewrite Hid, Hfile. reflexivity. }
  destruct (setUrisTrust_frame [parent] true s) as (Hhost & Hremote).
  pose proof (setUrisTrust_final_trustStateInfo [parent] true s) as Hlist.
  unfold setUrisTrust_loop in Hlist.
  destruct (setUrisTrust_loop_trust [parent] (_trustStateInfo s) false)
    as (added & Hadded & Hnew & Hhas).
  rewrite Hadded in Hlist.
  assert (trusted (getUriTrustInfo
                     (_trustStateInfo (final_state (setUrisTrust [parent] true s))) parent)
          = true) as Htrusted.
  { rewrite Hlist. apply trusted_iff_covered.
    - rewrite <- Hadded. apply (setUrisTrust_loop_all_trusted [parent] true), Hall.
    - apply has_entry_covered; [apply Hhas; [left; reflexivity|exact Hrefl]|].
      intros e He Hequal. apply Hlink; [|exact Hequal].
      apply in_app_iff in He. destruct He as [He|He].
      + right. apply in_map, He.
      + left. pose proof (proj1 (Forall_forall _ _) Hnew) as Heach.
        destruct (Heach e) as [_ [Hp|[]]]; [apply list_elem_of_In, He|].
        exact Hp. }
  split; [exact Htrusted|].
  intros Hne Hworkspace. unfold canSetWorkspaceTrust, canSetParentFolderTrust.
  rewrite Hhost, Hid, Hfile, Hworkspace, (proj2 (WorkbenchState_eqb_neq _ _) Hne).
  fold parent. rewrite Htrusted. cbn [negb andb].
  destruct (_ && _); [reflexivity|]. destruct (_ || _); reflexivity.
Qed.



End WorkspaceFacts.

(** ** The request service with nothing pending, and the memento *)

Section IdleAndMementoFacts.
Context {URI : Type} `{ExtUri : IExtUri URI} `{Plat : Platform URI}.
Context {World Error WorkspaceTrustRequestOptions : Type}.

Local Abbreviation State := (@State URI World Error WorkspaceTrustRequestOptions).
Local Abbreviation Operation := (@Operation URI World Error WorkspaceTrustRequestOptions).

Lemma setWorkspaceTrust_resolver (t : bool) (s : State) :
  _modalTrustRequestResolver (requestService (final_state (setWorkspaceTrust t s)))
  = _modalTrustRequestResolver (requestService s).
Proof.
  rewrite setWorkspaceTrust_eq. destruct (WorkbenchState_eqb _ _).
  - destruct (trust_steps_frame (updateWorkspaceTrust_steps (Some t) s))
      as (_ & _ & _ & _ & _ & _ & Hresolver & _).
    exact Hresolver.
  - rewrite setUrisTrust_eq. cbn zeta. destruct (snd _); [|reflexivity].
    match goal with |- context [updateWorkspaceTrust None ?s1] =>
      destruct (trust_steps_frame (updateWorkspaceTrust_steps None s1))
        as (_ & _ & _ & _ & _ & _ & Hresolver & _)
    end.
    rewrite Hresolver. reflexivity.
Qed.

(** X25. With no request pending, [cancelRequest] and
    [completeRequest] have nothing to resolve: [cancelRequest],
    [completeRequest()] and [completeRequest] with the trust the service
    already holds change nothing at all.  But [completeRequest] with the
    other value still sets the trust of the workspace, exactly as
    [setWorkspaceTrust] does, although nobody asked. *)
Theorem completing_without_a_request (s : State) :
  request_idle s ->
  cancelRequest s = s
  /\ completeRequest None s = Fulfilled tt s
  /\ completeRequest (Some (_trusted (requestService s))) s = Fulfilled tt s
  /\ completeRequest (Some (negb (_trusted (requestService s)))) s
     = setWorkspaceTrust (negb (_trusted (requestService s))) s.
Proof.
  intros [_ Hresolver].
  assert (forall t, resolveRequest t s = s) as Hnone
      by (intros t; unfold resolveRequest; rewrite Hresolver; reflexivity).
  split; [unfold cancelRequest; rewrite Hresolver; reflexivity|].
  rewrite !completeRequest_eq, !Hnone, Bool.eqb_reflx.
  split; [reflexivity|]. split; [reflexivity|].
  rewrite Bool.eqb_negb1.
  pose proof (setWorkspaceTrust_resolver (negb (_trusted (requestService s))) s) as Hkept.
  destruct (setWorkspaceTrust _ s) as [[] s1|e s1]; [|reflexivity].
  cbn [final_state] in Hkept. unfold resolveRequest.
  rewrite Hkept, Hresolver. reflexivity.
Qed.

Lemma service_step_memento (s s' : State) :
  service_step s s' -> memento_kept_or_saved s s'.
Proof.
  intros Hstep. destruct Hstep as [s s' Htrust| | | | | | | | | |];
    try (left; reflexivity).
  destruct Htrust; try (left; reflexivity).
  right. reflexivity.
Qed.

Lemma service_steps_memento (s s' : State) :
  rtc service_step s s' -> memento_kept_or_saved s s'.
Proof.
  induction 1 as [s|s s1 s2 Hstep _ IH]; [left; reflexivity|].
  destruct IH as [IH|IH]; [|right; exact IH].
  destruct (service_step_memento Hstep) as [Hfirst|Hsaved].
  - left. rewrite IH. exact Hfirst.
  - right. unfold memento_saved. rewrite IH. exact Hsaved.
Qed.

(** X26. No operation leaves the memento object with a change that
    [saveMemento] has not written: after every operation the trust state is
    as it was, or its saved copy is the memento object. *)
Theorem memento_is_saved_whenever_it_changes (op : Operation) (s : State) :
  memento_kept_or_saved s (run op s)
  /\ (memento_saved s -> memento_saved (run op s)).
Proof.
  assert (memento_kept_or_saved s (run op s)) as Hkept.
  { destruct op as [|kind workspace|key external|result|uris flag|flag|flag|uris|value
                    |participant|node|options|answer|];
      try (apply service_steps_memento, run_service_steps; discriminate).
    right. reflexivity. }
  split; [exact Hkept|].
  intros Hsaved. destruct Hkept as [Hsame|Hnew]; [|exact Hnew].
  unfold memento_saved. rewrite Hsame. exact Hsaved.
Qed.

End IdleAndMementoFacts.

(** ** The further properties on the concrete platform *)

Module PosixScenarios.
Import Posix PosixScenes.


Lemma trusted_exactly_when_covered_witness :
  trusted (getUriTrustInfo [trustedEntry a] abc) = true <-> covered [trustedEntry a] abc.
Proof.
  assert (all_trusted [trustedEntry a]) as Hall by (repeat constructor).
  exact (proj1 (trusted_exactly_when_covered abc Hall)).
Defined.

Lemma getUriTrustInfo_first_of_the_longest_witness :
  exists l1 e l2,
    [trustedEntry a; trustedEntry ab; trustedEntry ab] = l1 ++ e :: l2
    /\ getUriTrustInfo [trustedEntry a; trustedEntry ab; trustedEntry ab] abc = e
    /\ isEqualOrParent abc (uri e) = true.
Proof.
  assert (covered [trustedEntry a; trustedEntry ab; trustedEntry ab] abc) as Hcovered.
  { exists (trustedEntry a). split; [left; reflexivity|reflexivity]. }
  destruct (getUriTrustInfo_first_of_the_longest Hcovered)
    as (l1 & e & l2 & Hsplit & Hfound & Hcover & _).
  exists l1, e, l2. split; [exact Hsplit|]. split; [exact Hfound|exact Hcover].
Defined.

Lemma participant_handle_removes_exactly_it_witness :
  participants
    (_trustTransitionManager
       (removeParticipant (fst (addWorkspaceTrustTransitionParticipant logger twoParticipants))
          (snd (addWorkspaceTrustTransitionParticipant logger twoParticipants))))
  = participants (_trustTransitionManager twoParticipants).
Proof.
  assert (nodes_fresh twoParticipants) as Hfresh by (repeat constructor).
  destruct (participant_handle_removes_exactly_it logger Hfresh) as (_ & _ & Hsame & _).
  exact Hsame.
Defined.



Lemma acceptance_is_only_granted_by_the_user_witness :
  was_prompted
    (requestOpenUris [a] openAndRemember
       {| services := run CancelRequest trustedWindow; untrustedFilesSetting := prompt |})
  = true.
Proof.
  assert (forall value : bool,
             CancelRequest
             <> (SetAcceptsOutOfWorkspaceFiles value : @Operation Uri World Error Options))
    as Hop by discriminate.
  assert (get_acceptsOutOfWorkspaceFiles trustedWindow = false) as Hoff by reflexivity.
  assert (_trusted (requestService (run CancelRequest trustedWindow)) = true) as Htrusted
      by reflexivity.
  assert (exists u, In u [a]
                    /\ trusted (getUriTrustInfo
                                  (_trustStateInfo (run CancelRequest trustedWindow)) u) = false)
    as Hsome by (exists a; split; [left; reflexivity|reflexivity]).
  exact (proj2 (acceptance_is_only_granted_by_the_user trustedWindow Hop) Hoff
           [a] openAndRemember
           {| services := run CancelRequest trustedWindow; untrustedFilesSetting := prompt |}
           eq_refl eq_refl Htrusted Hsome).
Defined.


Lemma setWorkspaceTrust_in_an_empty_window_witness :
  isWorkpaceTrusted (final_state (setWorkspaceTrust true twoParticipants)) = true.
Proof.
  assert (getWorkbenchState (host twoParticipants) = EMPTY) as Hempty by reflexivity.
  exact (proj1 (setWorkspaceTrust_in_an_empty_window true twoParticipants Hempty)).
Defined.

Lemma setWorkspaceTrust_true_trusts_every_workspace_uri_witness :
  calculateWorkspaceTrust (final_state (setWorkspaceTrust true onlyA)) = true.
Proof.
  assert (getWorkbenchState (host onlyA) <> EMPTY) as Hfolder by discriminate.
  assert (all_trusted (_trustStateInfo onlyA)) as Hall by (repeat constructor).
  assert (forall u, In u (getWorkspaceUris onlyA) -> isEqual u u = true) as Hrefl
      by (intros u [<-|[]]; reflexivity).
  assert (forall v u, In v (map uri (_trustStateInfo onlyA) ++ getWorkspaceUris onlyA) ->
                      In u (getWorkspaceUris onlyA) ->
                      isEqual v u = true -> isEqualOrParent u v = true) as Hlink
      by (intros v u [<-|[<-|[]]] [<-|[]] Hequal; [discriminate|reflexivity]).
  destruct (setWorkspaceTrust_true_trusts_every_workspace_uri onlyA Hfolder Hall Hrefl Hlink)
    as (_ & _ & Hlocal).
  exact (proj1 (Hlocal (conj eq_refl (conj eq_refl eq_refl)))).
Defined.

Lemma setWorkspaceTrust_false_removes_only_the_workspace_uris_witness :
  has_entry (_trustStateInfo (final_state (setWorkspaceTrust false projFolder))) proj = false.
Proof.
  assert (getWorkbenchState (host projFolder) <> EMPTY) as Hfolder by discriminate.
  destruct (setWorkspaceTrust_false_removes_only_the_workspace_uris projFolder Hfolder)
    as (_ & Hgone & _).
  exact (Hgone proj (or_introl eq_refl)).
Defined.

Lemma setParentFolderTrust_blocks_canSetWorkspaceTrust_witness :
  canSetWorkspaceTrust trustedProjFolder = true
  /\ canSetWorkspaceTrust (final_state (setParentFolderTrust true trustedProjFolder)) = false.
Proof.
  split; [vm_compute; reflexivity|].
  assert (all_trusted (_trustStateInfo trustedProjFolder)) as Hall by (repeat constructor).
  assert (forall v, In v (file "/" :: map uri (_trustStateInfo trustedProjFolder)) ->
                    isEqual v (file "/") = true -> isEqualOrParent (file "/") v = true)
    as Hlink by (intros v [<-|[<-|[]]] Hequal; [reflexivity|discriminate]).
  assert (toWorkspaceIdentifier (getWorkspace (host trustedProjFolder))
          = SingleFolderWorkspaceIdentifier proj) as Hid by reflexivity.
  assert (String.eqb (scheme proj) Schemas_file = true) as Hfile by reflexivity.
  assert (isEqual (file "/") (file "/") = true) as Hrefl by reflexivity.
  destruct (setParentFolderTrust_blocks_canSetWorkspaceTrust
              trustedProjFolder Hid Hfile Hall Hrefl Hlink)
    as (_ & Hblocked).
  apply Hblocked; [discriminate|vm_compute; reflexivity].
Defined.

Lemma completing_without_a_request_witness :
  completeRequest (Some true) emptyWindow = setWorkspaceTrust true emptyWindow.
Proof.
  assert (request_idle emptyWindow) as Hidle by (split; reflexivity).
  exact (proj2 (proj2 (proj2 (completing_without_a_request Hidle)))).
Defined.

End PosixScenarios.
